(** * Test-schedule deviation counts: a model of [calculate_test_deviations.py]

    The script reads a table of participant/event rows, standardises the
    column types, derives for each participant a baseline anchor date and an
    end-of-schedule date, looks every expected test up in a dictionary of
    performed tests, and writes three counts on the participant's baseline
    row.  This file follows the script section by section.

    Conventions.
    - A [Timestamp] carries the calendar fields of a pandas Timestamp and is
      ordered by its nanosecond [value]; years are unbounded integers, so the
      representable range of a 64-bit nanosecond counter is not modelled.
    - [None] stands for NaN / NaT / pd.NA in a nullable cell.
    - A data frame is a list of rows in index order (the default RangeIndex)
      together with the information which columns exist.
    - Printing and file access are left out; a run either completes with the
      updated frame or aborts.
    - Library calls are modelled by what they return: [pd.to_datetime] and
      [pd.to_numeric] through the kind of cell they are given,
      [relativedelta] and [calendar] through their arithmetic. *)

From Stdlib Require Import ZArith Lia.
From Stdlib Require OrderedTypeEx.
From stdpp Require Import base option list sorting strings gmap fin_maps.

Local Open Scope Z_scope.

(** ** Calendar arithmetic ([calendar], [datetime]) *)

Module Calendar.

(** [calendar.isleap] *)
Definition isleap (year : Z) : bool :=
  (year mod 4 =? 0) && (negb (year mod 100 =? 0) || (year mod 400 =? 0)).

(** [calendar.mdays], indexed by month number. *)
Definition mdays (month : Z) : Z :=
  match month with
  | 1 => 31 | 2 => 28 | 3 => 31 | 4 => 30 | 5 => 31 | 6 => 30
  | 7 => 31 | 8 => 31 | 9 => 30 | 10 => 31 | 11 => 30 | 12 => 31
  | _ => 0
  end.

(** Second component of [calendar.monthrange year month]: the number of
    days of the month. *)
Definition monthrange (year month : Z) : Z :=
  mdays month + (if (month =? 2) && isleap year then 1 else 0).

(** [datetime._days_before_year] *)
Definition days_before_year (year : Z) : Z :=
  let y := year - 1 in
  y * 365 + y / 4 - y / 100 + y / 400.

(** [datetime._days_before_month] *)
Definition days_before_month (year month : Z) : Z :=
  match month with
  | 1 => 0 | 2 => 31 | 3 => 59 | 4 => 90 | 5 => 120 | 6 => 151
  | 7 => 181 | 8 => 212 | 9 => 243 | 10 => 273 | 11 => 304 | 12 => 334
  | _ => 0
  end + (if (2 <? month) && isleap year then 1 else 0).

(** [datetime._ymd2ord]: proleptic Gregorian ordinal, 0001-01-01 is day 1. *)
Definition ymd2ord (year month day : Z) : Z :=
  days_before_year year + days_before_month year month + day.

End Calendar.

(** ** Timestamps *)

Record Timestamp := mkTimestamp {
  year : Z;
  month : Z;
  day : Z;
  (** hour, minute, second and the sub-second fields, as nanoseconds since
      midnight *)
  nanos_of_day : Z
}.

Definition NANOS_PER_DAY : Z := 86400 * 1000000000.

(** Ordinal of 1970-01-01. *)
Definition EPOCH_ORDINAL : Z := 719163.

(** Nanoseconds since the epoch; pandas compares Timestamps by this number,
    and adding a [timedelta] shifts it. *)
Definition value (t : Timestamp) : Z :=
  (Calendar.ymd2ord (year t) (month t) (day t) - EPOCH_ORDINAL) * NANOS_PER_DAY
  + nanos_of_day t.

(** [timedelta(days=n)] in nanoseconds. *)
Definition timedelta_days (n : Z) : Z := n * NANOS_PER_DAY.

(** A date at midnight. *)
Definition date (y m d : Z) : Timestamp := mkTimestamp y m d 0.

Definition valid_date (t : Timestamp) : Prop :=
  1 <= month t <= 12 /\ 1 <= day t <= Calendar.monthrange (year t) (month t).

#[global] Instance Timestamp_eq_dec : EqDecision Timestamp.
Proof. solve_decision. Defined.

(** ** [dateutil.relativedelta] restricted to what the script builds:
       [relativedelta(months=n)] *)

Module Relativedelta.

Record t := mk { years : Z; months : Z }.

(** The constructor followed by [_fix]: more than eleven months carry
    over into years. *)
Definition of_months (n : Z) : t :=
  if 11 <? Z.abs n then
    let s := Z.sgn n in
    {| years := (n * s / 12) * s; months := ((n * s) mod 12) * s |}
  else {| years := 0; months := n |}.

(** [__radd__]: [dt + relativedelta]; year and month move, the day is cut
    down to the length of the month reached, the time of day stays. *)
Definition radd (dt : Timestamp) (rd : t) : Timestamp :=
  let year0 := year dt + years rd in
  let month0 := month dt + months rd in
  let '(year1, month1) :=
    if months rd =? 0 then (year0, month dt)
    else if 12 <? month0 then (year0 + 1, month0 - 12)
    else if month0 <? 1 then (year0 - 1, month0 + 12)
    else (year0, month0) in
  let day1 := Z.min (Calendar.monthrange year1 month1) (day dt) in
  mkTimestamp year1 month1 day1 (nanos_of_day dt).

End Relativedelta.

(** The date [base_dt + relativedelta(months=n)] stands for; whether pandas
    can hold it as a Timestamp is [Timestamp_add_months]'s part, below. *)
Definition add_months (dt : Timestamp) (n : Z) : Timestamp :=
  Relativedelta.radd dt (Relativedelta.of_months n).


(** ** Configuration constants of the script *)

Definition GRACE_DAYS : Z := 14.

Definition PARTICIPANT_ID_COL : string := "record_id".
Definition EVENT_NAME_COL : string := "event_name".
Definition VISIT_DATE_COL : string := "visit_date".
Definition TEST_DATE_COL : string := "test_date".
Definition STATUS_COL : string := "participant_status".
Definition ENDPOINT_DATE_1_COL : string := "primary_endpoint_date".
Definition ENDPOINT_DATE_2_COL : string := "secondary_endpoint_date".
Definition MISSED_TEST_COUNT_COL : string := "missed_test_count".
Definition OUTSIDE_WINDOW_COUNT_COL : string := "outside_window_test_count".
Definition TOTAL_DEVIATION_COUNT_COL : string := "total_test_deviations".

Definition BASELINE_EVENT_NAME : string := "study_baseline".

(** The schedule dictionary [{month_offset: event_name}] in insertion
    order. *)
Definition EXPECTED_FOLLOWUP_SCHEDULE : list (Z * string) :=
  [ (2, "followup_visit_1"); (4, "followup_visit_2"); (6, "followup_visit_3");
    (8, "followup_visit_4"); (10, "followup_visit_5"); (12, "followup_visit_6");
    (14, "followup_visit_7"); (16, "followup_visit_8");
    (18, "end_of_study_visit") ].

Definition ALL_TEST_EVENT_NAMES : list string :=
  BASELINE_EVENT_NAME :: (snd <$> EXPECTED_FOLLOWUP_SCHEDULE).

(** ** The table as loaded

    A cell of a date column is described by what [pd.to_datetime(...,
    errors="coerce")] makes of it, a cell of the status column by what
    [pd.to_numeric(..., errors="coerce")] makes of it. *)

Inductive RawDateCell :=
| DateCell (t : Timestamp)      (* text that parses to [t] *)
| DateJunk (s : string)         (* text that does not parse *)
| DateBlank.                    (* empty field *)

Inductive RawStatusCell :=
| StatusInteger (z : Z)         (* an integral number *)
| StatusFraction (s : string)   (* a number with a fractional part *)
| StatusJunk (s : string)       (* text that is not a number *)
| StatusBlank.                  (* empty field *)

Inductive RawCell :=
| CellBlank
| CellText (s : string)
| CellNumber (z : Z).

(** One line of the file.  An identifier or event cell is [None] when the
    field is empty and otherwise the text [astype(str)] shows for it.  The
    field of a column the file does not have is never read. *)
Record RawRow := mkRawRow {
  raw_record_id : option string;
  raw_event_name : option string;
  raw_test_date : RawDateCell;
  raw_visit_date : RawDateCell;
  raw_participant_status : RawStatusCell;
  raw_primary_endpoint_date : RawDateCell;
  raw_secondary_endpoint_date : RawDateCell;
  raw_missed_test_count : RawCell;
  raw_outside_window_test_count : RawCell;
  raw_total_test_deviations : RawCell
}.

(** The frame after the column names were cleaned. *)
Record RawFrame := mkRawFrame {
  raw_columns : list string;
  raw_rows : list RawRow
}.

(** ** The table after type conversion *)

Record Row := mkRow {
  record_id : string;
  event_name : string;
  test_date : option Timestamp;
  visit_date : option Timestamp;
  participant_status : option Z;
  primary_endpoint_date : option Timestamp;
  secondary_endpoint_date : option Timestamp;
  missed_test_count : option Z;
  outside_window_test_count : option Z;
  total_test_deviations : option Z
}.

Record Frame := mkFrame {
  columns : list string;
  rows : list Row
}.

#[global] Instance Row_eq_dec : EqDecision Row.
Proof. solve_decision. Defined.

(** [col in df.columns] *)
Definition has_column (cols : list string) (col : string) : bool :=
  bool_decide (col ∈ cols).

(** ** How a run ends *)

Inductive Abort :=
| ColumnNotFound (col : string)      (* message naming the column, [sys.exit(1)] *)
| BaselineDateColumnsNotFound        (* neither date column, [sys.exit(1)] *)
| KeyError (col : string)            (* uncaught lookup of a missing column *)
| CastError                          (* uncaught: cannot safely cast to Int64 *)
| OutOfBoundsDatetime.               (* uncaught: a date outside the Timestamp range *)

Inductive Outcome (A : Type) :=
| Completed (a : A)
| Aborted (why : Abort).
Arguments Completed {A} a.
Arguments Aborted {A} why.

#[global] Instance Outcome_bind : MBind Outcome := fun A B k m =>
  match m with
  | Completed a => k a
  | Aborted why => Aborted why
  end.

(** ** Data cleaning and type conversion (lines 119-216) *)

(** Characters [str.strip] removes, among the 7-bit ones. *)
Definition is_space (c : Ascii.ascii) : bool :=
  let n := Ascii.nat_of_ascii c in
  ((9 <=? n) && (n <=? 13) || (28 <=? n) && (n <=? 32))%nat.

Fixpoint lstrip (s : string) : string :=
  match s with
  | EmptyString => EmptyString
  | String c rest => if is_space c then lstrip rest else s
  end.

Fixpoint rstrip (s : string) : string :=
  match s with
  | EmptyString => EmptyString
  | String c rest =>
      match rstrip rest with
      | EmptyString => if is_space c then EmptyString else String c EmptyString
      | kept => String c kept
      end
  end.

Definition strip (s : string) : string := rstrip (lstrip s).

(** [Series.fillna] on one cell. *)
Definition fillna {A} (filler : option A) (cell : option A) : option A :=
  match cell with
  | Some _ => cell
  | None => filler
  end.

(** [astype(str)] on a cell of an object column: a missing value becomes
    the text nan. *)
Definition astype_str (cell : option string) : option string :=
  match cell with
  | Some s => Some s
  | None => Some "nan"
  end.

(** The text of a cell known to hold one. *)
Definition text_of (cell : option string) : string := default "" cell.

(** [df[col].fillna("").astype(str).str.strip()] *)
Definition clean_participant_id (cell : option string) : string :=
  strip (text_of (astype_str (fillna (Some "") cell))).

(** [df[col].astype(str).fillna("MISSING_EVENT_NAME")] *)
Definition clean_event_name (cell : option string) : string :=
  text_of (fillna (Some "MISSING_EVENT_NAME") (astype_str cell)).

(** [pd.to_datetime(cell, errors="coerce")] *)
Definition to_datetime (cell : RawDateCell) : option Timestamp :=
  match cell with
  | DateCell t => Some t
  | DateJunk _ | DateBlank => None
  end.

(** The float column [pd.to_numeric(..., errors="coerce")] produces. *)
Inductive Numeric :=
| Integral (z : Z)
| NonIntegral
| NaN.

Definition to_numeric (cell : RawStatusCell) : Numeric :=
  match cell with
  | StatusInteger z => Integral z
  | StatusFraction _ => NonIntegral
  | StatusJunk _ | StatusBlank => NaN
  end.

(** The values of an [Int64] column. *)
Definition INT64_MIN : Z := - 2 ^ 63.
Definition INT64_MAX : Z := 2 ^ 63 - 1.

(** What [astype("Int64")] accepts: a missing value, or a whole number
    that fits 64 bits. *)
Definition castable (n : Numeric) : bool :=
  match n with
  | NonIntegral => false
  | Integral z => (INT64_MIN <=? z) && (z <=? INT64_MAX)
  | NaN => true
  end.

Definition to_Int64 (n : Numeric) : option Z :=
  match n with
  | Integral z => Some z
  | NonIntegral | NaN => None
  end.

(** [astype("Int64")] on a whole column: refused as soon as one value has
    a fractional part or does not fit 64 bits. *)
Definition astype_Int64 (col : list Numeric) : Outcome (list (option Z)) :=
  if forallb castable col then Completed (to_Int64 <$> col)
  else Aborted CastError.

(** A date column is converted when it exists; a missing one draws a
    warning only and reads as empty from here on. *)
Definition convert_date (cols : list string) (col : string)
    (cell : RawDateCell) : option Timestamp :=
  if has_column cols col then to_datetime cell else None.

(** The row once all columns are converted; the three output columns are
    added or cleared (lines 165-173), whatever they held. *)
Definition convert_row (cols : list string) (r : RawRow)
    (status : option Z) : Row :=
  {| record_id := clean_participant_id (raw_record_id r);
     event_name := clean_event_name (raw_event_name r);
     test_date := convert_date cols TEST_DATE_COL (raw_test_date r);
     visit_date := convert_date cols VISIT_DATE_COL (raw_visit_date r);
     participant_status := status;
     primary_endpoint_date :=
       convert_date cols ENDPOINT_DATE_1_COL (raw_primary_endpoint_date r);
     secondary_endpoint_date :=
       convert_date cols ENDPOINT_DATE_2_COL (raw_secondary_endpoint_date r);
     missed_test_count := None;
     outside_window_test_count := None;
     total_test_deviations := None |}.

(** Columns after the output columns were added where missing. *)
Definition add_output_columns (cols : list string) : list string :=
  foldl (fun cs col => if has_column cs col then cs else cs ++ [col]) cols
    [MISSED_TEST_COUNT_COL; OUTSIDE_WINDOW_COUNT_COL; TOTAL_DEVIATION_COUNT_COL].

(** Lines 119-216 in order: the identifier column is required; the output
    columns are prepared; date columns are converted; the status column is
    required and cast; the event column is required. *)
Definition prepare (df : RawFrame) : Outcome Frame :=
  let cols := raw_columns df in
  if negb (has_column cols PARTICIPANT_ID_COL)
  then Aborted (ColumnNotFound PARTICIPANT_ID_COL)
  else if negb (has_column cols STATUS_COL)
  then Aborted (ColumnNotFound STATUS_COL)
  else
    statuses ← astype_Int64 (to_numeric ∘ raw_participant_status <$> raw_rows df);
    if negb (has_column cols EVENT_NAME_COL)
    then Aborted (ColumnNotFound EVENT_NAME_COL)
    else Completed {| columns := add_output_columns cols;
                      rows := zip_with (convert_row cols) (raw_rows df) statuses |}.

(** ** Sorting and duplicates *)

(** [sort_values] keeps rows with equal keys in their original order; the
    model is insertion from the right, each row going in front of the
    first row that is not smaller. *)
Fixpoint insert_sorted {A} (le : A -> A -> bool) (x : A) (l : list A) : list A :=
  match l with
  | [] => [x]
  | y :: rest => if le x y then x :: y :: rest else y :: insert_sorted le x rest
  end.

Definition sort_values {A} (le : A -> A -> bool) (l : list A) : list A :=
  foldr (insert_sorted le) [] l.

(** [drop_duplicates(subset, keep="first")] *)
Fixpoint drop_duplicates_from {A K} `{EqDecision K} (subset : A -> K)
    (seen : list K) (l : list A) : list A :=
  match l with
  | [] => []
  | x :: rest =>
      if bool_decide (subset x ∈ seen) then drop_duplicates_from subset seen rest
      else x :: drop_duplicates_from subset (subset x :: seen) rest
  end.

Definition drop_duplicates {A K} `{EqDecision K} (subset : A -> K)
    (l : list A) : list A :=
  drop_duplicates_from subset [] l.

(** Order of two cells as [sort_values] sees them. *)
Definition compare_text (a b : string) : comparison := String.compare a b.

Definition compare_date (a b : option Timestamp) : comparison :=
  match a, b with
  | Some x, Some y => value x ?= value y
  | Some _, None => Lt            (* missing values go last *)
  | None, Some _ => Gt
  | None, None => Eq
  end.

(** Several sort columns: the first one that differs decides. *)
Definition then_by (c1 c2 : comparison) : comparison :=
  match c1 with
  | Eq => c2
  | _ => c1
  end.

Definition not_after (c : comparison) : bool :=
  match c with
  | Gt => false
  | _ => true
  end.

(** ** Baseline anchor dates (lines 219-287) *)

(** The mask [(event == BASELINE_EVENT_NAME) & (record_id != "")]. *)
Definition is_baseline_row (r : Row) : Prop :=
  event_name r = BASELINE_EVENT_NAME /\ record_id r <> "".

#[global] Instance is_baseline_row_dec r : Decision (is_baseline_row r).
Proof. unfold is_baseline_row. apply _. Defined.

Definition by_participant (a b : Row) : bool :=
  not_after (compare_text (record_id a) (record_id b)).

(** Baseline rows, sorted by participant, one kept per participant.  Where
    a participant has several baseline rows the model keeps them in table
    order while sorting, so that the row kept here is the one [pinfo_raw]
    keeps; pandas' default sort on a single column leaves that order open. *)
Definition baseline_event_rows (f : Frame) : list Row :=
  drop_duplicates record_id
    (sort_values by_participant (filter is_baseline_row (rows f))).

(** The anchor of one baseline row, by the date columns the frame has. *)
Definition effective_baseline (f : Frame) (r : Row) : option Timestamp :=
  if has_column (columns f) TEST_DATE_COL && has_column (columns f) VISIT_DATE_COL
  then fillna (visit_date r) (test_date r)
  else if has_column (columns f) TEST_DATE_COL then test_date r
  else if has_column (columns f) VISIT_DATE_COL then visit_date r
  else None.

(** [final_baselines]: participants with an anchor, as (identifier, date). *)
Definition final_baselines (f : Frame) : Outcome (list (string * Timestamp)) :=
  if has_column (columns f) TEST_DATE_COL || has_column (columns f) VISIT_DATE_COL
  then Completed
         (omap (fun r => pair (record_id r) <$> effective_baseline f r)
               (baseline_event_rows f))
  else Aborted BaselineDateColumnsNotFound.

(** ** Status and endpoint dates (lines 290-325) *)

Record Participant := mkParticipant {
  pid : string;
  status : option Z;
  endpoint1_dt : option Timestamp;
  endpoint2_dt : option Timestamp;
  base_dt : Timestamp
}.

Definition pinfo_raw (f : Frame) : list Row :=
  drop_duplicates record_id (filter is_baseline_row (rows f)).

(** An endpoint date read with [.get(col, pd.NaT)]. *)
Definition get_endpoint (f : Frame) (col : string)
    (cell : option Timestamp) : option Timestamp :=
  if has_column (columns f) col then cell else None.

(** [pd.merge(pinfo_raw, final_baselines, on=record_id, how="inner")] *)
Definition merge_baselines (f : Frame) (pinfo : list Row)
    (baselines : list (string * Timestamp)) : list Participant :=
  p ← pinfo;
  b ← filter (fun b => b.1 = record_id p) baselines;
  [ {| pid := record_id p;
       status := participant_status p;
       endpoint1_dt := get_endpoint f ENDPOINT_DATE_1_COL (primary_endpoint_date p);
       endpoint2_dt := get_endpoint f ENDPOINT_DATE_2_COL (secondary_endpoint_date p);
       base_dt := b.2 |} ].

Definition valid_statuses_for_calc : list Z := [1; 2; 3; 4].

(** [Series.isin] on a nullable integer. *)
Definition isin (cell : option Z) (values : list Z) : bool :=
  match cell with
  | Some z => bool_decide (z ∈ values)
  | None => false
  end.

Definition participants_for_recalc (f : Frame)
    (baselines : list (string * Timestamp)) : list Participant :=
  filter (fun p => isin (status p) valid_statuses_for_calc)
         (merge_baselines f (pinfo_raw f) baselines).

(** ** Lookup of performed tests (lines 328-345) *)

Definition is_performed_test (r : Row) : Prop :=
  event_name r ∈ ALL_TEST_EVENT_NAMES /\ is_Some (test_date r) /\ record_id r <> "".

#[global] Instance is_performed_test_dec r : Decision (is_performed_test r).
Proof. unfold is_performed_test. apply _. Defined.

Definition by_participant_event_date (a b : Row) : bool :=
  not_after
    (then_by (compare_text (record_id a) (record_id b))
       (then_by (compare_text (event_name a) (event_name b))
          (compare_date (test_date a) (test_date b)))).

Definition performed_key (r : Row) : string * string :=
  (record_id r, event_name r).

Definition performed_tests_df (f : Frame) : Outcome (list Row) :=
  if has_column (columns f) TEST_DATE_COL
  then Completed
         (drop_duplicates performed_key
            (sort_values by_participant_event_date
               (filter is_performed_test (rows f))))
  else Aborted (KeyError TEST_DATE_COL).

(** The dictionary comprehension. *)
Definition performed_dict (tests : list Row) : gmap (string * string) (option Timestamp) :=
  foldl (fun d r => <[performed_key r := test_date r]> d) ∅ tests.

(** [performed_dict.get(key)]: nothing for an unknown key. *)
Definition dict_get (d : gmap (string * string) (option Timestamp))
    (key : string * string) : option Timestamp :=
  match d !! key with
  | Some cell => cell
  | None => None
  end.

(** ** Missed and outside-window counts (lines 353-485) *)

Definition max_month_offset (schedule : list (Z * string)) : Z :=
  match schedule with
  | [] => 0
  | (offset, _) :: rest => foldl Z.max offset (fst <$> rest)
  end.

Definition notna {A} (cell : option A) : bool := bool_decide (is_Some cell).
Definition isna {A} (cell : option A) : bool := negb (notna cell).

(** [a <= b] on Timestamps. *)
Definition Timestamp_le (a b : Timestamp) : bool := value a <=? value b.

(** End date for expected tests, by participant status. *)
Definition participant_end_point_date (schedule : list (Z * string))
    (status : Z) (base_dt : Timestamp)
    (endpoint1_dt endpoint2_dt : option Timestamp) : option Timestamp :=
  if status =? 1 then Some (add_months base_dt (max_month_offset schedule))
  else if (status =? 2) && notna endpoint1_dt then endpoint1_dt
  else if bool_decide (status ∈ [3; 4]) && notna endpoint2_dt then endpoint2_dt
  else None.

(** The two running counters of one participant. *)
Record Tally := mkTally {
  recalc_missed : Z;
  recalc_outside_window : Z
}.

(** [not (lower_bound <= performed <= upper_bound)], the bounds being the
    scheduled date shifted by [timedelta(days=GRACE_DAYS)]. *)
Definition outside_grace_window (scheduled performed : Timestamp) : bool :=
  let lower_bound := value scheduled - timedelta_days GRACE_DAYS in
  let upper_bound := value scheduled + timedelta_days GRACE_DAYS in
  negb ((lower_bound <=? value performed) && (value performed <=? upper_bound)).

(** The body run for an expected test, the same for the baseline (lines
    417-437) and for a follow-up (lines 461-476): no performed date counts
    as missed, a performed date outside the window as outside-window. *)
Definition check_performed (scheduled : Timestamp)
    (performed_date : option Timestamp) (t : Tally) : Tally :=
  match performed_date with
  | None => {| recalc_missed := recalc_missed t + 1;
               recalc_outside_window := recalc_outside_window t |}
  | Some performed =>
      if outside_grace_window scheduled performed
      then {| recalc_missed := recalc_missed t;
              recalc_outside_window := recalc_outside_window t + 1 |}
      else t
  end.

Definition baseline_is_expected (status : Z) (base_dt : Timestamp)
    (end_point : option Timestamp) : bool :=
  if status =? 1 then true
  else match end_point with
       | Some e => Timestamp_le base_dt e
       | None => false
       end.

Definition check_baseline (performed : gmap (string * string) (option Timestamp))
    (pid : string) (status : Z) (base_dt : Timestamp)
    (end_point : option Timestamp) (t : Tally) : Tally :=
  if baseline_is_expected status base_dt end_point
  then check_performed base_dt (dict_get performed (pid, BASELINE_EVENT_NAME)) t
  else t.

Definition is_expected (status : Z) (scheduled_date : Timestamp)
    (end_point : option Timestamp) : bool :=
  match end_point with
  | Some e => Timestamp_le scheduled_date e
  | None => status =? 1
  end.

(** One turn of the loop over the schedule. *)
Definition check_followup (performed : gmap (string * string) (option Timestamp))
    (pid : string) (status : Z) (base_dt : Timestamp)
    (end_point : option Timestamp) (t : Tally) (entry : Z * string) : Tally :=
  let scheduled_date := add_months base_dt entry.1 in
  if is_expected status scheduled_date end_point
  then check_performed scheduled_date (dict_get performed (pid, entry.2)) t
  else t.

(** What is stored under a participant in [calculated_counts]. *)
Record Counts := mkCounts {
  missed_count : Z;
  outside_window_count : Z;
  total_deviations : Z
}.

#[global] Instance Counts_eq_dec : EqDecision Counts.
Proof. solve_decision. Defined.

(** The loop body for one participant: [None] where the script says
    [continue].  The anchor of a merged participant is never missing, so
    the test for a missing anchor under status 1 has no counterpart. *)
Definition recalc (schedule : list (Z * string))
    (performed : gmap (string * string) (option Timestamp))
    (p : Participant) : option Counts :=
  match status p with
  | None => None
  | Some st =>
      let end_point :=
        participant_end_point_date schedule st (base_dt p)
          (endpoint1_dt p) (endpoint2_dt p) in
      if bool_decide (st ∈ [2; 3; 4]) && isna end_point then None
      else
        let t0 := {| recalc_missed := 0; recalc_outside_window := 0 |} in
        let t1 := check_baseline performed (pid p) st (base_dt p) end_point t0 in
        let t2 := foldl (check_followup performed (pid p) st (base_dt p) end_point)
                        t1 schedule in
        Some {| missed_count := recalc_missed t2;
                outside_window_count := recalc_outside_window t2;
                total_deviations := recalc_missed t2 + recalc_outside_window t2 |}
  end.

Definition store_counts (schedule : list (Z * string))
    (performed : gmap (string * string) (option Timestamp))
    (acc : gmap string Counts) (p : Participant) : gmap string Counts :=
  match recalc schedule performed p with
  | Some c => <[pid p := c]> acc
  | None => acc
  end.

Definition calculated_counts
    (performed : gmap (string * string) (option Timestamp))
    (participants : list Participant) : gmap string Counts :=
  foldl (store_counts EXPECTED_FOLLOWUP_SCHEDULE performed) ∅ participants.

(** ** Writing the counts (lines 487-526) *)

Definition set_counts (r : Row) (missed outside total : option Z) : Row :=
  {| record_id := record_id r;
     event_name := event_name r;
     test_date := test_date r;
     visit_date := visit_date r;
     participant_status := participant_status r;
     primary_endpoint_date := primary_endpoint_date r;
     secondary_endpoint_date := secondary_endpoint_date r;
     missed_test_count := missed;
     outside_window_test_count := outside;
     total_test_deviations := total |}.

(** The mask [(record_id == participant_id) & (event == BASELINE_EVENT_NAME)]. *)
Definition is_target_row (participant_id : string) (r : Row) : Prop :=
  record_id r = participant_id /\ event_name r = BASELINE_EVENT_NAME.

#[global] Instance is_target_row_dec participant_id r :
  Decision (is_target_row participant_id r).
Proof. unfold is_target_row. apply _. Defined.

(** The three assignments [df.loc[idx, col] = counts[col]]. *)
Definition assign_counts (c : Counts) (r : Row) : Row :=
  set_counts r (Some (missed_count c)) (Some (outside_window_count c))
    (Some (total_deviations c)).

(** One turn of the loop over [calculated_counts.items()]: the first
    matching index receives the three values. *)
Definition write_counts (rs : list Row) (item : string * Counts) : list Row :=
  match list_find (is_target_row item.1) rs with
  | Some (idx, r) => <[idx := assign_counts item.2 r]> rs
  | None => rs
  end.

Definition update_rows (rs : list Row) (counts : gmap string Counts) : list Row :=
  foldl write_counts rs (map_to_list counts).

(** ** Blanking excluded participants (lines 529-576) *)

Definition excluded_status_code : Z := 5.

Definition is_excluded_baseline (r : Row) : Prop :=
  is_baseline_row r /\ default (-1) (participant_status r) = excluded_status_code.

#[global] Instance is_excluded_baseline_dec r : Decision (is_excluded_baseline r).
Proof. unfold is_excluded_baseline. apply _. Defined.

Definition excluded_pids (rs : list Row) : list string :=
  remove_dups (record_id <$> filter is_excluded_baseline rs).

(** The three cells set to [pd.NA]. *)
Definition blank_counts (r : Row) : Row := set_counts r None None None.

Definition blank_excluded (rs : list Row) : list Row :=
  let excluded := excluded_pids rs in
  match excluded with
  | [] => rs
  | _ => (fun r => if bool_decide (record_id r ∈ excluded)
                   then blank_counts r else r) <$> rs
  end.

(** ** The whole run *)

(** The per-participant records of a converted frame. *)
Definition deviation_records (f : Frame) : Outcome (gmap string Counts) :=
  baselines ← final_baselines f;
  tests ← performed_tests_df f;
  Completed (calculated_counts (performed_dict tests)
               (participants_for_recalc f baselines)).

Definition run_frame (f : Frame) : Outcome Frame :=
  counts ← deviation_records f;
  Completed {| columns := columns f;
               rows := blank_excluded (update_rows (rows f) counts) |}.

Definition run (df : RawFrame) : Outcome Frame :=
  f ← prepare df;
  run_frame f.

(** The records computed by a run on the loaded table. *)
Definition run_records (df : RawFrame) : Outcome (gmap string Counts) :=
  f ← prepare df;
  deviation_records f.


(** The counters after one more outside-window test. *)
Definition one_more_outside (t : Tally) : Tally :=
  {| recalc_missed := recalc_missed t;
     recalc_outside_window := recalc_outside_window t + 1 |}.

(** The counters after one more missed test. *)
Definition one_more_missed (t : Tally) : Tally :=
  {| recalc_missed := recalc_missed t + 1;
     recalc_outside_window := recalc_outside_window t |}.

(** The invariant of the walk: both counters are non-negative and their
    sum is at most the number of tests looked at so far. *)
Definition tally_within (n : Z) (t : Tally) : Prop :=
  0 <= recalc_missed t /\ 0 <= recalc_outside_window t /\
  recalc_missed t + recalc_outside_window t <= n.


(** ** Notions used to state the properties *)

(** What a three-way comparison must satisfy for [sort_values] to order
    by it. *)
Class LawfulCompare {A} (cmp : A -> A -> comparison) := {
  cmp_antisym : forall a b, cmp a b = CompOpp (cmp b a);
  cmp_eq_l : forall a b c, cmp a b = Eq -> cmp a c = cmp b c;
  cmp_lt_trans : forall a b c, cmp a b = Lt -> cmp b c = Lt -> cmp a c = Lt
}.

(** The element a stable ascending sort puts first: the smallest one, and
    among equally small ones the one met first. *)
Definition earliest {A} (le : A -> A -> bool) (l : list A) : option A :=
  foldr (fun x best =>
           match best with
           | Some y => if le x y then Some x else Some y
           | None => Some x
           end) None l.

(** The rows of a group, in table order. *)
Definition group {A K} `{EqDecision K} (subset : A -> K) (k : K)
    (l : list A) : list A :=
  filter (fun x => subset x = k) l.

(** ** Sample tables *)

Definition ALL_COLUMNS : list string :=
  [PARTICIPANT_ID_COL; EVENT_NAME_COL; VISIT_DATE_COL; TEST_DATE_COL; STATUS_COL;
   ENDPOINT_DATE_1_COL; ENDPOINT_DATE_2_COL].

(** A converted row with a test date and a status and nothing else. *)
Definition sample_row (id event : string) (tested : option Timestamp)
    (st : option Z) : Row :=
  mkRow id event tested None st None None None None None.

(** One participant with two rows for the first follow-up carrying the same
    date, a later third one, and a visit outside the schedule. *)
Definition sample_visits : Frame :=
  mkFrame ALL_COLUMNS
    [ sample_row "P1" "study_baseline" (Some (date 2022 1 1)) (Some 1);
      sample_row "P1" "followup_visit_1" (Some (date 2022 3 20)) (Some 1);
      sample_row "P1" "followup_visit_1" (Some (date 2022 3 2)) (Some 1);
      sample_row "P1" "followup_visit_1" (Some (date 2022 3 2)) None;
      sample_row "P1" "unscheduled_visit" (Some (date 2022 5 5)) (Some 1) ].

(** The columns of a row other than the three output columns. *)
Definition data_of (r : Row) :=
  (record_id r, event_name r, test_date r, visit_date r,
   participant_status r, primary_endpoint_date r, secondary_endpoint_date r).

(** The three output cells of a row. *)
Definition counts_of (r : Row) : option Z * option Z * option Z :=
  (missed_test_count r, outside_window_test_count r, total_test_deviations r).

Definition no_counts : option Z * option Z * option Z := (None, None, None).

(** Index of the row the counts of a participant are written to. *)
Definition target_index (rs : list Row) (participant_id : string) : option nat :=
  fst <$> list_find (is_target_row participant_id) rs.

(** A row of the final table, from the row at the same index of the
    converted table. *)
Definition final_row (rs : list Row) (counts : gmap string Counts)
    (i : nat) (r : Row) : Row :=
  if decide (record_id r ∈ excluded_pids rs) then blank_counts r
  else if decide (target_index rs (record_id r) = Some i) then
    match counts !! record_id r with
    | Some c => assign_counts c r
    | None => r
    end
  else r.

(** A loaded row with an identifier, an event, a test date, a status and a
    primary endpoint date; the output columns hold some earlier values. *)
Definition raw_sample_row (id event : string) (tested : RawDateCell)
    (st : RawStatusCell) (endpoint1 : RawDateCell) : RawRow :=
  mkRawRow (Some id) (Some event) tested DateBlank st endpoint1 DateBlank
    (CellNumber 7) (CellText "x") CellBlank.

Definition raw_blank_row : RawRow :=
  mkRawRow None None DateBlank DateBlank StatusBlank DateBlank DateBlank
    CellBlank CellBlank CellBlank.

(** P1 follows the full schedule and has one follow-up on time; P2 stopped
    at a primary endpoint; P5 is excluded; P6 has two baseline rows, the
    second one with the excluded status; the fourth row is a separator. *)
Definition sample_table : RawFrame :=
  mkRawFrame ALL_COLUMNS
    [ raw_sample_row " P1 " "study_baseline" (DateCell (date 2022 1 1))
        (StatusInteger 1) DateBlank;
      raw_sample_row "P1" "followup_visit_1" (DateCell (date 2022 3 20))
        (StatusJunk "active") (DateJunk "n/a");
      raw_sample_row "P1" "followup_visit_1" (DateCell (date 2022 3 2))
        (StatusInteger 1) DateBlank;
      raw_blank_row;
      raw_sample_row "P2" "study_baseline" (DateCell (date 2022 1 1))
        (StatusInteger 2) (DateCell (date 2022 2 15));
      raw_sample_row "P5" "study_baseline" (DateCell (date 2022 1 1))
        (StatusInteger 5) DateBlank;
      raw_sample_row "P6" "study_baseline" (DateCell (date 2022 1 1))
        (StatusInteger 1) DateBlank;
      raw_sample_row "P6" "study_baseline" (DateCell (date 2022 1 1))
        (StatusInteger 5) DateBlank ].

(** The same table without the visit-date column. *)
Definition sample_table_no_visit_date : RawFrame :=
  mkRawFrame
    [PARTICIPANT_ID_COL; EVENT_NAME_COL; TEST_DATE_COL; STATUS_COL;
     ENDPOINT_DATE_1_COL; ENDPOINT_DATE_2_COL]
    (raw_rows sample_table).

(** The frame a completed run returns, if it completes. *)
Definition completed {A} (o : Outcome A) : option A :=
  match o with
  | Completed a => Some a
  | Aborted _ => None
  end.

(** The columns the script reads. *)
Definition INPUT_COLUMNS : list string :=
  [PARTICIPANT_ID_COL; STATUS_COL; EVENT_NAME_COL; TEST_DATE_COL; VISIT_DATE_COL;
   ENDPOINT_DATE_1_COL; ENDPOINT_DATE_2_COL].

(** No status cell is a number with a fractional part or outside 64 bits. *)
Definition statuses_castable (df : RawFrame) : bool :=
  forallb castable (to_numeric ∘ raw_participant_status <$> raw_rows df).

(** The converted sample table, computed once. *)
Definition sample_converted : Frame :=
  Eval vm_compute in default (mkFrame [] []) (completed (prepare sample_table)).

(** The final table of the sample, computed once. *)
Definition sample_output : Frame :=
  Eval vm_compute in default (mkFrame [] []) (completed (run sample_table)).

(** The cells of a loaded row other than the three output columns. *)
Definition raw_data_of (r : RawRow) :=
  (raw_record_id r, raw_event_name r, raw_test_date r, raw_visit_date r,
   raw_participant_status r, raw_primary_endpoint_date r,
   raw_secondary_endpoint_date r).

(** Two loaded tables with the same input columns and the same rows, up to
    what the output columns hold and whether they exist. *)
Definition same_input (df df' : RawFrame) : Prop :=
  (forall col, col ∈ INPUT_COLUMNS ->
     has_column (raw_columns df) col = has_column (raw_columns df') col) /\
  Forall2 (fun r r' => raw_data_of r = raw_data_of r') (raw_rows df) (raw_rows df').

(** The table a run leaves, taken as the table the next run loads: every
    cell reads back as the value it holds. *)
Definition reload_date (cell : option Timestamp) : RawDateCell :=
  match cell with
  | Some t => DateCell t
  | None => DateBlank
  end.

Definition reload_status (cell : option Z) : RawStatusCell :=
  match cell with
  | Some z => StatusInteger z
  | None => StatusBlank
  end.

Definition reload_count (cell : option Z) : RawCell :=
  match cell with
  | Some z => CellNumber z
  | None => CellBlank
  end.

Definition reload_row (r : Row) : RawRow :=
  {| raw_record_id := Some (record_id r);
     raw_event_name := Some (event_name r);
     raw_test_date := reload_date (test_date r);
     raw_visit_date := reload_date (visit_date r);
     raw_participant_status := reload_status (participant_status r);
     raw_primary_endpoint_date := reload_date (primary_endpoint_date r);
     raw_secondary_endpoint_date := reload_date (secondary_endpoint_date r);
     raw_missed_test_count := reload_count (missed_test_count r);
     raw_outside_window_test_count := reload_count (outside_window_test_count r);
     raw_total_test_deviations := reload_count (total_test_deviations r) |}.

Definition reload (out : Frame) : RawFrame :=
  {| raw_columns := columns out; raw_rows := reload_row <$> rows out |}.

(** The sample table with other values in the output columns. *)
Definition sample_table_other_counts : RawFrame :=
  mkRawFrame (MISSED_TEST_COUNT_COL :: ALL_COLUMNS)
    ((fun r => mkRawRow (raw_record_id r) (raw_event_name r) (raw_test_date r)
                 (raw_visit_date r) (raw_participant_status r)
                 (raw_primary_endpoint_date r) (raw_secondary_endpoint_date r)
                 (CellNumber 99) CellBlank (CellText "old"))
       <$> raw_rows sample_table).

(** Two runs end alike: both complete with the same rows, or both abort
    for the same reason. *)
Definition same_rows (o o' : Outcome Frame) : Prop :=
  match o, o' with
  | Completed a, Completed b => rows a = rows b
  | Aborted why, Aborted why' => why = why'
  | _, _ => False
  end.

(** ** Notions for the further properties *)

(** The tests a participant is checked for, each with its scheduled date:
    the baseline when it is expected, then the schedule entries that are
    expected, in schedule order. *)
Definition expected_events (schedule : list (Z * string)) (st : Z)
    (base : Timestamp) (end_point : option Timestamp) : list (Timestamp * string) :=
  (if baseline_is_expected st base end_point
   then [(base, BASELINE_EVENT_NAME)] else []) ++
  filter (fun se => is_expected st se.1 end_point = true)
         ((fun entry => (add_months base entry.1, entry.2)) <$> schedule).

(** No performed date for the event. *)
Definition event_missed (performed : gmap (string * string) (option Timestamp))
    (pid : string) (se : Timestamp * string) : bool :=
  isna (dict_get performed (pid, se.2)).

(** A performed date outside the grace window of the scheduled date. *)
Definition event_outside (performed : gmap (string * string) (option Timestamp))
    (pid : string) (se : Timestamp * string) : bool :=
  match dict_get performed (pid, se.2) with
  | Some d => outside_grace_window se.1 d
  | None => false
  end.

(** How many elements satisfy a test. *)
Definition count_where {A} (test : A -> bool) (l : list A) : Z :=
  Z.of_nat (length (filter (fun x => test x = true) l)).

(** Months counted from year 0, and the ordinal of the first day of the
    month with a given count. *)
Definition month_index (t : Timestamp) : Z := 12 * year t + (month t - 1).

Definition month_start (i : Z) : Z := Calendar.ymd2ord (i / 12) (i mod 12 + 1) 1.

(** The count of participants whose anchor is the visit date (lines
    275-287): baseline rows without a test date but with a visit date, when
    both columns exist. *)
Definition used_proxy_count (f : Frame) : nat :=
  if has_column (columns f) TEST_DATE_COL && has_column (columns f) VISIT_DATE_COL
  then length (filter (fun r => test_date r = None /\ is_Some (visit_date r))
                      (baseline_event_rows f))
  else 0%nat.

(** The sample visits among the rows of a second participant. *)
Definition sample_visits_more : Frame :=
  mkFrame ALL_COLUMNS
    (sample_row "P2" "study_baseline" (Some (date 2021 6 1)) (Some 1) ::
     rows sample_visits ++
     [ sample_row "P2" "followup_visit_1" (Some (date 2021 8 1)) (Some 1) ]).

(** One turn of the loop over [calculated_counts.items()] together with
    its counter: a participant is counted when a target row was found. *)
Definition write_counts_counted (state : list Row * nat)
    (item : string * Counts) : list Row * nat :=
  match list_find (is_target_row item.1) state.1 with
  | Some (idx, r) => (<[idx := assign_counts item.2 r]> state.1, S state.2)
  | None => state
  end.

(** The loop over the items in the order the dictionary yields them. *)
Definition write_loop (rs : list Row) (items : list (string * Counts)) :
    list Row * nat :=
  foldl write_counts_counted (rs, 0%nat) items.

Definition updated_participants_count (rs : list Row)
    (items : list (string * Counts)) : nat :=
  (write_loop rs items).2.

(** A participant under status 1 and the dates of two performed tests. *)
Definition sample_participant : Participant :=
  mkParticipant "P1" (Some 1) None None (date 2022 1 1).

Definition sample_performed : gmap (string * string) (option Timestamp) :=
  {[ ("P1", "study_baseline") := Some (date 2022 1 1);
     ("P1", "fu1") := Some (date 2022 3 20) ]}.

(** ** The range of a Timestamp

    pandas keeps a Timestamp as a signed 64-bit number of nanoseconds since
    the epoch and refuses to build one outside [Timestamp.min] ..
    [Timestamp.max] (1677-09-21 .. 2262-04-11).  The definitions above
    describe the run on tables whose dates stay inside that range; the
    module below adds the places where a date is built and the run stops, or
    goes on, when it would fall outside. *)

Definition TIMESTAMP_MIN_VALUE : Z := - (2 ^ 63 - 1).
Definition TIMESTAMP_MAX_VALUE : Z := 2 ^ 63 - 1.

(** [Timestamp.max], 2262-04-11 23:47:16.854775807. *)
Definition Timestamp_max : Timestamp :=
  mkTimestamp 2262 4 11 ((23 * 3600 + 47 * 60 + 16) * 1000000000 + 854775807).

(** [Timestamp.min], 1677-09-21 00:12:43.145224193. *)
Definition Timestamp_min : Timestamp :=
  mkTimestamp 1677 9 21 ((12 * 60 + 43) * 1000000000 + 145224193).

Definition in_bounds (v : Z) : bool :=
  (TIMESTAMP_MIN_VALUE <=? v) && (v <=? TIMESTAMP_MAX_VALUE).

(** [dt + relativedelta(months=n)] on a Timestamp: dateutil computes the new
    year, month and day, and pandas builds the Timestamp or raises. *)
Definition Timestamp_add_months (dt : Timestamp) (n : Z) : Outcome Timestamp :=
  let shifted := add_months dt n in
  if in_bounds (value shifted) then Completed shifted
  else Aborted OutOfBoundsDatetime.

(** [scheduled - timedelta(days=GRACE_DAYS)] and
    [scheduled + timedelta(days=GRACE_DAYS)], each a Timestamp of its own. *)
Definition grace_window (scheduled : Timestamp) : Outcome (Z * Z) :=
  let lower_bound := value scheduled - timedelta_days GRACE_DAYS in
  let upper_bound := value scheduled + timedelta_days GRACE_DAYS in
  if in_bounds lower_bound && in_bounds upper_bound
  then Completed (lower_bound, upper_bound)
  else Aborted OutOfBoundsDatetime.

(** A loop whose body may stop the run. *)
Fixpoint foldl_outcome {A B} (body : A -> B -> Outcome A) (a : A) (l : list B) :
    Outcome A :=
  match l with
  | [] => Completed a
  | x :: rest => a' ← body a x; foldl_outcome body a' rest
  end.

Module Checked.

(** Lines 380-396; the addition of line 388 is not guarded. *)
Definition participant_end_point_date (schedule : list (Z * string))
    (status : Z) (base_dt : Timestamp)
    (endpoint1_dt endpoint2_dt : option Timestamp) : Outcome (option Timestamp) :=
  if status =? 1 then
    end_point ← Timestamp_add_months base_dt (max_month_offset schedule);
    Completed (Some end_point)
  else if (status =? 2) && notna endpoint1_dt then Completed endpoint1_dt
  else if bool_decide (status ∈ [3; 4]) && notna endpoint2_dt then Completed endpoint2_dt
  else Completed None.

(** Lines 417-437 and 461-476: the two bounds are built once a performed
    date is there. *)
Definition check_performed (scheduled : Timestamp)
    (performed_date : option Timestamp) (t : Tally) : Outcome Tally :=
  match performed_date with
  | None => Completed (one_more_missed t)
  | Some performed =>
      bounds ← grace_window scheduled;
      Completed (if negb ((bounds.1 <=? value performed) &&
                          (value performed <=? bounds.2))
                 then one_more_outside t
                 else t)
  end.

Definition check_baseline (performed : gmap (string * string) (option Timestamp))
    (pid : string) (status : Z) (base_dt : Timestamp)
    (end_point : option Timestamp) (t : Tally) : Outcome Tally :=
  if baseline_is_expected status base_dt end_point
  then check_performed base_dt (dict_get performed (pid, BASELINE_EVENT_NAME)) t
  else Completed t.

(** One turn of the loop over the schedule: an addition that raises is
    caught, and the entry skipped (lines 441-448). *)
Definition check_followup (performed : gmap (string * string) (option Timestamp))
    (pid : string) (status : Z) (base_dt : Timestamp)
    (end_point : option Timestamp) (t : Tally) (entry : Z * string) : Outcome Tally :=
  match Timestamp_add_months base_dt entry.1 with
  | Aborted _ => Completed t
  | Completed scheduled_date =>
      if is_expected status scheduled_date end_point
      then check_performed scheduled_date (dict_get performed (pid, entry.2)) t
      else Completed t
  end.

(** The loop body for one participant (lines 361-483). *)
Definition recalc (schedule : list (Z * string))
    (performed : gmap (string * string) (option Timestamp))
    (p : Participant) : Outcome (option Counts) :=
  match status p with
  | None => Completed None
  | Some st =>
      end_point ← participant_end_point_date schedule st (base_dt p)
                    (endpoint1_dt p) (endpoint2_dt p);
      if bool_decide (st ∈ [2; 3; 4]) && isna end_point then Completed None
      else
        let t0 := {| recalc_missed := 0; recalc_outside_window := 0 |} in
        t1 ← check_baseline performed (pid p) st (base_dt p) end_point t0;
        t2 ← foldl_outcome (check_followup performed (pid p) st (base_dt p) end_point)
               t1 schedule;
        Completed (Some {| missed_count := recalc_missed t2;
                           outside_window_count := recalc_outside_window t2;
                           total_deviations :=
                             recalc_missed t2 + recalc_outside_window t2 |})
  end.

Definition store_counts (schedule : list (Z * string))
    (performed : gmap (string * string) (option Timestamp))
    (acc : gmap string Counts) (p : Participant) : Outcome (gmap string Counts) :=
  counts ← recalc schedule performed p;
  Completed (match counts with
             | Some c => <[pid p := c]> acc
             | None => acc
             end).

Definition calculated_counts
    (performed : gmap (string * string) (option Timestamp))
    (participants : list Participant) : Outcome (gmap string Counts) :=
  foldl_outcome (store_counts EXPECTED_FOLLOWUP_SCHEDULE performed) ∅ participants.

Definition deviation_records (f : Frame) : Outcome (gmap string Counts) :=
  baselines ← final_baselines f;
  tests ← performed_tests_df f;
  calculated_counts (performed_dict tests) (participants_for_recalc f baselines).

Definition run_frame (f : Frame) : Outcome Frame :=
  counts ← deviation_records f;
  Completed {| columns := columns f;
               rows := blank_excluded (update_rows (rows f) counts) |}.

Definition run (df : RawFrame) : Outcome Frame :=
  f ← prepare df;
  run_frame f.

Definition run_records (df : RawFrame) : Outcome (gmap string Counts) :=
  f ← prepare df;
  deviation_records f.

End Checked.

(** An anchor far enough from both ends of the range: the window around it
    and the window around the last scheduled date can be built. *)
Definition anchor_in_range (schedule : list (Z * string)) (base_dt : Timestamp) : Prop :=
  valid_date base_dt /\
  in_bounds (value base_dt - timedelta_days GRACE_DAYS) = true /\
  in_bounds (value (add_months base_dt (max_month_offset schedule))
             + timedelta_days GRACE_DAYS) = true.

(** The dates an anchor can be read from are in range, in every loaded row. *)
Definition dates_in_range (df : RawFrame) : Prop :=
  forall raw t, raw ∈ raw_rows df ->
    raw_test_date raw = DateCell t \/ raw_visit_date raw = DateCell t ->
    anchor_in_range EXPECTED_FOLLOWUP_SCHEDULE t.
Example add_months_jan31 : add_months (date 2023 1 31) 1 = date 2023 2 28.
Proof. reflexivity. Qed.

Example add_months_18 : add_months (date 2022 11 30) 18 = date 2024 5 30.
Proof. reflexivity. Qed.

Example value_epoch : value (date 1970 1 1) = 0.
Proof. reflexivity. Qed.

Example value_2022 : value (date 2022 3 20) - value (date 2022 3 1) = timedelta_days 19.
Proof. reflexivity. Qed.

(** The scenarios of a one-entry schedule: a follow-up 19 days late, a
    follow-up scheduled after the primary endpoint, a status 3 participant
    without a secondary endpoint date. *)
Example scenario_late_followup :
  recalc [(2, "fu1")]
    {[ ("P1", BASELINE_EVENT_NAME) := Some (date 2022 1 1);
       ("P1", "fu1") := Some (date 2022 3 20) ]}
    (mkParticipant "P1" (Some 1) None None (date 2022 1 1))
  = Some (mkCounts 0 1 1).
Proof. reflexivity. Qed.

Example scenario_after_endpoint :
  recalc [(2, "fu1")]
    {[ ("P2", BASELINE_EVENT_NAME) := Some (date 2022 1 1) ]}
    (mkParticipant "P2" (Some 2) (Some (date 2022 2 15)) None (date 2022 1 1))
  = Some (mkCounts 0 0 0).
Proof. reflexivity. Qed.

Example scenario_no_endpoint :
  recalc [(2, "fu1")] ∅
    (mkParticipant "P3" (Some 3) None None (date 2022 1 1))
  = None.
Proof. reflexivity. Qed.

(** ** Month arithmetic *)

Lemma monthrange_lower (y m : Z) : 1 <= m <= 12 -> 28 <= Calendar.monthrange y m.
Proof.
  intros Hm. unfold Calendar.monthrange.
  assert (Hc : m = 1 \/ m = 2 \/ m = 3 \/ m = 4 \/ m = 5 \/ m = 6 \/ m = 7 \/
               m = 8 \/ m = 9 \/ m = 10 \/ m = 11 \/ m = 12) by lia.
  repeat (destruct Hc as [-> | Hc]); try subst m; simpl;
    try destruct (Calendar.isleap y); lia.
Qed.

Lemma of_months_normal (n : Z) :
  0 <= n ->
  let rd := Relativedelta.of_months n in
  12 * Relativedelta.years rd + Relativedelta.months rd = n /\
  0 <= Relativedelta.months rd <= 11.
Proof.
  intros Hn. unfold Relativedelta.of_months.
  destruct (11 <? Z.abs n) eqn:E; simpl.
  - apply Z.ltb_lt in E.
    assert (Hs : Z.sgn n = 1) by (apply Z.sgn_pos; lia).
    rewrite Hs, !Z.mul_1_r.
    pose proof (Z.div_mod n 12 ltac:(lia)).
    pose proof (Z.mod_pos_bound n 12 ltac:(lia)). lia.
  - apply Z.ltb_ge in E. lia.
Qed.

Example value_Timestamp_max : value Timestamp_max = TIMESTAMP_MAX_VALUE.
Proof. reflexivity. Qed.

Example value_Timestamp_min : value Timestamp_min = TIMESTAMP_MIN_VALUE.
Proof. reflexivity. Qed.

(** C9, amended.  [base_dt + relativedelta(months=N)] moves the month index
    forward by exactly [N], leaves the time of day alone and keeps the day
    of the month, cut down to the last day of the month reached when that
    month is shorter; this is again a valid date, and it is what the
    addition returns whenever it lies within the Timestamp range; when it
    lies beyond, the addition raises.  In particular 2023-01-31 plus one
    month is 2023-02-28 (no error, and not 2023-03-03) and 2024-01-31 plus
    one month is 2024-02-29. *)
Theorem add_months_clamps_day (b : Timestamp) (N : Z) :
  valid_date b -> 0 <= N ->
  let r := add_months b N in
  12 * year r + (month r - 1) = 12 * year b + (month b - 1) + N /\
  1 <= month r <= 12 /\
  (day b <= Calendar.monthrange (year r) (month r) -> day r = day b) /\
  (Calendar.monthrange (year r) (month r) < day b ->
     day r = Calendar.monthrange (year r) (month r)) /\
  nanos_of_day r = nanos_of_day b /\
  valid_date r /\
  (in_bounds (value r) = true -> Timestamp_add_months b N = Completed r) /\
  (in_bounds (value r) = false ->
     Timestamp_add_months b N = Aborted OutOfBoundsDatetime) /\
  Timestamp_add_months (date 2023 1 31) 1 = Completed (date 2023 2 28) /\
  Timestamp_add_months (date 2024 1 31) 1 = Completed (date 2024 2 29) /\
  Timestamp_add_months (date 2023 1 31) 1 <> Completed (date 2023 3 3).
Proof.
  intros [Hm Hd] HN r.
  destruct (of_months_normal N HN) as [Hsum Hrange].
  assert (Hfields :
    12 * year r + (month r - 1) = 12 * year b + (month b - 1) + N /\
    1 <= month r <= 12 /\
    day r = Z.min (Calendar.monthrange (year r) (month r)) (day b) /\
    nanos_of_day r = nanos_of_day b).
  { subst r. unfold add_months, Relativedelta.radd.
    set (rd := Relativedelta.of_months N) in *.
    destruct (Relativedelta.months rd =? 0) eqn:E0.
    { apply Z.eqb_eq in E0. simpl. lia. }
    apply Z.eqb_neq in E0.
    destruct (12 <? month b + Relativedelta.months rd) eqn:E1.
    { apply Z.ltb_lt in E1. simpl. lia. }
    apply Z.ltb_ge in E1.
    destruct (month b + Relativedelta.months rd <? 1) eqn:E2.
    { apply Z.ltb_lt in E2. lia. }
    simpl. lia. }
  destruct Hfields as (Hidx & Hmr & Hday & Htime).
  pose proof (monthrange_lower (year r) (month r) Hmr) as Hlow.
  assert (Hin : in_bounds (value r) = true -> Timestamp_add_months b N = Completed r).
  { intros Hr. unfold Timestamp_add_months. fold r. now rewrite Hr. }
  assert (Hout : in_bounds (value r) = false ->
                 Timestamp_add_months b N = Aborted OutOfBoundsDatetime).
  { intros Hr. unfold Timestamp_add_months. fold r. now rewrite Hr. }
  repeat split; try lia; try reflexivity; try discriminate; assumption.
Qed.

Lemma add_months_clamps_day_witness :
  Timestamp_add_months (date 2023 1 31) 13 = Completed (date 2024 2 29).
Proof.
  destruct (add_months_clamps_day (date 2023 1 31) 13)
    as (_ & _ & _ & _ & _ & _ & H & _).
  - repeat split; apply Z.leb_le; reflexivity.
  - lia.
  - apply H. reflexivity.
Defined.

(** C9 as stated fails: a status-1 anchor of 2261-06-01 is a date pandas
    holds, and eighteen months later is past [Timestamp.max]; the addition
    raises, and the count loop, which does not guard it, stops there. *)
Lemma month_addition_out_of_range_counterexample :
  valid_date (date 2261 6 1) /\
  in_bounds (value (date 2261 6 1)) = true /\
  0 <= 18 /\
  Timestamp_add_months (date 2261 6 1) 18 = Aborted OutOfBoundsDatetime /\
  Checked.recalc EXPECTED_FOLLOWUP_SCHEDULE ∅
    (mkParticipant "P1" (Some 1) None None (date 2261 6 1))
  = Aborted OutOfBoundsDatetime.
Proof.
  split; [repeat split; apply Z.leb_le; reflexivity |].
  split; [reflexivity |]. split; [lia |]. split; reflexivity.
Qed.

(** ** The grace window *)






(** ** The horizon *)

Lemma Timestamp_le_false (a b : Timestamp) :
  value b < value a -> Timestamp_le a b = false.
Proof. intros H. unfold Timestamp_le. apply Z.leb_gt. exact H. Qed.

Lemma check_followup_after_horizon performed pid st base hd t entry :
  value hd < value (add_months base entry.1) ->
  check_followup performed pid st base (Some hd) t entry = t.
Proof.
  intros Hlate. unfold check_followup, is_expected.
  now rewrite (Timestamp_le_false _ _ Hlate).
Qed.

(** C3. For a participant whose end date resolved to [hd], a schedule entry
    whose scheduled date [base_dt + offset months] lies strictly after [hd]
    leaves both counters as they are, whatever the dictionary of performed
    tests holds, and the walk over the schedule gives the same counters as
    the walk over the schedule without that entry. *)
Theorem horizon_cutoff schedule performed (p : Participant) st hd entry :
  status p = Some st ->
  participant_end_point_date schedule st (base_dt p)
    (endpoint1_dt p) (endpoint2_dt p) = Some hd ->
  value hd < value (add_months (base_dt p) entry.1) ->
  is_expected st (add_months (base_dt p) entry.1) (Some hd) = false /\
  (forall t, check_followup performed (pid p) st (base_dt p) (Some hd) t entry = t) /\
  (forall t before after,
     foldl (check_followup performed (pid p) st (base_dt p) (Some hd)) t
           (before ++ entry :: after)
     = foldl (check_followup performed (pid p) st (base_dt p) (Some hd)) t
             (before ++ after)).
Proof.
  intros _ _ Hlate. split; [| split].
  - unfold is_expected. now apply Timestamp_le_false.
  - intros t. now apply check_followup_after_horizon.
  - intros t before after. rewrite !foldl_app. simpl.
    now rewrite check_followup_after_horizon.
Qed.

Lemma horizon_cutoff_witness :
  check_followup ∅ "P2" 2 (date 2022 1 1) (Some (date 2022 2 15))
    (mkTally 0 0) (2, "fu1") = mkTally 0 0.
Proof.
  refine (proj1 (proj2
    (horizon_cutoff [(2, "fu1")] ∅
       (mkParticipant "P2" (Some 2) (Some (date 2022 2 15)) None (date 2022 1 1))
       2 (date 2022 2 15) (2, "fu1") eq_refl eq_refl _)) (mkTally 0 0)).
  apply Z.ltb_lt. reflexivity.
Defined.

(** ** Bounds on the counts *)

Lemma check_performed_cases s got t :
  check_performed s got t = t \/
  check_performed s got t = one_more_missed t \/
  check_performed s got t = one_more_outside t.
Proof.
  destruct got as [p |]; simpl.
  - destruct (outside_grace_window s p); [right; right | left]; reflexivity.
  - right; left; reflexivity.
Qed.

Lemma check_baseline_cases performed pid st base h t :
  let t' := check_baseline performed pid st base h t in
  t' = t \/ t' = one_more_missed t \/ t' = one_more_outside t.
Proof.
  unfold check_baseline. destruct (baseline_is_expected st base h).
  - apply check_performed_cases.
  - now left.
Qed.

Lemma check_followup_cases performed pid st base h t entry :
  let t' := check_followup performed pid st base h t entry in
  t' = t \/ t' = one_more_missed t \/ t' = one_more_outside t.
Proof.
  unfold check_followup. destruct (is_expected st _ h).
  - apply check_performed_cases.
  - now left.
Qed.

Lemma tally_within_step n t t' :
  tally_within n t ->
  t' = t \/ t' = one_more_missed t \/ t' = one_more_outside t ->
  tally_within (n + 1) t'.
Proof.
  unfold tally_within. intros (Hm & Ho & Hs) [-> | [-> | ->]]; simpl; lia.
Qed.

Lemma followups_within performed pid st base h schedule :
  forall n t, tally_within n t ->
  tally_within (n + Z.of_nat (length schedule))
    (foldl (check_followup performed pid st base h) t schedule).
Proof.
  induction schedule as [| entry rest IH]; intros n t Ht.
  - simpl. now rewrite Z.add_0_r.
  - simpl foldl. replace (n + Z.of_nat (length (entry :: rest)))
      with ((n + 1) + Z.of_nat (length rest)) by (simpl length; lia).
    apply IH. eapply tally_within_step; [exact Ht |].
    apply check_followup_cases.
Qed.

(** C10. Whenever counts are computed for a participant, the missed and the
    outside-window count are non-negative, their sum is at most one plus
    the number of schedule entries, and the total is their sum; the check
    of the baseline and the check of each schedule entry add one to at most
    one of the two counters and nothing to the other. *)
Theorem counts_bounded schedule performed (p : Participant) (c : Counts) :
  recalc schedule performed p = Some c ->
  0 <= missed_count c /\
  0 <= outside_window_count c /\
  missed_count c + outside_window_count c <= 1 + Z.of_nat (length schedule) /\
  total_deviations c = missed_count c + outside_window_count c /\
  (forall st h t,
     let t' := check_baseline performed (pid p) st (base_dt p) h t in
     t' = t \/ t' = one_more_missed t \/ t' = one_more_outside t) /\
  (forall st h t entry,
     let t' := check_followup performed (pid p) st (base_dt p) h t entry in
     t' = t \/ t' = one_more_missed t \/ t' = one_more_outside t).
Proof.
  unfold recalc. intros Hc.
  destruct (status p) as [st |]; [| discriminate].
  destruct (bool_decide (st ∈ [2; 3; 4]) && isna _); [discriminate |].
  injection Hc as <-. simpl.
  set (h := participant_end_point_date schedule st (base_dt p)
              (endpoint1_dt p) (endpoint2_dt p)).
  assert (H0 : tally_within 0 (mkTally 0 0)) by (unfold tally_within; simpl; lia).
  pose proof (tally_within_step 0 _ _ H0
                (check_baseline_cases performed (pid p) st (base_dt p) h (mkTally 0 0)))
    as H1.
  pose proof (followups_within performed (pid p) st (base_dt p) h schedule _ _ H1)
    as (Hm & Ho & Hs).
  repeat split; try lia.
  - intros st' h' t. apply check_baseline_cases.
  - intros st' h' t entry. apply check_followup_cases.
Qed.

Lemma counts_bounded_witness :
  0 <= 0 /\ 0 <= 1 /\ 0 + 1 <= 1 + 1.
Proof.
  pose proof (counts_bounded [(2, "fu1")]
    {[ ("P1", "study_baseline") := Some (date 2022 1 1);
       ("P1", "fu1") := Some (date 2022 3 20) ]}
    (mkParticipant "P1" (Some 1) None None (date 2022 1 1))
    (mkCounts 0 1 1) eq_refl) as (H1 & H2 & H3 & _).
  exact (conj H1 (conj H2 H3)).
Defined.

(** ** Comparisons *)

Section Compare.
Context {A : Type} (cmp : A -> A -> comparison) `{!LawfulCompare cmp}.

Lemma cmp_lt_eq_trans a b c : cmp a b = Lt -> cmp b c = Eq -> cmp a c = Lt.
Proof.
  intros Hab Hbc.
  assert (Hcb : cmp c b = Eq) by (rewrite cmp_antisym, Hbc; reflexivity).
  rewrite cmp_antisym, (cmp_eq_l _ _ a Hcb), cmp_antisym, Hab. reflexivity.
Qed.

Lemma not_after_total a b :
  not_after (cmp a b) = true \/ not_after (cmp b a) = true.
Proof.
  rewrite (cmp_antisym a b). destruct (cmp b a); simpl; auto.
Qed.

Lemma not_after_trans a b c :
  not_after (cmp a b) = true -> not_after (cmp b c) = true ->
  not_after (cmp a c) = true.
Proof.
  destruct (cmp a b) eqn:Hab; try discriminate; intros _;
    destruct (cmp b c) eqn:Hbc; try discriminate; intros _.
  - now rewrite (cmp_eq_l _ _ c Hab), Hbc.
  - now rewrite (cmp_eq_l _ _ c Hab), Hbc.
  - now rewrite (cmp_lt_eq_trans _ _ _ Hab Hbc).
  - now rewrite (cmp_lt_trans _ _ _ Hab Hbc).
Qed.

End Compare.

#[global] Instance then_by_lawful {A} (c1 c2 : A -> A -> comparison)
  `{!LawfulCompare c1, !LawfulCompare c2} :
  LawfulCompare (fun a b => then_by (c1 a b) (c2 a b)).
Proof.
  split.
  - intros a b. rewrite (cmp_antisym (cmp:=c1) a b), (cmp_antisym (cmp:=c2) a b).
    destruct (c1 b a); reflexivity.
  - intros a b c H. destruct (c1 a b) eqn:H1; try discriminate. simpl in H.
    now rewrite (cmp_eq_l (cmp:=c1) _ _ c H1), (cmp_eq_l (cmp:=c2) _ _ c H).
  - intros a b c Hab Hbc.
    destruct (c1 a b) eqn:H1; try discriminate; simpl in Hab;
      destruct (c1 b c) eqn:H2; try discriminate; simpl in Hbc.
    + now rewrite (cmp_eq_l (cmp:=c1) _ _ c H1), H2; simpl;
        rewrite (cmp_lt_trans (cmp:=c2) _ _ _ Hab Hbc).
    + now rewrite (cmp_eq_l (cmp:=c1) _ _ c H1), H2.
    + now rewrite (cmp_lt_eq_trans c1 _ _ _ H1 H2).
    + now rewrite (cmp_lt_trans (cmp:=c1) _ _ _ H1 H2).
Qed.

#[global] Instance on_column_lawful {A B} (column : A -> B)
  (cmp : B -> B -> comparison) `{!LawfulCompare cmp} :
  LawfulCompare (fun a b => cmp (column a) (column b)).
Proof.
  split; intros.
  - apply cmp_antisym.
  - now apply (cmp_eq_l (cmp:=cmp)).
  - now apply (cmp_lt_trans (cmp:=cmp)) with (column b).
Qed.

#[global] Instance compare_text_lawful : LawfulCompare compare_text.
Proof.
  unfold compare_text. split.
  - apply String.compare_antisym.
  - intros a b c H. apply String.compare_eq_iff in H. now subst.
  - intros a b c Hab Hbc.
    apply OrderedTypeEx.String_as_OT.cmp_lt.
    apply OrderedTypeEx.String_as_OT.cmp_lt in Hab, Hbc.
    eapply OrderedTypeEx.String_as_OT.lt_trans; eassumption.
Qed.

#[global] Instance compare_date_lawful : LawfulCompare compare_date.
Proof.
  split.
  - intros [a |] [b |]; simpl; try reflexivity. apply Z.compare_antisym.
  - intros [a |] [b |] [c |]; simpl; try discriminate; try reflexivity.
    intros H. apply Z.compare_eq in H. now rewrite H.
  - intros [a |] [b |] [c |]; simpl; try discriminate; try reflexivity.
    rewrite !Z.compare_lt_iff. lia.
Qed.

(** ** Stable sorting *)

Section Sorting.
Context {A : Type} (le : A -> A -> bool).

Lemma head_insert_sorted x s :
  head (insert_sorted le x s) =
  Some (match head s with
        | Some y => if le x y then x else y
        | None => x
        end).
Proof. destruct s as [| y rest]; simpl; [| destruct (le x y)]; reflexivity. Qed.

Lemma head_sort_values l : head (sort_values le l) = earliest le l.
Proof.
  induction l as [| x l IH]; [reflexivity |].
  simpl. rewrite head_insert_sorted, <- IH.
  destruct (head (sort_values le l)) as [y |]; [destruct (le x y) |]; reflexivity.
Qed.

Lemma elem_of_insert_sorted x s z :
  z ∈ insert_sorted le x s <-> z = x \/ z ∈ s.
Proof.
  induction s as [| y rest IH]; simpl.
  - rewrite list_elem_of_singleton, elem_of_nil. tauto.
  - destruct (le x y).
    + rewrite elem_of_cons. tauto.
    + rewrite !elem_of_cons, IH. tauto.
Qed.

Lemma elem_of_sort_values l z : z ∈ sort_values le l <-> z ∈ l.
Proof.
  induction l as [| x l IH]; simpl; [tauto |].
  rewrite elem_of_insert_sorted, elem_of_cons, IH. tauto.
Qed.

Lemma insert_sorted_front x s :
  Forall (fun z => le x z = true) s -> insert_sorted le x s = x :: s.
Proof.
  destruct s as [| y rest]; [reflexivity |].
  intros H. apply Forall_cons in H as [Hy _]. simpl. now rewrite Hy.
Qed.

Hypothesis le_total : forall x y, le x y = true \/ le y x = true.
Hypothesis le_trans : forall x y z, le x y = true -> le y z = true -> le x z = true.

Lemma insert_sorted_sorted x s :
  StronglySorted (fun a b => le a b = true) s ->
  StronglySorted (fun a b => le a b = true) (insert_sorted le x s).
Proof.
  induction s as [| y rest IH]; intros Hs; simpl.
  - repeat constructor.
  - apply StronglySorted_inv in Hs as [Hrest Hy].
    destruct (le x y) eqn:Hxy.
    + constructor; [constructor; assumption |].
      constructor; [exact Hxy |].
      eapply Forall_impl; [exact Hy |]. intros z Hz. now apply le_trans with y.
    + constructor; [now apply IH |].
      apply Forall_forall. intros z Hz. apply elem_of_insert_sorted in Hz as [-> | Hz].
      * destruct (le_total x y) as [H | H]; [congruence | exact H].
      * eapply Forall_forall in Hy; eassumption.
Qed.

Lemma sort_values_sorted l :
  StronglySorted (fun a b => le a b = true) (sort_values le l).
Proof.
  induction l as [| x l IH]; simpl; [constructor |].
  now apply insert_sorted_sorted.
Qed.

Lemma filter_insert_sorted (P : A -> Prop) `{!forall x, Decision (P x)} x s :
  StronglySorted (fun a b => le a b = true) s ->
  filter P (insert_sorted le x s) =
  if decide (P x) then insert_sorted le x (filter P s) else filter P s.
Proof.
  induction s as [| y rest IH]; intros Hs.
  - simpl. rewrite filter_cons, filter_nil. destruct (decide (P x)); reflexivity.
  - apply StronglySorted_inv in Hs as [Hrest Hy]. simpl.
    destruct (le x y) eqn:Hxy.
    + rewrite (filter_cons P x). destruct (decide (P x)) as [Hx | Hx]; [| reflexivity].
      symmetry. apply insert_sorted_front.
      apply Forall_forall. intros z Hz. apply list_elem_of_filter in Hz as [_ Hz].
      apply elem_of_cons in Hz as [-> | Hz]; [exact Hxy |].
      apply le_trans with y; [exact Hxy |].
      eapply Forall_forall in Hy; eassumption.
    + rewrite (filter_cons P y), (IH Hrest), (filter_cons P y).
      destruct (decide (P y)); destruct (decide (P x)); simpl;
        rewrite ?Hxy; reflexivity.
Qed.

(** Selecting rows commutes with sorting. *)
Lemma filter_sort_values (P : A -> Prop) `{!forall x, Decision (P x)} l :
  filter P (sort_values le l) = sort_values le (filter P l).
Proof.
  induction l as [| x l IH]; [reflexivity |].
  simpl. rewrite filter_insert_sorted by apply sort_values_sorted.
  rewrite filter_cons, IH. destruct (decide (P x)); reflexivity.
Qed.

Lemma earliest_None l : earliest le l = None <-> l = [].
Proof.
  split; [| intros ->; reflexivity].
  destruct l as [| x l]; [reflexivity |]. simpl.
  destruct (earliest le l) as [y |]; [destruct (le x y) |]; discriminate.
Qed.

(** The row [earliest] returns splits the list: everything in front of it
    is strictly larger, everything behind it is at least as large. *)
Lemma earliest_Some l m :
  earliest le l = Some m ->
  exists l1 l2, l = l1 ++ m :: l2 /\
    Forall (fun y => le y m = false) l1 /\
    Forall (fun y => le m y = true) l2.
Proof.
  revert m. induction l as [| x l IH]; intros m; simpl; [discriminate |].
  destruct (earliest le l) as [y |] eqn:E.
  - destruct (IH y eq_refl) as (l1 & l2 & -> & H1 & H2).
    destruct (le x y) eqn:Hxy; intros [= <-].
    + exists [], (l1 ++ y :: l2). split; [reflexivity |]. split; [constructor |].
      apply Forall_app. split.
      * eapply Forall_impl; [exact H1 |]. intros z Hz.
        destruct (le_total y z) as [H | H]; [| congruence].
        now apply le_trans with y.
      * constructor; [exact Hxy |].
        eapply Forall_impl; [exact H2 |]. intros z Hz. now apply le_trans with y.
    + exists (x :: l1), l2. split; [reflexivity |]. split; [| exact H2].
      constructor; assumption.
  - apply earliest_None in E as ->. intros [= <-].
    exists [], []. repeat split; constructor.
Qed.

End Sorting.

(** ** Dropping duplicates *)

Section Duplicates.
Context {A K : Type} `{EqDecision K} (subset : A -> K).

Lemma group_cons k x l :
  group subset k (x :: l) =
  if decide (subset x = k) then x :: group subset k l else group subset k l.
Proof. unfold group. now rewrite filter_cons. Qed.

Lemma elem_of_group k l x : x ∈ group subset k l <-> subset x = k /\ x ∈ l.
Proof. unfold group. now rewrite list_elem_of_filter. Qed.

Lemma group_drop_duplicates_from k seen l :
  group subset k (drop_duplicates_from subset seen l) =
  if decide (k ∈ seen) then [] else option_list (head (group subset k l)).
Proof.
  revert seen. induction l as [| x l IH]; intros seen.
  - simpl. destruct (decide (k ∈ seen)); reflexivity.
  - simpl. rewrite (group_cons k x l).
    destruct (bool_decide (subset x ∈ seen)) eqn:Hseen.
    + apply bool_decide_eq_true in Hseen. rewrite IH.
      destruct (decide (k ∈ seen)) as [Hk | Hk]; [reflexivity |].
      destruct (decide (subset x = k)) as [<- | Hne]; [contradiction | reflexivity].
    + apply bool_decide_eq_false in Hseen. rewrite group_cons, IH.
      destruct (decide (subset x = k)) as [<- | Hne].
      * rewrite decide_True by (apply elem_of_cons; now left).
        rewrite decide_False by assumption. reflexivity.
      * destruct (decide (k ∈ seen)) as [Hk | Hk].
        -- rewrite decide_True by (apply elem_of_cons; now right). reflexivity.
        -- rewrite decide_False; [reflexivity |].
           rewrite elem_of_cons. intros [Heq | Hin]; [now apply Hne | now apply Hk].
Qed.

(** After [drop_duplicates] a group holds its first row only. *)
Lemma group_drop_duplicates k l :
  group subset k (drop_duplicates subset l) = option_list (head (group subset k l)).
Proof.
  unfold drop_duplicates. rewrite group_drop_duplicates_from.
  rewrite decide_False by apply not_elem_of_nil. reflexivity.
Qed.

Lemma elem_of_drop_duplicates_from seen l x :
  x ∈ drop_duplicates_from subset seen l -> x ∈ l /\ subset x ∉ seen.
Proof.
  revert seen. induction l as [| y l IH]; intros seen; simpl.
  - intros H. now apply elem_of_nil in H.
  - destruct (bool_decide (subset y ∈ seen)) eqn:Hseen.
    + intros H. apply IH in H as [H1 H2]. split; [now apply list_elem_of_further | exact H2].
    + apply bool_decide_eq_false in Hseen.
      intros H. apply elem_of_cons in H as [-> | H].
      * split; [apply list_elem_of_here | exact Hseen].
      * apply IH in H as [H1 H2]. split; [now apply list_elem_of_further |].
        intros Hin. apply H2. now apply list_elem_of_further.
Qed.

Lemma elem_of_drop_duplicates l x : x ∈ drop_duplicates subset l -> x ∈ l.
Proof. intros H. now apply elem_of_drop_duplicates_from in H as [H _]. Qed.

Lemma NoDup_drop_duplicates_from seen l :
  NoDup (subset <$> drop_duplicates_from subset seen l).
Proof.
  revert seen. induction l as [| y l IH]; intros seen; simpl.
  - constructor.
  - destruct (bool_decide (subset y ∈ seen)); [apply IH |].
    rewrite fmap_cons. apply NoDup_cons. split; [| apply IH].
    intros Hin. apply list_elem_of_fmap in Hin as (z & Hz & Hin).
    apply elem_of_drop_duplicates_from in Hin as [_ Hnot].
    apply Hnot. rewrite <- Hz. apply list_elem_of_here.
Qed.

Lemma NoDup_drop_duplicates l : NoDup (subset <$> drop_duplicates subset l).
Proof. apply NoDup_drop_duplicates_from. Qed.

(** With one row per key, the first row of a group is its only row. *)
Lemma group_NoDup k l x :
  NoDup (subset <$> l) -> x ∈ l -> subset x = k ->
  head (group subset k l) = Some x.
Proof.
  induction l as [| y l IH]; intros Hnd Hin Hk.
  - now apply elem_of_nil in Hin.
  - rewrite fmap_cons in Hnd. apply NoDup_cons in Hnd as [Hy Hnd].
    rewrite group_cons. apply elem_of_cons in Hin as [-> | Hin].
    + now rewrite decide_True by assumption.
    + destruct (decide (subset y = k)) as [Heq | Hne]; [| now apply IH].
      exfalso. apply Hy. rewrite Heq, <- Hk. apply list_elem_of_fmap. eauto.
Qed.

End Duplicates.

(** A split of the selected rows comes from a split of the table. *)
Lemma filter_split {A} (P : A -> Prop) `{!forall x, Decision (P x)} l g1 m g2 :
  filter P l = g1 ++ m :: g2 ->
  exists l1 l2, l = l1 ++ m :: l2 /\ filter P l1 = g1 /\ filter P l2 = g2.
Proof.
  revert g1. induction l as [| x l IH]; intros g1 Hf.
  - rewrite filter_nil in Hf. now destruct g1.
  - rewrite filter_cons in Hf. destruct (decide (P x)) as [Hx | Hx].
    + destruct g1 as [| y g1]; simpl in Hf; injection Hf as Hhead Hrest;
        symmetry in Hhead; subst.
      * exists [], l. now rewrite filter_nil.
      * destruct (IH _ Hrest) as (l1 & l2 & -> & H1 & H2).
        exists (x :: l1), l2. rewrite filter_cons_True by assumption.
        now rewrite H1.
    + destruct (IH _ Hf) as (l1 & l2 & -> & H1 & H2).
      exists (x :: l1), l2. now rewrite filter_cons_False by assumption.
Qed.

(** ** The performed-test dictionary *)

Lemma by_participant_event_date_lawful :
  LawfulCompare (fun a b : Row =>
    then_by (compare_text (record_id a) (record_id b))
      (then_by (compare_text (event_name a) (event_name b))
         (compare_date (test_date a) (test_date b)))).
Proof.
  apply (then_by_lawful (fun a b => compare_text (record_id a) (record_id b)) _
           (LawfulCompare0 := on_column_lawful record_id compare_text)).
Qed.

Lemma by_participant_event_date_total a b :
  by_participant_event_date a b = true \/ by_participant_event_date b a = true.
Proof. apply (not_after_total _ (LawfulCompare0 := by_participant_event_date_lawful)). Qed.

Lemma by_participant_event_date_trans a b c :
  by_participant_event_date a b = true -> by_participant_event_date b c = true ->
  by_participant_event_date a c = true.
Proof. apply (not_after_trans _ (LawfulCompare0 := by_participant_event_date_lawful)). Qed.

Lemma compare_text_refl s : compare_text s s = Eq.
Proof.
  unfold compare_text. pose proof (String.compare_antisym s s) as H.
  destruct (String.compare s s); simpl in H; congruence.
Qed.

(** Within one (participant, event) group the sort looks at the test date
    only. *)
Lemma by_participant_event_date_group a b :
  performed_key a = performed_key b ->
  by_participant_event_date a b = not_after (compare_date (test_date a) (test_date b)).
Proof.
  unfold performed_key, by_participant_event_date. intros [= -> ->].
  now rewrite !compare_text_refl.
Qed.

Lemma group_not_elem_of {A K} `{EqDecision K} (subset : A -> K) k l :
  k ∉ subset <$> l -> group subset k l = [].
Proof.
  intros Hk. induction l as [| x l IH]; [reflexivity |].
  rewrite fmap_cons, not_elem_of_cons in Hk. destruct Hk as [Hne Hk].
  rewrite group_cons, decide_False by congruence. now apply IH.
Qed.

Lemma performed_dict_foldl (tests : list Row) (k : string * string)
    (d : gmap (string * string) (option Timestamp)) :
  NoDup (performed_key <$> tests) ->
  foldl (fun d r => <[performed_key r := test_date r]> d) d tests !! k =
  match head (group performed_key k tests) with
  | Some r => Some (test_date r)
  | None => d !! k
  end.
Proof.
  revert d. induction tests as [| x l IH]; intros d Hnd; [reflexivity |].
  rewrite fmap_cons in Hnd. apply NoDup_cons in Hnd as [Hx Hnd].
  simpl foldl. rewrite (IH _ Hnd), group_cons.
  destruct (decide (performed_key x = k)) as [<- | Hne].
  - rewrite (group_not_elem_of _ _ _ Hx). simpl. apply lookup_insert_eq.
  - destruct (head (group performed_key k l)); [reflexivity |].
    now apply lookup_insert_ne.
Qed.

Lemma head_option_list {A} (o : option A) : head (option_list o) = o.
Proof. now destruct o. Qed.

(** What the dictionary answers for a key, in terms of the table. *)
Lemma performed_lookup (f : Frame) (tests : list Row) (k : string * string) :
  performed_tests_df f = Completed tests ->
  group performed_key k tests =
    option_list (earliest by_participant_event_date
                   (group performed_key k (filter is_performed_test (rows f)))) /\
  dict_get (performed_dict tests) k =
    earliest by_participant_event_date
      (group performed_key k (filter is_performed_test (rows f))) ≫= test_date.
Proof.
  unfold performed_tests_df. destruct (has_column _ _); [| discriminate].
  intros [= <-].
  assert (Hgroup : group performed_key k
            (drop_duplicates performed_key
               (sort_values by_participant_event_date
                  (filter is_performed_test (rows f)))) =
          option_list (earliest by_participant_event_date
             (group performed_key k (filter is_performed_test (rows f))))).
  { rewrite group_drop_duplicates. unfold group at 1.
    rewrite (filter_sort_values _ by_participant_event_date_total
               by_participant_event_date_trans).
    now rewrite head_sort_values. }
  split; [exact Hgroup |].
  unfold dict_get, performed_dict.
  rewrite performed_dict_foldl by apply NoDup_drop_duplicates.
  rewrite Hgroup, head_option_list, lookup_empty.
  now destruct (earliest _ _).
Qed.

Lemma compare_date_not_after (a b : Timestamp) :
  not_after (compare_date (Some a) (Some b)) = true <-> value a <= value b.
Proof.
  simpl. unfold Z.le. destruct (value a ?= value b); simpl; split; congruence.
Qed.

Lemma compare_date_after (a b : Timestamp) :
  not_after (compare_date (Some a) (Some b)) = false <-> value b < value a.
Proof.
  rewrite <- not_true_iff_false, compare_date_not_after. lia.
Qed.

(** C6, amended.  For an event outside the tracked names, or the empty
    identifier, the dictionary has no entry.  For a tracked event and a
    non-empty identifier with at least one row carrying a test date, the
    dictionary holds the earliest test date of those rows; the row kept for
    the pair is the first row of the table with that date: every matching
    row in front of it is strictly later, every matching row behind it is
    not earlier. *)
Theorem performed_index_earliest (f : Frame) (tests : list Row) (p e : string) :
  performed_tests_df f = Completed tests ->
  (e ∉ ALL_TEST_EVENT_NAMES \/ p = "" ->
     dict_get (performed_dict tests) (p, e) = None) /\
  (e ∈ ALL_TEST_EVENT_NAMES -> p <> "" ->
   forall r d0,
     r ∈ rows f -> record_id r = p -> event_name r = e -> test_date r = Some d0 ->
     exists before kept after d,
       rows f = before ++ kept :: after /\
       record_id kept = p /\ event_name kept = e /\ test_date kept = Some d /\
       dict_get (performed_dict tests) (p, e) = Some d /\
       group performed_key (p, e) tests = [kept] /\
       value d <= value d0 /\
       (forall y dy, y ∈ before -> record_id y = p -> event_name y = e ->
                     test_date y = Some dy -> value d < value dy) /\
       (forall y dy, y ∈ after -> record_id y = p -> event_name y = e ->
                     test_date y = Some dy -> value d <= value dy)).
Proof.
  intros Htests.
  destruct (performed_lookup f tests (p, e) Htests) as [Hgroup Hget].
  set (F := filter is_performed_test (rows f)) in *.
  set (G := group performed_key (p, e) F) in *.
  split.
  - intros Hout. rewrite Hget.
    assert (HG : G = []).
    { destruct G as [| m G'] eqn:EG; [reflexivity | exfalso].
      assert (Hm : m ∈ G) by (rewrite EG; apply list_elem_of_here).
      apply elem_of_group in Hm as [Hkey Hm].
      apply list_elem_of_filter in Hm as [(Hev & _ & Hid) _].
      injection Hkey as Hp He. destruct Hout as [Hout | Hout]; congruence. }
    now rewrite HG.
  - intros He Hp r d0 Hr Hrid Hrev Hrdate.
    assert (Hmatch : forall y dy, record_id y = p -> event_name y = e ->
                       test_date y = Some dy -> is_performed_test y).
    { intros y dy Hy1 Hy2 Hy3. unfold is_performed_test.
      rewrite Hy1, Hy2, Hy3. eauto. }
    assert (HrG : r ∈ G).
    { apply elem_of_group. split; [unfold performed_key; congruence |].
      apply list_elem_of_filter. split; [now apply (Hmatch r d0) | exact Hr]. }
    destruct (earliest by_participant_event_date G) as [m |] eqn:Em;
      [| apply earliest_None in Em; rewrite Em in HrG; now apply elem_of_nil in HrG].
    destruct (earliest_Some _ by_participant_event_date_total
                by_participant_event_date_trans G m Em)
      as (g1 & g2 & HG & Hg1 & Hg2).
    assert (HmG : m ∈ G) by (rewrite HG; apply elem_of_app; right; apply list_elem_of_here).
    apply elem_of_group in HmG as [Hmkey HmF].
    pose proof HmF as HmF'. apply list_elem_of_filter in HmF' as [(_ & [d Hd] & _) _].
    injection Hmkey as Hmid Hmev.
    destruct (filter_split _ F g1 m g2 HG) as (F1 & F2 & HF & HF1 & HF2).
    destruct (filter_split _ (rows f) F1 m F2 HF) as (l1 & l2 & Hrows & Hl1 & Hl2).
    assert (Hin_g : forall (l g Fl : list Row) (y : Row) (dy : Timestamp),
              filter is_performed_test l = Fl ->
              filter (fun x => performed_key x = (p, e)) Fl = g ->
              y ∈ l -> record_id y = p -> event_name y = e ->
              test_date y = Some dy -> y ∈ g).
    { intros l g Fl y dy <- <- Hy Hy1 Hy2 Hy3.
      apply list_elem_of_filter. split; [unfold performed_key; congruence |].
      apply list_elem_of_filter. split; [now apply (Hmatch y dy) | exact Hy]. }
    assert (Hbefore : forall y dy, y ∈ l1 -> record_id y = p -> event_name y = e ->
                        test_date y = Some dy -> value d < value dy).
    { intros y dy Hy Hy1 Hy2 Hy3.
      pose proof (Hin_g l1 g1 F1 y dy Hl1 HF1 Hy Hy1 Hy2 Hy3) as Hyg.
      eapply Forall_forall in Hg1; [| exact Hyg]. simpl in Hg1.
      rewrite by_participant_event_date_group in Hg1
        by (unfold performed_key; congruence).
      rewrite Hy3, Hd in Hg1. now apply compare_date_after. }
    assert (Hafter : forall y dy, y ∈ l2 -> record_id y = p -> event_name y = e ->
                       test_date y = Some dy -> value d <= value dy).
    { intros y dy Hy Hy1 Hy2 Hy3.
      pose proof (Hin_g l2 g2 F2 y dy Hl2 HF2 Hy Hy1 Hy2 Hy3) as Hyg.
      eapply Forall_forall in Hg2; [| exact Hyg]. simpl in Hg2.
      rewrite by_participant_event_date_group in Hg2
        by (unfold performed_key; congruence).
      rewrite Hy3, Hd in Hg2. now apply compare_date_not_after. }
    exists l1, m, l2, d. repeat split; try assumption.
    + rewrite Hget. simpl. exact Hd.
    + rewrite Hrows in Hr. apply elem_of_app in Hr as [Hr | Hr].
      * specialize (Hbefore r d0 Hr Hrid Hrev Hrdate). lia.
      * apply elem_of_cons in Hr as [-> | Hr].
        -- rewrite Hd in Hrdate. injection Hrdate as ->. lia.
        -- now apply (Hafter r d0).
Qed.

Lemma performed_index_earliest_witness :
  dict_get
    (performed_dict
       [ sample_row "P1" "followup_visit_1" (Some (date 2022 3 2)) (Some 1);
         sample_row "P1" "study_baseline" (Some (date 2022 1 1)) (Some 1) ])
    ("P1", "unscheduled_visit") = None.
Proof.
  apply (proj1 (performed_index_earliest sample_visits _ "P1" "unscheduled_visit"
                  eq_refl)).
  left. vm_compute. intros H. repeat (inversion H as [| ? ? ? H']; clear H; rename H' into H).
Defined.

(** C6 as stated, without the restriction to tracked events, fails: a row
    with a non-empty identifier and a test date whose event is not a
    tracked one leaves no entry in the dictionary. *)
Lemma performed_index_untracked_counterexample :
  ~ (forall (f : Frame) (tests : list Row) (p e : string),
       performed_tests_df f = Completed tests ->
       p <> "" ->
       (exists r d, r ∈ rows f /\ record_id r = p /\ event_name r = e /\
                    test_date r = Some d) ->
       is_Some (dict_get (performed_dict tests) (p, e))).
Proof.
  intros H.
  destruct (H sample_visits _ "P1" "unscheduled_visit" eq_refl) as [d Hd].
  - discriminate.
  - exists (sample_row "P1" "unscheduled_visit" (Some (date 2022 5 5)) (Some 1)),
           (date 2022 5 5).
    split; [| repeat split]. unfold sample_visits. simpl.
    do 4 apply list_elem_of_further. apply list_elem_of_here.
  - vm_compute in Hd. discriminate.
Qed.

(** ** One merged participant per identifier *)

Lemma group_at_most_one {A K} `{EqDecision K} (subset : A -> K) k l :
  NoDup (subset <$> l) ->
  group subset k l = option_list (head (group subset k l)).
Proof.
  induction l as [| x l IH]; intros Hnd; [reflexivity |].
  rewrite fmap_cons in Hnd. apply NoDup_cons in Hnd as [Hx Hnd].
  rewrite group_cons. destruct (decide (subset x = k)) as [<- | Hne].
  - now rewrite (group_not_elem_of _ _ _ Hx).
  - now apply IH.
Qed.

Lemma NoDup_pinfo_raw f : NoDup (record_id <$> pinfo_raw f).
Proof. apply NoDup_drop_duplicates. Qed.

Lemma NoDup_omap_key {A B K} (key : A -> K) (key' : B -> K) (g : A -> option B) l :
  (forall x y, g x = Some y -> key' y = key x) ->
  NoDup (key <$> l) -> NoDup (key' <$> omap g l).
Proof.
  intros Hkey. induction l as [| x l IH]; intros Hnd; [constructor |].
  rewrite fmap_cons in Hnd. apply NoDup_cons in Hnd as [Hx Hnd].
  simpl. destruct (g x) as [y |] eqn:Hg; [| now apply IH].
  rewrite fmap_cons. apply NoDup_cons. split; [| now apply IH].
  intros Hin. apply Hx.
  apply list_elem_of_fmap in Hin as (y' & Hy' & Hin).
  apply list_elem_of_omap in Hin as (x' & Hx' & Hg').
  apply list_elem_of_fmap. exists x'. split; [| exact Hx'].
  rewrite <- (Hkey _ _ Hg), Hy'. now apply Hkey.
Qed.

Lemma NoDup_final_baselines f baselines :
  final_baselines f = Completed baselines -> NoDup (fst <$> baselines).
Proof.
  unfold final_baselines. destruct (_ || _); [| discriminate]. intros [= <-].
  apply (NoDup_omap_key record_id fst).
  - intros x y Hy. destruct (effective_baseline f x); [| discriminate].
    now injection Hy as <-.
  - apply NoDup_drop_duplicates.
Qed.

Lemma elem_of_merge_baselines f pinfo baselines (p : Participant) :
  p ∈ merge_baselines f pinfo baselines <->
  exists r b, r ∈ pinfo /\ b ∈ baselines /\ b.1 = record_id r /\
    p = {| pid := record_id r;
           status := participant_status r;
           endpoint1_dt := get_endpoint f ENDPOINT_DATE_1_COL (primary_endpoint_date r);
           endpoint2_dt := get_endpoint f ENDPOINT_DATE_2_COL (secondary_endpoint_date r);
           base_dt := b.2 |}.
Proof.
  unfold merge_baselines. rewrite list_elem_of_bind. split.
  - intros (r & Hp & Hr). apply list_elem_of_bind in Hp as (b & Hp & Hb).
    apply list_elem_of_singleton in Hp. apply list_elem_of_filter in Hb as [Hb1 Hb2].
    exists r, b. auto.
  - intros (r & b & Hr & Hb & Hkey & ->). exists r. split; [| exact Hr].
    apply list_elem_of_bind. exists b. split; [apply list_elem_of_here |].
    now apply list_elem_of_filter.
Qed.

Lemma NoDup_merge_baselines f pinfo baselines :
  NoDup (record_id <$> pinfo) -> NoDup (fst <$> baselines) ->
  NoDup (pid <$> merge_baselines f pinfo baselines).
Proof.
  intros Hpinfo Hbase. induction pinfo as [| r pinfo IH]; [constructor |].
  rewrite fmap_cons in Hpinfo. apply NoDup_cons in Hpinfo as [Hr Hpinfo].
  unfold merge_baselines. rewrite bind_cons, fmap_app.
  apply NoDup_app. split; [| split].
  - fold (group fst (record_id r) baselines).
    rewrite (group_at_most_one fst _ _ Hbase).
    destruct (head _); simpl; [apply NoDup_singleton | constructor].
  - intros k Hk Hk'. apply Hr.
    apply list_elem_of_fmap in Hk as (p & -> & Hp).
    apply list_elem_of_bind in Hp as (b & Hp & _).
    apply list_elem_of_singleton in Hp as ->. simpl in Hk'.
    apply list_elem_of_fmap in Hk' as (p' & Heq & Hp').
    apply (elem_of_merge_baselines f pinfo baselines) in Hp'
      as (r' & b' & Hr' & _ & _ & ->).
    simpl in Heq. rewrite Heq. now apply list_elem_of_fmap_2.
  - now apply IH.
Qed.

Lemma NoDup_participants_for_recalc f baselines :
  final_baselines f = Completed baselines ->
  NoDup (pid <$> merge_baselines f (pinfo_raw f) baselines).
Proof.
  intros H. apply NoDup_merge_baselines.
  - apply NoDup_pinfo_raw.
  - now apply NoDup_final_baselines in H.
Qed.

(** ** What [calculated_counts] holds *)

Lemma store_counts_foldl schedule performed (ps : list Participant)
    (acc : gmap string Counts) (k : string) :
  k ∉ pid <$> ps ->
  foldl (store_counts schedule performed) acc ps !! k = acc !! k.
Proof.
  revert acc. induction ps as [| p ps IH]; intros acc Hk; [reflexivity |].
  rewrite fmap_cons, not_elem_of_cons in Hk. destruct Hk as [Hne Hk].
  simpl. rewrite (IH _ Hk). unfold store_counts.
  destruct (recalc schedule performed p); [| reflexivity].
  rewrite lookup_insert_ne; [reflexivity | congruence].
Qed.

Lemma store_counts_lookup schedule performed (ps : list Participant)
    (acc : gmap string Counts) (p : Participant) :
  NoDup (pid <$> ps) -> p ∈ ps ->
  foldl (store_counts schedule performed) acc ps !! pid p =
  match recalc schedule performed p with
  | Some c => Some c
  | None => acc !! pid p
  end.
Proof.
  revert acc. induction ps as [| q ps IH]; intros acc Hnd Hin.
  - now apply elem_of_nil in Hin.
  - rewrite fmap_cons in Hnd. apply NoDup_cons in Hnd as [Hq Hnd].
    apply elem_of_cons in Hin as [<- | Hin].
    + simpl. rewrite (store_counts_foldl _ _ _ _ _ Hq). unfold store_counts.
      destruct (recalc schedule performed p); [apply lookup_insert_eq | reflexivity].
    + simpl. rewrite (IH _ Hnd Hin).
      destruct (recalc schedule performed p); [reflexivity |].
      unfold store_counts. destruct (recalc schedule performed q); [| reflexivity].
      rewrite lookup_insert_ne; [reflexivity |].
      intros Heq. apply Hq. rewrite Heq. now apply list_elem_of_fmap_2.
Qed.

(** Every stored record is the result of the loop body for one of the
    participants. *)
Lemma store_counts_origin schedule performed (ps : list Participant)
    (acc : gmap string Counts) (k : string) (c : Counts) :
  foldl (store_counts schedule performed) acc ps !! k = Some c ->
  acc !! k = Some c \/
  exists p, p ∈ ps /\ pid p = k /\ recalc schedule performed p = Some c.
Proof.
  revert acc. induction ps as [| q ps IH]; intros acc H; [now left |].
  simpl in H. apply IH in H as [H | (p & Hp & Hk & Hc)].
  - unfold store_counts in H. destruct (recalc schedule performed q) as [c' |] eqn:E.
    + destruct (decide (pid q = k)) as [Heq | Hne].
      * rewrite Heq, lookup_insert_eq in H. injection H as ->.
        right. exists q. split; [apply list_elem_of_here | auto].
      * rewrite lookup_insert_ne in H by assumption. now left.
    + now left.
  - right. exists p. split; [now apply list_elem_of_further | auto].
Qed.


(** ** The end-of-schedule date *)

Lemma max_month_offset_schedule : max_month_offset EXPECTED_FOLLOWUP_SCHEDULE = 18.
Proof. reflexivity. Qed.

Lemma recalc_is_Some schedule performed (p : Participant) st :
  status p = Some st ->
  (bool_decide (st ∈ [2; 3; 4]) &&
   isna (participant_end_point_date schedule st (base_dt p)
           (endpoint1_dt p) (endpoint2_dt p)) = false) ->
  is_Some (recalc schedule performed p).
Proof. intros Hst Hgo. unfold recalc. rewrite Hst, Hgo. eauto. Qed.




(** ** Writing and blanking, row by row *)

Lemma data_of_set_counts r a b c : data_of (set_counts r a b c) = data_of r.
Proof. reflexivity. Qed.

Lemma target_index_Some (rs : list Row) (k : string) (i : nat) :
  target_index rs k = Some i <->
  exists r, rs !! i = Some r /\ is_target_row k r /\
    forall j y, rs !! j = Some y -> (j < i)%nat -> ~ is_target_row k y.
Proof.
  unfold target_index. split.
  - destruct (list_find _ rs) as [[i' r] |] eqn:E; [| discriminate].
    intros [= <-]. apply list_find_Some in E. eauto.
  - intros (r & H). apply (proj2 (list_find_Some _ rs i r)) in H. now rewrite H.
Qed.

Lemma list_find_same_data (P : Row -> Prop) `{!forall x, Decision (P x)}
    (l l' : list Row) :
  (forall x y, data_of x = data_of y -> P x <-> P y) ->
  Forall2 (fun r r' => data_of r = data_of r') l l' ->
  fst <$> list_find P l = fst <$> list_find P l'.
Proof.
  intros HP HF. induction HF as [| x y l l' Hxy HF IH]; [reflexivity |].
  cbn. destruct (decide (P x)) as [Hx | Hx].
  - rewrite decide_True by (now apply (HP _ _ Hxy)). reflexivity.
  - rewrite decide_False by (now rewrite <- (HP _ _ Hxy)).
    rewrite <- !option_fmap_compose.
    destruct (list_find P l) as [[i a] |], (list_find P l') as [[j b] |];
      simpl in *; congruence.
Qed.

Lemma is_target_row_data k (x y : Row) :
  data_of x = data_of y -> is_target_row k x <-> is_target_row k y.
Proof. unfold is_target_row. intros [= -> -> _ _ _ _ _]. tauto. Qed.

Lemma target_index_same_data (rs rs' : list Row) (k : string) :
  Forall2 (fun r r' => data_of r = data_of r') rs rs' ->
  target_index rs k = target_index rs' k.
Proof.
  intros HF. unfold target_index. apply list_find_same_data; [| exact HF].
  apply is_target_row_data.
Qed.

Lemma write_counts_lookup (rs : list Row) (k : string) (c : Counts) (i : nat) :
  write_counts rs (k, c) !! i =
  (fun r => if decide (target_index rs k = Some i) then assign_counts c r else r)
    <$> rs !! i.
Proof.
  unfold write_counts, target_index. simpl.
  destruct (list_find (is_target_row k) rs) as [[idx r] |] eqn:E; simpl.
  - apply list_find_Some in E as (Hidx & _ & _).
    destruct (decide (idx = i)) as [<- | Hne].
    + rewrite list_lookup_insert_eq by (eapply lookup_lt_Some; eassumption).
      rewrite Hidx. simpl. now rewrite decide_True.
    + rewrite list_lookup_insert_ne by assumption.
      destruct (rs !! i); simpl; [| reflexivity].
      rewrite decide_False; [reflexivity | congruence].
  - destruct (rs !! i); reflexivity.
Qed.

Lemma same_data_lookup (rs rs' : list Row) (g : nat -> Row -> Row) :
  (forall i, rs' !! i = g i <$> rs !! i) ->
  (forall i r, data_of (g i r) = data_of r) ->
  Forall2 (fun r r' => data_of r = data_of r') rs rs'.
Proof.
  intros Hlook Hdata. apply Forall2_same_length_lookup. split.
  - apply Nat.le_antisymm.
    + destruct (decide (length rs <= length rs')%nat) as [| Hn]; [assumption |].
      exfalso. destruct (lookup_lt_is_Some_2 rs (length rs')) as [r Hr]; [lia |].
      pose proof (Hlook (length rs')) as H. rewrite Hr in H. simpl in H.
      apply lookup_lt_Some in H. lia.
    + destruct (decide (length rs' <= length rs)%nat) as [| Hn]; [assumption |].
      exfalso. destruct (lookup_lt_is_Some_2 rs' (length rs)) as [r Hr]; [lia |].
      pose proof (Hlook (length rs)) as H. rewrite Hr in H.
      rewrite (lookup_ge_None_2 rs (length rs)) in H by lia. discriminate.
  - intros i r r' Hr Hr'. rewrite Hlook, Hr in Hr'. injection Hr' as <-.
    symmetry. apply Hdata.
Qed.

Lemma write_counts_same_data (rs : list Row) (item : string * Counts) :
  Forall2 (fun r r' => data_of r = data_of r') rs (write_counts rs item).
Proof.
  destruct item as [k c].
  apply (same_data_lookup _ _
    (fun i r => if decide (target_index rs k = Some i) then assign_counts c r else r)).
  - intros i. apply write_counts_lookup.
  - intros i r. now destruct (decide _).
Qed.

(** The table after the loop over the stored counts, row by row: the row
    at the target index of its own participant receives that participant's
    counts, every other row stays. *)
Lemma update_rows_foldl (items : list (string * Counts)) (rs : list Row) (i : nat) :
  NoDup (items.*1) ->
  foldl write_counts rs items !! i =
  (fun r => if decide (target_index rs (record_id r) = Some i) then
              match (list_to_map items : gmap string Counts) !! record_id r with
              | Some c => assign_counts c r
              | None => r
              end
            else r) <$> rs !! i.
Proof.
  revert rs. induction items as [| [k c] items IH]; intros rs Hnd.
  - simpl. destruct (rs !! i) as [r |]; [| reflexivity]. simpl.
    rewrite lookup_empty. now destruct (decide _).
  - rewrite fmap_cons in Hnd. apply NoDup_cons in Hnd as [Hk Hnd]. simpl in Hk.
    simpl foldl. rewrite (IH _ Hnd), write_counts_lookup, list_to_map_cons.
    destruct (rs !! i) as [r |] eqn:Hr; [| reflexivity].
    cbn [fmap option_fmap option_map]. f_equal.
    assert (Hti : forall k', target_index (write_counts rs (k, c)) k'
                             = target_index rs k').
    { intros k'. symmetry. apply target_index_same_data, write_counts_same_data. }
    destruct (decide (target_index rs k = Some i)) as [Hik | Hik].
    + assert (Hrk : record_id r = k).
      { apply target_index_Some in Hik as (r0 & Hr0 & [Hid _] & _). congruence. }
      change (record_id (assign_counts c r)) with (record_id r).
      rewrite Hti, Hrk, !decide_True by assumption.
      rewrite (not_elem_of_list_to_map_1 _ _ Hk), lookup_insert_eq. reflexivity.
    + rewrite Hti.
      destruct (decide (target_index rs (record_id r) = Some i)) as [Hir | Hir];
        [| reflexivity].
      rewrite lookup_insert_ne by congruence. reflexivity.
Qed.

Lemma update_rows_lookup (rs : list Row) (counts : gmap string Counts) (i : nat) :
  update_rows rs counts !! i =
  (fun r => if decide (target_index rs (record_id r) = Some i) then
              match counts !! record_id r with
              | Some c => assign_counts c r
              | None => r
              end
            else r) <$> rs !! i.
Proof.
  unfold update_rows.
  rewrite update_rows_foldl by apply NoDup_fst_map_to_list.
  now rewrite list_to_map_to_list.
Qed.

Lemma update_rows_same_data (rs : list Row) (counts : gmap string Counts) :
  Forall2 (fun r r' => data_of r = data_of r') rs (update_rows rs counts).
Proof.
  eapply same_data_lookup.
  - intros i. apply update_rows_lookup.
  - intros i r. simpl. destruct (decide _); [| reflexivity].
    now destruct (counts !! record_id r).
Qed.

Lemma elem_of_excluded_pids (rs : list Row) (k : string) :
  k ∈ excluded_pids rs <->
  exists r, r ∈ rs /\ is_excluded_baseline r /\ record_id r = k.
Proof.
  unfold excluded_pids. rewrite elem_of_remove_dups, list_elem_of_fmap. split.
  - intros (r & -> & Hr). apply list_elem_of_filter in Hr as [H1 H2]. eauto.
  - intros (r & Hr & Hex & <-). exists r. split; [reflexivity |].
    now apply list_elem_of_filter.
Qed.

Lemma is_excluded_baseline_data (x y : Row) :
  data_of x = data_of y -> is_excluded_baseline x -> is_excluded_baseline y.
Proof.
  unfold is_excluded_baseline, is_baseline_row.
  intros [= Hid Hev _ _ Hst _ _]. rewrite Hid, Hev, Hst. tauto.
Qed.

Lemma excluded_pids_same_data (rs rs' : list Row) (k : string) :
  Forall2 (fun r r' => data_of r = data_of r') rs rs' ->
  k ∈ excluded_pids rs' <-> k ∈ excluded_pids rs.
Proof.
  intros HF. rewrite !elem_of_excluded_pids. split.
  - intros (r' & Hr' & Hex & Hk).
    apply list_elem_of_lookup in Hr' as [i Hi].
    destruct (Forall2_lookup_r _ _ _ _ _ HF Hi) as (r & Hr & Hdata).
    exists r. split; [eapply list_elem_of_lookup_2; eassumption |].
    split; [eapply is_excluded_baseline_data; [symmetry |]; eassumption |].
    injection Hdata as -> _. exact Hk.
  - intros (r & Hr & Hex & Hk).
    apply list_elem_of_lookup in Hr as [i Hi].
    destruct (Forall2_lookup_l _ _ _ _ _ HF Hi) as (r' & Hr' & Hdata).
    exists r'. split; [eapply list_elem_of_lookup_2; eassumption |].
    split; [eapply is_excluded_baseline_data; eassumption |].
    injection Hdata as <- _. exact Hk.
Qed.

Lemma blank_excluded_lookup (rs : list Row) (i : nat) :
  blank_excluded rs !! i =
  (fun r => if decide (record_id r ∈ excluded_pids rs) then blank_counts r else r)
    <$> rs !! i.
Proof.
  unfold blank_excluded. destruct (excluded_pids rs) as [| k ks] eqn:E.
  - destruct (rs !! i) as [r |]; reflexivity.
  - rewrite list_lookup_fmap. destruct (rs !! i) as [r |]; [| reflexivity]. simpl.
    destruct (decide (record_id r ∈ k :: ks)) as [Hin | Hin].
    + now rewrite bool_decide_eq_true_2.
    + now rewrite bool_decide_eq_false_2.
Qed.

(** The final table, row by row. *)
Lemma run_frame_rows (f out : Frame) :
  run_frame f = Completed out ->
  exists records,
    deviation_records f = Completed records /\
    columns out = columns f /\
    forall i, rows out !! i = final_row (rows f) records i <$> rows f !! i.
Proof.
  unfold run_frame. destruct (deviation_records f) as [records | why]; [| discriminate].
  cbn. intros [= <-]. exists records. split; [reflexivity |]. split; [reflexivity |].
  intros i. cbn [rows].
  pose proof (update_rows_same_data (rows f) records) as Hsame.
  rewrite blank_excluded_lookup, update_rows_lookup.
  destruct (rows f !! i) as [r |]; [| reflexivity].
  cbn [fmap option_fmap option_map]. f_equal. unfold final_row.
  set (u := if decide (target_index (rows f) (record_id r) = Some i)
            then match records !! record_id r with
                 | Some c => assign_counts c r
                 | None => r
                 end
            else r).
  assert (Hu : record_id u = record_id r /\ blank_counts u = blank_counts r).
  { subst u. destruct (decide _); [| auto].
    destruct (records !! record_id r); auto. }
  destruct Hu as [Hid Hblank]. rewrite Hid.
  destruct (decide (record_id r ∈ excluded_pids (rows f))) as [Hex | Hex].
  - rewrite decide_True by (now apply (excluded_pids_same_data _ _ _ Hsame)).
    exact Hblank.
  - rewrite decide_False; [reflexivity |].
    intros H. apply Hex. now apply (excluded_pids_same_data _ _ _ Hsame) in H.
Qed.

(** ** What [prepare] leaves *)

Lemma astype_Int64_length col statuses :
  astype_Int64 col = Completed statuses -> length statuses = length col.
Proof.
  unfold astype_Int64. destruct (forallb castable col); [| discriminate].
  intros [= <-]. apply length_fmap.
Qed.

Lemma prepare_rows (df : RawFrame) (f : Frame) :
  prepare df = Completed f ->
  length (rows f) = length (raw_rows df) /\
  forall i r, rows f !! i = Some r ->
    exists raw, raw_rows df !! i = Some raw /\
      r = convert_row (raw_columns df) raw
            (to_Int64 (to_numeric (raw_participant_status raw))).
Proof.
  unfold prepare.
  destruct (has_column _ PARTICIPANT_ID_COL); [| discriminate].
  destruct (has_column _ STATUS_COL); [| discriminate]. cbn.
  unfold astype_Int64.
  destruct (forallb castable _); [| discriminate]. cbn.
  destruct (has_column _ EVENT_NAME_COL); [| discriminate]. cbn.
  intros [= <-]. cbn [rows]. split.
  - rewrite length_zip_with, !length_fmap. lia.
  - intros i r Hr. apply lookup_zip_with_Some in Hr as (raw & st & -> & Hraw & Hst).
    exists raw. split; [exact Hraw |].
    rewrite <- list_fmap_compose, list_lookup_fmap, Hraw in Hst.
    now injection Hst as <-.
Qed.

Lemma prepare_no_counts (df : RawFrame) (f : Frame) (r : Row) :
  prepare df = Completed f -> r ∈ rows f -> counts_of r = no_counts.
Proof.
  intros Hp Hr. apply list_elem_of_lookup in Hr as [i Hi].
  destruct (prepare_rows df f Hp) as [_ H].
  destruct (H i r Hi) as (raw & _ & ->). reflexivity.
Qed.

(** ** The final table *)

Lemma final_row_data rs records i r : data_of (final_row rs records i r) = data_of r.
Proof.
  unfold final_row. destruct (decide _); [reflexivity |].
  destruct (decide _); [| reflexivity]. now destruct (records !! record_id r).
Qed.

Lemma run_frame_same_data (f out : Frame) :
  run_frame f = Completed out ->
  Forall2 (fun r r' => data_of r = data_of r') (rows f) (rows out).
Proof.
  intros H. apply run_frame_rows in H as (records & _ & _ & Hrows).
  eapply same_data_lookup; [exact Hrows |]. intros i r. apply final_row_data.
Qed.

(** Every stored record belongs to a participant with a baseline row, and
    is what the loop body computed for that participant. *)
Lemma records_origin (f : Frame) (records : gmap string Counts) (k : string)
    (c : Counts) :
  deviation_records f = Completed records -> records !! k = Some c ->
  (exists r, r ∈ rows f /\ is_baseline_row r /\ record_id r = k) /\
  (exists performed p, pid p = k /\
     recalc EXPECTED_FOLLOWUP_SCHEDULE performed p = Some c).
Proof.
  unfold deviation_records.
  destruct (final_baselines f) as [baselines |]; [| discriminate]. cbn.
  destruct (performed_tests_df f) as [tests |]; [| discriminate]. cbn.
  intros [= <-] Hk. unfold calculated_counts in Hk.
  apply store_counts_origin in Hk as [Hk | (p & Hp & Hpid & Hc)];
    [now rewrite lookup_empty in Hk |].
  split; [| eauto].
  apply list_elem_of_filter in Hp as [_ Hp].
  apply elem_of_merge_baselines in Hp as (r & b & Hr & _ & _ & ->).
  apply elem_of_drop_duplicates, list_elem_of_filter in Hr as [Hbase Hr].
  exists r. auto.
Qed.

Lemma run_unfold (df : RawFrame) (out : Frame) :
  run df = Completed out ->
  exists f, prepare df = Completed f /\ run_frame f = Completed out.
Proof.
  unfold run. destruct (prepare df) as [f |]; [| discriminate]. cbn. eauto.
Qed.

(** C4. When a baseline row of a participant carries status 5, every row
    of that participant has all three count cells blank in the final table,
    whatever the input held in the count columns and whether or not counts
    were computed for the participant. *)
Theorem status5_counts_blank (df : RawFrame) (f out : Frame) (participant : string) :
  prepare df = Completed f ->
  run df = Completed out ->
  (exists r, r ∈ rows f /\ is_baseline_row r /\ record_id r = participant /\
             participant_status r = Some 5) ->
  forall r', r' ∈ rows out -> record_id r' = participant ->
    missed_test_count r' = None /\
    outside_window_test_count r' = None /\
    total_test_deviations r' = None.
Proof.
  intros Hprep Hrun (r & Hr & Hbase & Hid & Hst) r' Hr' Hid'.
  apply run_unfold in Hrun as (f' & Hprep' & Hrun).
  rewrite Hprep in Hprep'. injection Hprep' as <-.
  apply run_frame_rows in Hrun as (records & _ & _ & Hrows).
  apply list_elem_of_lookup in Hr' as [i Hi]. rewrite Hrows in Hi.
  destruct (rows f !! i) as [r0 |]; [| discriminate].
  injection Hi as <-.
  pose proof (final_row_data (rows f) records i r0) as Hdata.
  assert (Hid0 : record_id r0 = participant) by (injection Hdata as <-; exact Hid').
  unfold final_row. rewrite decide_True; [now repeat split |].
  apply elem_of_excluded_pids. exists r. split; [exact Hr |].
  split; [| congruence]. split; [exact Hbase |]. now rewrite Hst.
Qed.

Lemma status5_counts_blank_witness :
  Forall (fun r' => record_id r' = "P6" -> missed_test_count r' = None)
    (rows sample_output).
Proof.
  apply Forall_forall. intros r' Hr' Hid.
  refine (proj1 (status5_counts_blank sample_table sample_converted sample_output
                   "P6" _ _ _ r' Hr' Hid)).
  - vm_compute. reflexivity.
  - vm_compute. reflexivity.
  - exists (mkRow "P6" "study_baseline" (Some (date 2022 1 1)) None (Some 5)
              None None None None None).
    split; [| repeat split; discriminate].
    do 7 apply list_elem_of_further. apply list_elem_of_here.
Defined.

Lemma assigned_counts_neq (c : Counts) (r : Row) :
  counts_of (assign_counts c r) <> no_counts.
Proof. discriminate. Qed.

(** Where a row of the final table has a count, by the row of the converted
    table at the same index. *)
Lemma final_row_counts (f : Frame) (records : gmap string Counts) (i : nat) (r : Row) :
  counts_of r = no_counts ->
  counts_of (final_row (rows f) records i r) = no_counts \/
  exists c, records !! record_id r = Some c /\
            final_row (rows f) records i r = assign_counts c r /\
            (record_id r ∉ excluded_pids (rows f)) /\
            target_index (rows f) (record_id r) = Some i.
Proof.
  intros Hnone. unfold final_row.
  destruct (decide (record_id r ∈ _)) as [Hex | Hex]; [now left |].
  destruct (decide (target_index _ _ = Some i)) as [Hti | Hti]; [| now left].
  destruct (records !! record_id r) as [c |] eqn:Hc; [| now left].
  right. exists c. auto.
Qed.

(** C8. In the final table a row has a count cell that is not blank only
    if it is the first baseline-event row of a participant with a
    non-empty identifier for whom counts were stored and who is not
    excluded; it then holds exactly the stored counts.  Rows of other
    events, rows with an empty identifier and rows of excluded participants
    are blank in all three cells, at most one row per participant has
    counts, the table keeps its length, and in every row the columns other
    than the three count columns are those of the converted input row. *)
Theorem counts_on_first_baseline_row (df : RawFrame) (out : Frame) :
  run df = Completed out ->
  exists f records,
    prepare df = Completed f /\
    run_records df = Completed records /\
    length (rows out) = length (raw_rows df) /\
    (forall i r', rows out !! i = Some r' ->
       exists raw r,
         raw_rows df !! i = Some raw /\
         rows f !! i = Some r /\
         r = convert_row (raw_columns df) raw
               (to_Int64 (to_numeric (raw_participant_status raw))) /\
         data_of r' = data_of r /\
         (counts_of r' = no_counts \/
          exists c,
            records !! record_id r' = Some c /\
            counts_of r' = (Some (missed_count c), Some (outside_window_count c),
                            Some (total_deviations c)) /\
            event_name r' = BASELINE_EVENT_NAME /\
            record_id r' <> "" /\
            (record_id r' ∉ excluded_pids (rows f)) /\
            target_index (rows out) (record_id r') = Some i) /\
         (event_name r' <> BASELINE_EVENT_NAME -> counts_of r' = no_counts) /\
         (record_id r' = "" -> counts_of r' = no_counts) /\
         (record_id r' ∈ excluded_pids (rows f) -> counts_of r' = no_counts) /\
         (records !! record_id r' = None -> counts_of r' = no_counts)) /\
    (forall i j ri rj,
       rows out !! i = Some ri -> rows out !! j = Some rj ->
       record_id ri = record_id rj ->
       counts_of ri <> no_counts -> counts_of rj <> no_counts -> i = j).
Proof.
  intros Hrun. destruct (run_unfold df out Hrun) as (f & Hprep & Hframe).
  pose proof (run_frame_same_data f out Hframe) as Hsame.
  destruct (run_frame_rows f out Hframe) as (records & Hrec & _ & Hrows).
  destruct (prepare_rows df f Hprep) as [Hlen Hconv].
  exists f, records. split; [exact Hprep |].
  split; [unfold run_records; rewrite Hprep; exact Hrec |].
  split; [rewrite <- Hlen; symmetry; eapply Forall2_length; exact Hsame |].
  assert (Hrow : forall i r', rows out !! i = Some r' ->
            exists r, rows f !! i = Some r /\ r' = final_row (rows f) records i r /\
                      counts_of r = no_counts).
  { intros i r' Hi. rewrite Hrows in Hi.
    destruct (rows f !! i) as [r |] eqn:Hr; [| discriminate].
    injection Hi as <-. exists r. split; [reflexivity |]. split; [reflexivity |].
    eapply prepare_no_counts; [exact Hprep |].
    eapply list_elem_of_lookup_2; exact Hr. }
  assert (Hcases : forall i r', rows out !! i = Some r' ->
            counts_of r' = no_counts \/
            exists c,
              records !! record_id r' = Some c /\
              counts_of r' = (Some (missed_count c), Some (outside_window_count c),
                              Some (total_deviations c)) /\
              event_name r' = BASELINE_EVENT_NAME /\
              record_id r' <> "" /\
              (record_id r' ∉ excluded_pids (rows f)) /\
              target_index (rows out) (record_id r') = Some i).
  { intros i r' Hi. destruct (Hrow i r' Hi) as (r & Hr & -> & Hnone).
    destruct (final_row_counts f records i r Hnone)
      as [Hblank | (c & Hc & -> & Hex & Hti)]; [now left |].
    right. exists c. change (record_id (assign_counts c r)) with (record_id r).
    change (event_name (assign_counts c r)) with (event_name r).
    split; [exact Hc |]. split; [reflexivity |].
    pose proof Hti as Hti'.
    apply target_index_Some in Hti' as (r0 & Hr0 & [_ Hev] & _).
    rewrite Hr in Hr0. injection Hr0 as <-.
    split; [exact Hev |].
    destruct (records_origin f records _ c Hrec Hc) as [(rb & _ & [_ Hne] & Hid) _].
    split; [congruence |]. split; [exact Hex |].
    rewrite <- (target_index_same_data _ _ _ Hsame). exact Hti. }
  split.
  - intros i r' Hi. destruct (Hrow i r' Hi) as (r & Hr & Hfinal & Hnone).
    destruct (Hconv i r Hr) as (raw & Hraw & Hconvert).
    exists raw, r. split; [exact Hraw |]. split; [exact Hr |].
    split; [exact Hconvert |].
    split; [rewrite Hfinal; apply final_row_data |].
    split; [now apply (Hcases i) |].
    destruct (Hcases i r' Hi) as [Hblank | (c & Hc & _ & Hev & Hne & Hex & _)].
    + repeat split; intros _; exact Hblank.
    + repeat split; intros Hcontra; congruence || contradiction.
  - intros i j ri rj Hi Hj Hid Hci Hcj.
    destruct (Hcases i ri Hi) as [? | (_ & _ & _ & _ & _ & _ & Hti)]; [contradiction |].
    destruct (Hcases j rj Hj) as [? | (_ & _ & _ & _ & _ & _ & Htj)]; [contradiction |].
    rewrite Hid in Hti. congruence.
Qed.

Lemma counts_on_first_baseline_row_witness :
  length (rows sample_output) = 8%nat.
Proof.
  assert (Hrun : run sample_table = Completed sample_output)
    by (vm_compute; reflexivity).
  destruct (counts_on_first_baseline_row sample_table sample_output Hrun)
    as (f & records & _ & _ & Hlen & _).
  exact Hlen.
Defined.

(** Each row of the final table, by the loaded row at the same index:
    everything but the counts is the converted loaded row. *)
Lemma final_rows_from_loaded (df : RawFrame) (f out : Frame) :
  prepare df = Completed f -> run_frame f = Completed out ->
  length (rows out) = length (raw_rows df) /\
  forall i r', rows out !! i = Some r' ->
    exists raw, raw_rows df !! i = Some raw /\
      data_of r' = data_of (convert_row (raw_columns df) raw
                              (to_Int64 (to_numeric (raw_participant_status raw)))).
Proof.
  intros Hprep Hframe.
  pose proof (run_frame_same_data f out Hframe) as Hsame.
  destruct (prepare_rows df f Hprep) as [Hlen Hconv].
  split; [rewrite <- Hlen; symmetry; eapply Forall2_length; exact Hsame |].
  intros i r' Hi.
  destruct (Forall2_lookup_r _ _ _ _ _ Hsame Hi) as (r & Hr & Hdata).
  destruct (Hconv i r Hr) as (raw & Hraw & ->).
  exists raw. split; [exact Hraw | now symmetry].
Qed.

(** ** Missing columns and malformed cells *)

Lemma prepare_completes (df : RawFrame) :
  has_column (raw_columns df) PARTICIPANT_ID_COL = true ->
  has_column (raw_columns df) STATUS_COL = true ->
  has_column (raw_columns df) EVENT_NAME_COL = true ->
  statuses_castable df = true ->
  exists f, prepare df = Completed f.
Proof.
  intros Hid Hst Hev Hcast. unfold prepare, astype_Int64.
  unfold statuses_castable in Hcast. rewrite Hid, Hst, Hcast. cbn.
  rewrite Hev. cbn. eauto.
Qed.

Lemma has_column_add_output_columns (cols : list string) (col : string) :
  col ∈ INPUT_COLUMNS ->
  has_column (add_output_columns cols) col = has_column cols col.
Proof.
  intros Hcol. unfold add_output_columns. simpl.
  assert (Hstep : forall cs extra, col <> extra ->
            has_column (if has_column cs extra then cs else cs ++ [extra]) col
            = has_column cs col).
  { intros cs extra Hne. destruct (has_column cs extra); [reflexivity |].
    unfold has_column. apply bool_decide_ext.
    rewrite elem_of_app, list_elem_of_singleton. tauto. }
  assert (Hne : col <> MISSED_TEST_COUNT_COL /\ col <> OUTSIDE_WINDOW_COUNT_COL /\
                col <> TOTAL_DEVIATION_COUNT_COL).
  { unfold INPUT_COLUMNS in Hcol.
    repeat (apply elem_of_cons in Hcol as [-> | Hcol]; [repeat split; discriminate |]).
    now apply elem_of_nil in Hcol. }
  destruct Hne as (H1 & H2 & H3).
  now rewrite !Hstep by assumption.
Qed.

Lemma deviation_records_completes (f : Frame) :
  has_column (columns f) TEST_DATE_COL = true ->
  exists records, deviation_records f = Completed records.
Proof.
  intros Ht. unfold deviation_records, final_baselines, performed_tests_df.
  rewrite Ht. cbn. eauto.
Qed.

Lemma prepare_columns (df : RawFrame) (f : Frame) :
  prepare df = Completed f -> columns f = add_output_columns (raw_columns df).
Proof.
  unfold prepare.
  destruct (has_column _ PARTICIPANT_ID_COL); [| discriminate].
  destruct (has_column _ STATUS_COL); [| discriminate]. cbn.
  destruct (astype_Int64 _); [| discriminate]. cbn.
  destruct (has_column _ EVENT_NAME_COL); [| discriminate]. cbn.
  now intros [= <-].
Qed.

Lemma elem_of_INPUT_COLUMNS :
  PARTICIPANT_ID_COL ∈ INPUT_COLUMNS /\ STATUS_COL ∈ INPUT_COLUMNS /\
  EVENT_NAME_COL ∈ INPUT_COLUMNS /\ TEST_DATE_COL ∈ INPUT_COLUMNS /\
  VISIT_DATE_COL ∈ INPUT_COLUMNS /\ ENDPOINT_DATE_1_COL ∈ INPUT_COLUMNS /\
  ENDPOINT_DATE_2_COL ∈ INPUT_COLUMNS.
Proof. repeat split; now apply (bool_decide_unpack _). Qed.

(** A status cell with a fractional part is refused by the integer cast and
    stops the run. *)
Example fractional_status_aborts :
  run (mkRawFrame ALL_COLUMNS
         [ raw_sample_row "P1" "study_baseline" (DateCell (date 2022 1 1))
             (StatusFraction "1.5") DateBlank ])
  = Aborted CastError.
Proof. reflexivity. Qed.

Example sample_without_visit_date_counts :
  (fun records => records !! "P1") <$> completed (run_records sample_table_no_visit_date)
  = Some (Some (mkCounts 8 0 8)).
Proof. vm_compute. reflexivity. Qed.

(** ** Running again *)

Lemma rstrip_idempotent (s : string) : rstrip (rstrip s) = rstrip s.
Proof.
  induction s as [| c rest IH]; [reflexivity |].
  simpl. destruct (rstrip rest) as [| k kept] eqn:E.
  - destruct (is_space c) eqn:Hc; [reflexivity |]. simpl. now rewrite Hc.
  - simpl. simpl in IH. now rewrite IH.
Qed.

Lemma lstrip_head (s : string) :
  lstrip s = EmptyString \/
  exists c rest, lstrip s = String c rest /\ is_space c = false.
Proof.
  induction s as [| c rest IH]; [now left |].
  simpl. destruct (is_space c) eqn:Hc; [exact IH |]. right. eauto.
Qed.

Lemma rstrip_head (c : Ascii.ascii) (rest : string) :
  is_space c = false -> exists kept, rstrip (String c rest) = String c kept.
Proof.
  intros Hc. simpl. destruct (rstrip rest); [rewrite Hc |]; eauto.
Qed.

Lemma strip_idempotent (s : string) : strip (strip s) = strip s.
Proof.
  unfold strip. destruct (lstrip_head s) as [-> | (c & rest & -> & Hc)];
    [reflexivity |].
  destruct (rstrip_head c rest Hc) as [kept Hk]. rewrite Hk.
  simpl lstrip. rewrite Hc, <- Hk. apply rstrip_idempotent.
Qed.

Lemma clean_participant_id_reload (cell : option string) :
  clean_participant_id (Some (clean_participant_id cell)) = clean_participant_id cell.
Proof. unfold clean_participant_id. simpl. apply strip_idempotent. Qed.

Lemma add_output_columns_elem (cols : list string) (col : string) :
  col ∈ add_output_columns cols <->
  col ∈ cols \/ col ∈ [MISSED_TEST_COUNT_COL; OUTSIDE_WINDOW_COUNT_COL;
                       TOTAL_DEVIATION_COUNT_COL].
Proof.
  unfold add_output_columns.
  generalize [MISSED_TEST_COUNT_COL; OUTSIDE_WINDOW_COUNT_COL; TOTAL_DEVIATION_COUNT_COL].
  intros extra. revert cols. induction extra as [| e extra IH]; intros cols.
  - simpl. rewrite elem_of_nil. tauto.
  - simpl. rewrite IH, elem_of_cons. unfold has_column.
    destruct (bool_decide (e ∈ cols)) eqn:He.
    + apply bool_decide_eq_true in He. split; [tauto |].
      intros [H | [-> | H]]; auto.
    + rewrite elem_of_app, list_elem_of_singleton. tauto.
Qed.

Lemma add_output_columns_present (cols : list string) :
  MISSED_TEST_COUNT_COL ∈ cols -> OUTSIDE_WINDOW_COUNT_COL ∈ cols ->
  TOTAL_DEVIATION_COUNT_COL ∈ cols ->
  add_output_columns cols = cols.
Proof.
  intros H1 H2 H3. unfold add_output_columns, has_column. cbn [foldl].
  rewrite (bool_decide_eq_true_2 _ H1), (bool_decide_eq_true_2 _ H2),
    (bool_decide_eq_true_2 _ H3). reflexivity.
Qed.

Lemma add_output_columns_idempotent (cols : list string) :
  add_output_columns (add_output_columns cols) = add_output_columns cols.
Proof.
  apply add_output_columns_present; apply add_output_columns_elem; right;
    now apply (bool_decide_unpack _).
Qed.

Lemma deviation_records_ext (f f' : Frame) :
  rows f = rows f' ->
  (forall col, col ∈ INPUT_COLUMNS ->
     has_column (columns f) col = has_column (columns f') col) ->
  deviation_records f = deviation_records f'.
Proof.
  destruct f as [cols rs], f' as [cols' rs']. cbn [rows columns].
  intros <- Hcols.
  destruct elem_of_INPUT_COLUMNS as (_ & _ & _ & Ht & Hv & H1 & H2).
  unfold deviation_records, final_baselines, performed_tests_df,
    participants_for_recalc, merge_baselines, get_endpoint, effective_baseline,
    baseline_event_rows, pinfo_raw.
  cbn [rows columns].
  now rewrite (Hcols _ Ht), (Hcols _ Hv), (Hcols _ H1), (Hcols _ H2).
Qed.

Lemma run_frame_ext (f f' : Frame) :
  rows f = rows f' ->
  (forall col, col ∈ INPUT_COLUMNS ->
     has_column (columns f) col = has_column (columns f') col) ->
  same_rows (run_frame f) (run_frame f').
Proof.
  intros Hrows Hcols. unfold run_frame.
  rewrite (deviation_records_ext f f' Hrows Hcols).
  destruct (deviation_records f'); cbn; [now rewrite Hrows | reflexivity].
Qed.

Lemma convert_row_ext (cols cols' : list string) (raw raw' : RawRow) st :
  (forall col, col ∈ INPUT_COLUMNS -> has_column cols col = has_column cols' col) ->
  raw_data_of raw = raw_data_of raw' ->
  convert_row cols raw st = convert_row cols' raw' st.
Proof.
  intros Hcols [= Hid Hev Ht Hv _ H1 H2].
  destruct elem_of_INPUT_COLUMNS as (_ & _ & _ & Ht' & Hv' & H1' & H2').
  unfold convert_row, convert_date.
  now rewrite Hid, Hev, Ht, Hv, H1, H2, (Hcols _ Ht'), (Hcols _ Hv'),
    (Hcols _ H1'), (Hcols _ H2').
Qed.

Lemma prepare_same_input (df df' : RawFrame) :
  same_input df df' ->
  match prepare df, prepare df' with
  | Completed f, Completed f' =>
      rows f = rows f' /\
      forall col, col ∈ INPUT_COLUMNS ->
        has_column (columns f) col = has_column (columns f') col
  | Aborted why, Aborted why' => why = why'
  | _, _ => False
  end.
Proof.
  destruct df as [cols rs], df' as [cols' rs'].
  unfold same_input. cbn [raw_columns raw_rows]. intros [Hcols Hrows].
  destruct elem_of_INPUT_COLUMNS as (Hid & Hst & Hev & _).
  assert (Hstatus : to_numeric ∘ raw_participant_status <$> rs
                    = to_numeric ∘ raw_participant_status <$> rs').
  { induction Hrows as [| r r' l l' Hr _ IH]; [reflexivity |].
    rewrite !fmap_cons, IH. injection Hr as _ _ _ _ Hs _ _. cbn. now rewrite Hs. }
  unfold prepare. cbn [raw_columns raw_rows].
  rewrite <- (Hcols _ Hid), <- (Hcols _ Hst), <- (Hcols _ Hev), <- Hstatus.
  destruct (has_column _ PARTICIPANT_ID_COL); cbn; [| reflexivity].
  destruct (has_column _ STATUS_COL); cbn; [| reflexivity].
  unfold astype_Int64. destruct (forallb castable _); cbn; [| reflexivity].
  destruct (has_column _ EVENT_NAME_COL); cbn; [| reflexivity].
  split.
  - generalize (to_Int64 <$> (to_numeric ∘ raw_participant_status <$> rs)).
    clear Hstatus.
    induction Hrows as [| r r' l l' Hr _ IH]; intros statuses; [reflexivity |].
    destruct statuses as [| st statuses]; [reflexivity |]. cbn.
    now rewrite IH, (convert_row_ext _ cols' r r' st Hcols Hr).
  - intros col Hcol.
    change (has_column (add_output_columns cols) col
            = has_column (add_output_columns cols') col).
    rewrite !has_column_add_output_columns by assumption.
    now apply Hcols.
Qed.

Lemma prepare_inv (df : RawFrame) (f : Frame) :
  prepare df = Completed f ->
  has_column (raw_columns df) PARTICIPANT_ID_COL = true /\
  has_column (raw_columns df) STATUS_COL = true /\
  has_column (raw_columns df) EVENT_NAME_COL = true.
Proof.
  unfold prepare.
  destruct (has_column _ PARTICIPANT_ID_COL); [| discriminate].
  destruct (has_column _ STATUS_COL); [| discriminate]. cbn.
  destruct (astype_Int64 _); [| discriminate]. cbn.
  destruct (has_column _ EVENT_NAME_COL); [| discriminate]. auto.
Qed.

Lemma prepare_castable (df : RawFrame) (f : Frame) :
  prepare df = Completed f -> statuses_castable df = true.
Proof.
  unfold prepare, astype_Int64, statuses_castable.
  destruct (has_column _ PARTICIPANT_ID_COL); [| discriminate].
  destruct (has_column _ STATUS_COL); [| discriminate]. cbn.
  now destruct (forallb castable _).
Qed.

Lemma reload_castable (rs : list Row) :
  Forall (fun r => forall z, participant_status r = Some z ->
                             castable (Integral z) = true) rs ->
  forallb castable (to_numeric ∘ raw_participant_status <$> (reload_row <$> rs)) = true.
Proof.
  induction 1 as [| r rs Hr Hrs IH]; [reflexivity |].
  cbn [fmap list_fmap forallb]. fold (fmap (M:=list) reload_row rs).
  fold (fmap (M:=list) (to_numeric ∘ raw_participant_status) (reload_row <$> rs)).
  rewrite IH, andb_true_r. cbn.
  destruct (participant_status r) as [z |]; [now apply Hr | reflexivity].
Qed.

Lemma convert_date_reload (cols cols' : list string) (col : string) (cell : RawDateCell) :
  has_column cols' col = has_column cols col ->
  convert_date cols' col (reload_date (convert_date cols col cell))
  = convert_date cols col cell.
Proof.
  intros Hcol. unfold convert_date. rewrite Hcol.
  destruct (has_column cols col); [| reflexivity]. now destruct cell.
Qed.

(** Loading the table a run left gives back the converted table of that
    run. *)
Lemma prepare_reload (df : RawFrame) (f out : Frame) :
  prepare df = Completed f -> run_frame f = Completed out ->
  prepare (reload out) = Completed f.
Proof.
  intros Hprep Hframe.
  destruct (prepare_inv df f Hprep) as (Hid & Hst & Hev).
  pose proof (prepare_columns df f Hprep) as Hcols.
  destruct (run_frame_rows f out Hframe) as (_ & _ & Hout & _).
  destruct (final_rows_from_loaded df f out Hprep Hframe) as [Hlen Hrows].
  destruct (prepare_rows df f Hprep) as [Hlenf Hconv].
  destruct elem_of_INPUT_COLUMNS as (Hid' & Hst' & Hev' & Ht' & Hv' & H1' & H2').
  assert (Hhas : forall col, col ∈ INPUT_COLUMNS ->
            has_column (columns out) col = has_column (raw_columns df) col).
  { intros col Hcol. rewrite Hout, Hcols. now apply has_column_add_output_columns. }
  assert (Hfit : Forall (fun r => forall z, participant_status r = Some z ->
                                           castable (Integral z) = true) (rows out)).
  { apply Forall_forall. intros r' Hin z Hz.
    apply list_elem_of_lookup in Hin as [i Hi].
    destruct (Hrows i r' Hi) as (raw & Hraw & Hdata).
    injection Hdata as _ _ _ _ Hps _ _. cbn in Hps. rewrite Hz in Hps.
    pose proof (prepare_castable df f Hprep) as Hcast.
    unfold statuses_castable in Hcast.
    rewrite forallb_forall in Hcast.
    specialize (Hcast (to_numeric (raw_participant_status raw))).
    destruct (to_numeric (raw_participant_status raw)) as [z' | |] eqn:Hnum;
      try discriminate.
    injection Hps as ->. apply Hcast. apply list_elem_of_In.
    apply list_elem_of_fmap. exists raw. split; [now rewrite <- Hnum |].
    eapply list_elem_of_lookup_2. exact Hraw. }
  unfold prepare, astype_Int64. cbn [raw_columns raw_rows reload].
  rewrite (Hhas _ Hid'), (Hhas _ Hst'), (Hhas _ Hev'), Hid, Hst, Hev,
    (reload_castable _ Hfit).
  cbn. f_equal. destruct f as [cols rs]. cbn [columns rows] in *. f_equal.
  - rewrite Hout, Hcols. apply add_output_columns_idempotent.
  - apply list_eq. intros i. rewrite lookup_zip_with, !list_lookup_fmap.
    destruct (rows out !! i) as [r' |] eqn:Hr'.
    + destruct (Hrows i r' Hr') as (raw & Hraw & Hdata).
      destruct (lookup_lt_is_Some_2 rs i) as [r Hr].
      { rewrite Hlenf. eapply lookup_lt_Some. exact Hraw. }
      destruct (Hconv i r Hr) as (raw0 & Hraw0 & ->).
      rewrite Hraw in Hraw0. injection Hraw0 as <-.
      rewrite Hr. cbn. f_equal.
      injection Hdata as Hrid Hrev Htd Hvd Hps Hp1 Hp2.
      unfold convert_row at 1. cbn [raw_record_id raw_event_name raw_test_date
        raw_visit_date raw_participant_status raw_primary_endpoint_date
        raw_secondary_endpoint_date reload_row].
      rewrite Hrid, Hrev, Htd, Hvd, Hps, Hp1, Hp2.
      rewrite clean_participant_id_reload.
      rewrite !convert_date_reload by (now apply Hhas).
      unfold convert_row. f_equal.
      now destruct (raw_participant_status raw).
    + cbn. symmetry. apply lookup_ge_None_2.
      apply lookup_ge_None_1 in Hr'. rewrite Hlenf, <- Hlen. exact Hr'.
Qed.

(** C5. The records of a run depend on the input rows only, not on what
    the three count columns hold or whether they exist: two tables that
    agree on the input columns give the same records and the same final
    rows (or stop for the same reason).  A second run over the table the
    first run left computes the same records and leaves the same table. *)
Theorem run_idempotent (df df' : RawFrame) :
  same_input df df' ->
  run_records df' = run_records df /\
  same_rows (run df) (run df') /\
  (forall out, run df = Completed out ->
     run_records (reload out) = run_records df /\
     run (reload out) = Completed out).
Proof.
  intros Hsame. pose proof (prepare_same_input df df' Hsame) as Hprep.
  split; [| split].
  - unfold run_records.
    destruct (prepare df) as [f |], (prepare df') as [f' |]; cbn;
      try contradiction; [| now rewrite Hprep].
    destruct Hprep as [Hrows Hcols]. symmetry. now apply deviation_records_ext.
  - unfold run.
    destruct (prepare df) as [f |], (prepare df') as [f' |]; cbn;
      try contradiction; [| exact Hprep].
    destruct Hprep as [Hrows Hcols]. now apply run_frame_ext.
  - intros out Hrun. destruct (run_unfold df out Hrun) as (f & Hf & Hframe).
    pose proof (prepare_reload df f out Hf Hframe) as Hre.
    unfold run_records, run. rewrite Hre, Hf. cbn. split; [reflexivity | exact Hframe].
Qed.

Lemma run_idempotent_witness :
  run_records sample_table_other_counts = run_records sample_table /\
  run (reload sample_output) = Completed sample_output.
Proof.
  assert (Hsame : same_input sample_table sample_table_other_counts).
  { split.
    - intros col Hcol. unfold INPUT_COLUMNS in Hcol.
      repeat (apply elem_of_cons in Hcol as [-> | Hcol]; [reflexivity |]).
      now apply elem_of_nil in Hcol.
    - repeat constructor. }
  destruct (run_idempotent sample_table sample_table_other_counts Hsame)
    as (Hrec & _ & Hagain).
  split; [exact Hrec |].
  apply Hagain. vm_compute. reflexivity.
Defined.

(** * Further properties *)

(** ** The counts as numbers of events *)

Lemma count_where_nil {A} (test : A -> bool) : count_where test [] = 0.
Proof. reflexivity. Qed.

Lemma count_where_cons {A} (test : A -> bool) (x : A) (l : list A) :
  count_where test (x :: l) = (if test x then 1 else 0) + count_where test l.
Proof.
  unfold count_where. rewrite filter_cons.
  destruct (test x) eqn:E.
  - rewrite decide_True by reflexivity. simpl length. lia.
  - rewrite decide_False by discriminate. lia.
Qed.

Lemma count_where_app {A} (test : A -> bool) (l k : list A) :
  count_where test (l ++ k) = count_where test l + count_where test k.
Proof.
  unfold count_where. rewrite filter_app, length_app. lia.
Qed.

Lemma check_performed_tally performed pid (se : Timestamp * string) (t : Tally) :
  let t' := check_performed se.1 (dict_get performed (pid, se.2)) t in
  recalc_missed t' = recalc_missed t + (if event_missed performed pid se then 1 else 0) /\
  recalc_outside_window t' =
    recalc_outside_window t + (if event_outside performed pid se then 1 else 0).
Proof.
  unfold event_missed, event_outside, isna, notna.
  destruct (dict_get performed (pid, se.2)) as [d |]; simpl.
  - destruct (outside_grace_window se.1 d); simpl; lia.
  - lia.
Qed.

Lemma followups_tally performed pid st base h (schedule : list (Z * string)) :
  forall t : Tally,
  let evs := filter (fun se : Timestamp * string => is_expected st se.1 h = true)
               ((fun entry : Z * string => (add_months base entry.1, entry.2))
                  <$> schedule) in
  let t' := foldl (check_followup performed pid st base h) t schedule in
  recalc_missed t' = recalc_missed t + count_where (event_missed performed pid) evs /\
  recalc_outside_window t' =
    recalc_outside_window t + count_where (event_outside performed pid) evs.
Proof.
  induction schedule as [| entry rest IH]; intros t.
  - unfold count_where. simpl. lia.
  - cbn zeta in *. simpl foldl. rewrite fmap_cons, filter_cons.
    destruct (IH (check_followup performed pid st base h t entry)) as [IHm IHo].
    rewrite IHm, IHo. unfold check_followup. cbn [fst snd].
    destruct (is_expected st (add_months base entry.1) h) eqn:E.
    + rewrite decide_True by reflexivity. rewrite !count_where_cons.
      destruct (check_performed_tally performed pid
                  (add_months base entry.1, entry.2) t) as [Hm Ho].
      simpl in Hm, Ho. rewrite Hm, Ho. lia.
    + rewrite decide_False by discriminate. lia.
Qed.

(** The two counters of the loop body are the numbers of expected tests
    without a performed date and with one outside the window. *)
Lemma recalc_tally schedule performed (p : Participant) (c : Counts) :
  recalc schedule performed p = Some c ->
  exists st,
    status p = Some st /\
    let evs := expected_events schedule st (base_dt p)
                 (participant_end_point_date schedule st (base_dt p)
                    (endpoint1_dt p) (endpoint2_dt p)) in
    missed_count c = count_where (event_missed performed (pid p)) evs /\
    outside_window_count c = count_where (event_outside performed (pid p)) evs.
Proof.
  unfold recalc. destruct (status p) as [st |]; [| discriminate].
  destruct (bool_decide (st ∈ [2; 3; 4]) && isna _); [discriminate |].
  intros [= <-]. exists st. split; [reflexivity |]. cbn zeta.
  set (h := participant_end_point_date schedule st (base_dt p)
              (endpoint1_dt p) (endpoint2_dt p)).
  cbn [missed_count outside_window_count].
  destruct (followups_tally performed (pid p) st (base_dt p) h schedule
              (check_baseline performed (pid p) st (base_dt p) h (mkTally 0 0)))
    as [Hm Ho].
  rewrite Hm, Ho. unfold expected_events. rewrite !count_where_app.
  unfold check_baseline. destruct (baseline_is_expected st (base_dt p) h).
  - destruct (check_performed_tally performed (pid p)
                (base_dt p, BASELINE_EVENT_NAME) (mkTally 0 0)) as [Hbm Hbo].
    simpl in Hbm, Hbo. rewrite Hbm, Hbo, !count_where_cons, !count_where_nil.
    simpl. lia.
  - rewrite !count_where_nil. simpl. lia.
Qed.

(** ** Scheduled dates in schedule order *)

Lemma isleap_cases (y : Z) :
  (Calendar.isleap y = true /\ y mod 4 = 0 /\ (y mod 100 <> 0 \/ y mod 400 = 0)) \/
  (Calendar.isleap y = false /\ (y mod 4 <> 0 \/ (y mod 100 = 0 /\ y mod 400 <> 0))).
Proof.
  unfold Calendar.isleap.
  destruct (y mod 4 =? 0) eqn:E4; destruct (y mod 100 =? 0) eqn:E100;
    destruct (y mod 400 =? 0) eqn:E400; simpl;
    rewrite ?Z.eqb_eq, ?Z.eqb_neq in *; intuition lia.
Qed.

Lemma days_before_year_succ (y : Z) :
  Calendar.days_before_year (y + 1) =
  Calendar.days_before_year y + 365 + (if Calendar.isleap y then 1 else 0).
Proof.
  unfold Calendar.days_before_year. cbn zeta.
  replace (y + 1 - 1) with y by lia.
  destruct (isleap_cases y) as [(-> & H4 & H100) | (-> & H)];
    Z.to_euclidean_division_equations; lia.
Qed.

Lemma days_before_month_succ (y m : Z) :
  1 <= m <= 11 ->
  Calendar.days_before_month y (m + 1) =
  Calendar.days_before_month y m + Calendar.monthrange y m.
Proof.
  intros Hm.
  assert (Hc : m = 1 \/ m = 2 \/ m = 3 \/ m = 4 \/ m = 5 \/ m = 6 \/ m = 7 \/
               m = 8 \/ m = 9 \/ m = 10 \/ m = 11) by lia.
  unfold Calendar.days_before_month, Calendar.monthrange.
  repeat (destruct Hc as [-> | Hc]); try subst m; simpl;
    destruct (Calendar.isleap y); reflexivity.
Qed.

Lemma month_start_succ (i : Z) :
  month_start (i + 1) =
  month_start i + Calendar.monthrange (i / 12) (i mod 12 + 1).
Proof.
  unfold month_start, Calendar.ymd2ord.
  pose proof (Z.mod_pos_bound i 12 ltac:(lia)) as Hr.
  destruct (decide (i mod 12 = 11)) as [H11 | H11].
  - assert (Hq : (i + 1) / 12 = i / 12 + 1) by (Z.to_euclidean_division_equations; lia).
    assert (Hm : (i + 1) mod 12 = 0) by (Z.to_euclidean_division_equations; lia).
    rewrite Hq, Hm, H11, days_before_year_succ.
    unfold Calendar.days_before_month, Calendar.monthrange. simpl.
    destruct (Calendar.isleap (i / 12)), (Calendar.isleap (i / 12 + 1)); lia.
  - assert (Hq : (i + 1) / 12 = i / 12) by (Z.to_euclidean_division_equations; lia).
    assert (Hm : (i + 1) mod 12 = i mod 12 + 1)
      by (Z.to_euclidean_division_equations; lia).
    rewrite Hq, Hm, (days_before_month_succ _ (i mod 12 + 1)) by lia. lia.
Qed.

Lemma month_start_later (i : Z) (n : nat) :
  month_start i + Calendar.monthrange (i / 12) (i mod 12 + 1)
  <= month_start (i + 1 + Z.of_nat n).
Proof.
  induction n as [| n IH].
  - rewrite Z.add_0_r, month_start_succ. lia.
  - replace (i + 1 + Z.of_nat (S n)) with ((i + 1 + Z.of_nat n) + 1) by lia.
    rewrite month_start_succ.
    pose proof (Z.mod_pos_bound (i + 1 + Z.of_nat n) 12 ltac:(lia)).
    pose proof (monthrange_lower ((i + 1 + Z.of_nat n) / 12)
                  ((i + 1 + Z.of_nat n) mod 12 + 1) ltac:(lia)).
    lia.
Qed.

Lemma ymd2ord_month_start (y m d : Z) :
  1 <= m <= 12 ->
  Calendar.ymd2ord y m d = month_start (12 * y + (m - 1)) + d - 1 /\
  (12 * y + (m - 1)) / 12 = y /\ (12 * y + (m - 1)) mod 12 + 1 = m.
Proof.
  intros Hm.
  assert (Hq : (12 * y + (m - 1)) / 12 = y) by (Z.to_euclidean_division_equations; lia).
  assert (Hr : (12 * y + (m - 1)) mod 12 = m - 1)
    by (Z.to_euclidean_division_equations; lia).
  unfold month_start, Calendar.ymd2ord. rewrite Hq, Hr.
  replace (m - 1 + 1) with m by lia. repeat split; lia.
Qed.

(** The calendar fields of [base_dt + relativedelta(months=N)]. *)
Lemma add_months_fields (b : Timestamp) (N : Z) :
  valid_date b -> 0 <= N ->
  let r := add_months b N in
  month_index r = month_index b + N /\
  1 <= month r <= 12 /\
  day r = Z.min (Calendar.monthrange (year r) (month r)) (day b) /\
  nanos_of_day r = nanos_of_day b.
Proof.
  intros [Hm Hd] HN r. unfold month_index.
  destruct (of_months_normal N HN) as [Hsum Hrange].
  subst r. unfold add_months, Relativedelta.radd.
  set (rd := Relativedelta.of_months N) in *.
  destruct (Relativedelta.months rd =? 0) eqn:E0.
  { apply Z.eqb_eq in E0. simpl. lia. }
  apply Z.eqb_neq in E0.
  destruct (12 <? month b + Relativedelta.months rd) eqn:E1.
  { apply Z.ltb_lt in E1. simpl. lia. }
  apply Z.ltb_ge in E1.
  destruct (month b + Relativedelta.months rd <? 1) eqn:E2.
  { apply Z.ltb_lt in E2. lia. }
  simpl. lia.
Qed.

Lemma value_add_months (b : Timestamp) (N : Z) :
  valid_date b -> 0 <= N ->
  let r := add_months b N in
  value r = (month_start (month_index b + N) + day r - 1 - EPOCH_ORDINAL)
              * NANOS_PER_DAY + nanos_of_day b /\
  1 <= day r <= Calendar.monthrange ((month_index b + N) / 12)
                                    ((month_index b + N) mod 12 + 1).
Proof.
  intros Hb HN r.
  destruct (add_months_fields b N Hb HN) as (Hidx & Hmr & Hday & Hns).
  fold r in Hidx, Hmr, Hday, Hns.
  destruct (ymd2ord_month_start (year r) (month r) (day r) Hmr) as (Hord & Hq & Hr).
  unfold month_index in *. rewrite <- Hidx.
  unfold value. rewrite Hord, Hns, Hq, Hr.
  split; [reflexivity |].
  pose proof (monthrange_lower (year r) (month r) Hmr).
  destruct Hb as [_ Hd]. lia.
Qed.

(** A larger offset never gives an earlier date, and a strictly larger one
    gives a strictly later date. *)
Lemma add_months_monotone (b : Timestamp) (n1 n2 : Z) :
  valid_date b -> 0 <= n1 -> n1 <= n2 ->
  value (add_months b n1) <= value (add_months b n2) /\
  (n1 < n2 -> value (add_months b n1) < value (add_months b n2)).
Proof.
  intros Hb H1 H12.
  destruct (decide (n1 = n2)) as [-> | Hne]; [split; lia |].
  assert (Hlt : value (add_months b n1) < value (add_months b n2)); [| split; lia].
  destruct (value_add_months b n1 Hb H1) as [Hv1 Hd1].
  destruct (value_add_months b n2 Hb ltac:(lia)) as [Hv2 Hd2].
  cbn zeta in *. rewrite Hv1, Hv2.
  pose proof (month_start_later (month_index b + n1) (Z.to_nat (n2 - n1 - 1))) as Hms.
  replace (month_index b + n1 + 1 + Z.of_nat (Z.to_nat (n2 - n1 - 1)))
    with (month_index b + n2) in Hms by lia.
  unfold NANOS_PER_DAY. lia.
Qed.

Lemma add_months_zero (b : Timestamp) : valid_date b -> add_months b 0 = b.
Proof.
  intros [Hm Hd]. unfold add_months, Relativedelta.radd. simpl.
  rewrite Z.add_0_r, Z.min_r by lia. now destruct b.
Qed.

Lemma count_where_nonneg {A} (test : A -> bool) (l : list A) : 0 <= count_where test l.
Proof. unfold count_where. lia. Qed.

Lemma count_where_zero {A} (test : A -> bool) (l : list A) :
  count_where test l = 0 <-> Forall (fun x => test x = false) l.
Proof.
  induction l as [| x l IH].
  - rewrite count_where_nil. split; [constructor | reflexivity].
  - rewrite count_where_cons, Forall_cons.
    pose proof (count_where_nonneg test l).
    destruct (test x); split.
    + lia.
    + intros [H1 _]. discriminate.
    + intros H0. split; [reflexivity | apply IH; lia].
    + intros [_ H2]. apply IH in H2. lia.
Qed.

Lemma count_where_all {A} (test : A -> bool) (l : list A) :
  Forall (fun x => test x = true) l -> count_where test l = Z.of_nat (length l).
Proof.
  induction 1 as [| x l Hx _ IH]; [reflexivity |].
  rewrite count_where_cons, Hx, IH. simpl length. lia.
Qed.

Lemma max_month_offset_ge (schedule : list (Z * string)) (entry : Z * string) :
  entry ∈ schedule -> entry.1 <= max_month_offset schedule.
Proof.
  assert (Hfold : forall (l : list Z) (a x : Z),
            a <= foldl Z.max a l /\ (x ∈ l -> x <= foldl Z.max a l)).
  { induction l as [| y l IH]; intros a x; simpl.
    - split; [lia |]. intros H. now apply elem_of_nil in H.
    - destruct (IH (Z.max a y) x) as [H1 H2].
      destruct (IH (Z.max a y) y) as [H3 _].
      split; [lia |]. intros H. apply elem_of_cons in H as [-> | H]; [lia | auto]. }
  destruct schedule as [| [off ev] rest]; intros Hin; [now apply elem_of_nil in Hin |].
  simpl. apply elem_of_cons in Hin as [-> | Hin].
  - apply (proj1 (Hfold (fst <$> rest) off off)).
  - apply (proj2 (Hfold (fst <$> rest) off entry.1)). now apply list_elem_of_fmap_2.
Qed.

(** Under status 1 the baseline and every entry of a schedule with
    non-negative offsets are expected. *)
Lemma expected_events_status_1 (schedule : list (Z * string)) (base : Timestamp)
    (e1 e2 : option Timestamp) :
  valid_date base -> Forall (fun entry => 0 <= entry.1) schedule ->
  expected_events schedule 1 base
    (participant_end_point_date schedule 1 base e1 e2)
  = (base, BASELINE_EVENT_NAME)
    :: ((fun entry => (add_months base entry.1, entry.2)) <$> schedule).
Proof.
  intros Hb Hnn. unfold expected_events, participant_end_point_date. simpl.
  f_equal.
  assert (Hall : forall entry, entry ∈ schedule ->
            is_expected 1 (add_months base entry.1)
              (Some (add_months base (max_month_offset schedule))) = true).
  { intros entry Hin. unfold is_expected, Timestamp_le. apply Z.leb_le.
    apply add_months_monotone; [exact Hb | | now apply max_month_offset_ge].
    eapply Forall_forall in Hnn; eassumption. }
  clear Hnn. set (mx := max_month_offset schedule) in *. clearbody mx.
  revert Hall. induction schedule as [| entry rest IH]; intros H; [reflexivity |].
  rewrite fmap_cons, filter_cons_True.
  - f_equal. apply IH. intros e He. apply H. now apply list_elem_of_further.
  - apply H. apply list_elem_of_here.
Qed.

(** When the end date lies before the baseline nothing is expected. *)
Lemma expected_events_before_baseline (schedule : list (Z * string)) (st : Z)
    (base hd : Timestamp) :
  valid_date base -> Forall (fun entry => 0 <= entry.1) schedule ->
  st <> 1 -> value hd < value base ->
  expected_events schedule st base (Some hd) = [].
Proof.
  intros Hb Hnn Hst Hlt. unfold expected_events, baseline_is_expected.
  rewrite (proj2 (Z.eqb_neq st 1) Hst), (Timestamp_le_false _ _ Hlt). simpl.
  induction Hnn as [| entry rest Hentry _ IH]; [reflexivity |].
  rewrite fmap_cons, filter_cons_False; [exact IH |].
  simpl. unfold is_expected. rewrite Timestamp_le_false; [discriminate |].
  destruct (add_months_monotone base 0 entry.1 Hb ltac:(lia) Hentry) as [Hle _].
  rewrite (add_months_zero base Hb) in Hle. lia.
Qed.

Lemma recalc_total (schedule : list (Z * string))
    (performed : gmap (string * string) (option Timestamp))
    (p : Participant) (c : Counts) :
  recalc schedule performed p = Some c ->
  total_deviations c = missed_count c + outside_window_count c.
Proof.
  unfold recalc. destruct (status p); [| discriminate]. cbv zeta.
  destruct (_ && _); [discriminate |]. now intros [= <-].
Qed.

Lemma count_where_either {A} (a b : A -> bool) (l : list A) :
  (forall x, a x = true -> b x = false) ->
  count_where (fun x => a x || b x) l = count_where a l + count_where b l.
Proof.
  intros Hab. induction l as [| x l IH]; [reflexivity |].
  rewrite !count_where_cons, IH.
  destruct (a x) eqn:Ha; [rewrite (Hab x Ha) | destruct (b x)]; simpl; lia.
Qed.

(** X1. When counts are computed for a participant, the missed count is
    the number of expected tests (the baseline when expected, then the
    expected schedule entries) without a performed date, the
    outside-window count is the number of expected tests whose performed
    date is outside the grace window of the scheduled date, and the total
    is the number of expected tests that are one or the other. *)
Theorem counts_are_event_counts (schedule : list (Z * string))
    (performed : gmap (string * string) (option Timestamp))
    (p : Participant) (c : Counts) :
  recalc schedule performed p = Some c ->
  exists st,
    status p = Some st /\
    let evs := expected_events schedule st (base_dt p)
                 (participant_end_point_date schedule st (base_dt p)
                    (endpoint1_dt p) (endpoint2_dt p)) in
    missed_count c = count_where (event_missed performed (pid p)) evs /\
    outside_window_count c = count_where (event_outside performed (pid p)) evs /\
    total_deviations c =
      count_where (fun se => event_missed performed (pid p) se ||
                             event_outside performed (pid p) se) evs.
Proof.
  intros Hc. destruct (recalc_tally _ _ _ _ Hc) as (st & Hst & Hm & Ho).
  exists st. split; [exact Hst |]. cbv zeta.
  split; [exact Hm |]. split; [exact Ho |].
  rewrite (recalc_total _ _ _ _ Hc), Hm, Ho. symmetry.
  apply count_where_either. intros se. unfold event_missed, event_outside, isna, notna.
  destruct (dict_get performed (pid p, se.2)) as [d |]; [| reflexivity].
  rewrite bool_decide_eq_true_2 by eauto. discriminate.
Qed.

Lemma counts_are_event_counts_witness :
  exists st,
    status sample_participant = Some st /\
    let evs := expected_events [(2, "fu1")] st (base_dt sample_participant)
                 (participant_end_point_date [(2, "fu1")] st
                    (base_dt sample_participant)
                    (endpoint1_dt sample_participant)
                    (endpoint2_dt sample_participant)) in
    missed_count (mkCounts 0 1 1) =
      count_where (event_missed sample_performed (pid sample_participant)) evs /\
    outside_window_count (mkCounts 0 1 1) =
      count_where (event_outside sample_performed (pid sample_participant)) evs /\
    total_deviations (mkCounts 0 1 1) =
      count_where (fun se => event_missed sample_performed (pid sample_participant) se ||
                             event_outside sample_performed (pid sample_participant) se)
                  evs.
Proof.
  apply (counts_are_event_counts [(2, "fu1")] sample_performed sample_participant
           (mkCounts 0 1 1)).
  vm_compute. reflexivity.
Defined.

(** X2. When counts are computed, the total is zero exactly when every
    expected test has a performed date inside the grace window of its
    scheduled date. *)
Theorem zero_deviations_iff_all_on_time schedule performed (p : Participant)
    (c : Counts) (st : Z) :
  recalc schedule performed p = Some c ->
  status p = Some st ->
  (total_deviations c = 0 <->
   forall se, se ∈ expected_events schedule st (base_dt p)
                     (participant_end_point_date schedule st (base_dt p)
                        (endpoint1_dt p) (endpoint2_dt p)) ->
     exists d, dict_get performed (pid p, se.2) = Some d /\
               outside_grace_window se.1 d = false).
Proof.
  intros Hc Hst.
  assert (Htotal : total_deviations c = missed_count c + outside_window_count c).
  { unfold recalc in Hc. rewrite Hst in Hc.
    destruct (bool_decide _ && isna _); [discriminate |]. now injection Hc as <-. }
  destruct (recalc_tally schedule performed p c Hc) as (st' & Hst' & Hm & Ho).
  rewrite Hst in Hst'. injection Hst' as <-. cbn zeta in Hm, Ho.
  set (evs := expected_events _ _ _ _) in *.
  pose proof (count_where_nonneg (event_missed performed (pid p)) evs) as Hm0.
  pose proof (count_where_nonneg (event_outside performed (pid p)) evs) as Ho0.
  rewrite Htotal, Hm, Ho. split.
  - intros Hzero se Hse.
    assert (Hmz : count_where (event_missed performed (pid p)) evs = 0) by lia.
    assert (Hoz : count_where (event_outside performed (pid p)) evs = 0) by lia.
    apply count_where_zero in Hmz, Hoz.
    eapply Forall_forall in Hmz; [| exact Hse].
    eapply Forall_forall in Hoz; [| exact Hse].
    unfold event_missed, event_outside, isna, notna in Hmz, Hoz.
    destruct (dict_get performed (pid p, se.2)) as [d |]; [| discriminate].
    exists d. auto.
  - intros Hall.
    assert (Hmz : count_where (event_missed performed (pid p)) evs = 0).
    { apply count_where_zero, Forall_forall. intros se Hse.
      destruct (Hall se Hse) as (d & Hd & _).
      unfold event_missed, isna, notna. now rewrite Hd. }
    assert (Hoz : count_where (event_outside performed (pid p)) evs = 0).
    { apply count_where_zero, Forall_forall. intros se Hse.
      destruct (Hall se Hse) as (d & Hd & Hin).
      unfold event_outside. now rewrite Hd. }
    lia.
Qed.

Lemma zero_deviations_iff_all_on_time_witness :
  exists d, dict_get {[ ("P2", BASELINE_EVENT_NAME) := Some (date 2022 1 1) ]}
              ("P2", BASELINE_EVENT_NAME) = Some d /\
            outside_grace_window (date 2022 1 1) d = false.
Proof.
  refine (proj1 (zero_deviations_iff_all_on_time [(2, "fu1")]
    {[ ("P2", BASELINE_EVENT_NAME) := Some (date 2022 1 1) ]}
    (mkParticipant "P2" (Some 2) (Some (date 2022 2 15)) None (date 2022 1 1))
    (mkCounts 0 0 0) 2 eq_refl eq_refl) eq_refl
    (date 2022 1 1, BASELINE_EVENT_NAME) _).
  vm_compute. apply list_elem_of_here.
Defined.

(** ** The count loop within the Timestamp range *)

Lemma in_bounds_between (lo v hi : Z) :
  in_bounds lo = true -> in_bounds hi = true -> lo <= v <= hi -> in_bounds v = true.
Proof.
  unfold in_bounds. rewrite !andb_true_iff, !Z.leb_le. lia.
Qed.

Lemma max_month_offset_nonneg (schedule : list (Z * string)) :
  Forall (fun entry => 0 <= entry.1) schedule -> 0 <= max_month_offset schedule.
Proof.
  intros Hnn. destruct schedule as [| entry rest]; [reflexivity |].
  pose proof (max_month_offset_ge (entry :: rest) entry (list_elem_of_here _ _)).
  apply Forall_cons in Hnn as [Hentry _]. lia.
Qed.

(** Between the anchor and the last scheduled date every scheduled date
    and its window can be built. *)
Lemma scheduled_date_in_range (schedule : list (Z * string)) (base : Timestamp)
    (offset : Z) :
  anchor_in_range schedule base ->
  0 <= offset <= max_month_offset schedule ->
  Timestamp_add_months base offset = Completed (add_months base offset) /\
  grace_window (add_months base offset) =
    Completed (value (add_months base offset) - timedelta_days GRACE_DAYS,
               value (add_months base offset) + timedelta_days GRACE_DAYS).
Proof.
  intros (Hb & Hlo & Hhi) Hoff.
  destruct (add_months_monotone base 0 offset Hb ltac:(lia) ltac:(lia)) as [Hge _].
  destruct (add_months_monotone base offset (max_month_offset schedule) Hb
              ltac:(lia) ltac:(lia)) as [Hle _].
  rewrite (add_months_zero base Hb) in Hge.
  assert (Hpos : 0 < timedelta_days GRACE_DAYS) by reflexivity.
  unfold Timestamp_add_months, grace_window. cbv zeta.
  rewrite (in_bounds_between _ (value (add_months base offset)) _ Hlo Hhi) by lia.
  rewrite (in_bounds_between _ (value (add_months base offset)
                                - timedelta_days GRACE_DAYS) _ Hlo Hhi) by lia.
  rewrite (in_bounds_between _ (value (add_months base offset)
                                + timedelta_days GRACE_DAYS) _ Hlo Hhi) by lia.
  split; reflexivity.
Qed.

Lemma check_performed_in_range (scheduled : Timestamp) (got : option Timestamp)
    (t : Tally) :
  grace_window scheduled =
    Completed (value scheduled - timedelta_days GRACE_DAYS,
               value scheduled + timedelta_days GRACE_DAYS) ->
  Checked.check_performed scheduled got t = Completed (check_performed scheduled got t).
Proof.
  intros Hwin. unfold Checked.check_performed, check_performed.
  destruct got as [performed |]; [| reflexivity].
  rewrite Hwin. cbn. unfold outside_grace_window. cbv zeta.
  now destruct (negb _).
Qed.

Lemma check_followups_in_range (schedule : list (Z * string))
    (performed : gmap (string * string) (option Timestamp))
    (k : string) (st : Z) (base : Timestamp) (end_point : option Timestamp)
    (entries : list (Z * string)) (t : Tally) :
  anchor_in_range schedule base ->
  Forall (fun entry => 0 <= entry.1 <= max_month_offset schedule) entries ->
  foldl_outcome (Checked.check_followup performed k st base end_point) t entries =
  Completed (foldl (check_followup performed k st base end_point) t entries).
Proof.
  intros Hsafe Hall. revert t.
  induction Hall as [| entry entries Hentry _ IH]; intros t; [reflexivity |].
  destruct (scheduled_date_in_range schedule base entry.1 Hsafe Hentry) as [Hadd Hwin].
  cbn [foldl_outcome foldl].
  assert (Hstep : Checked.check_followup performed k st base end_point t entry =
                  Completed (check_followup performed k st base end_point t entry)).
  { unfold Checked.check_followup, check_followup. rewrite Hadd. cbv zeta.
    destruct (is_expected _ _ _); [| reflexivity].
    now apply check_performed_in_range. }
  rewrite Hstep. cbn. apply IH.
Qed.

(** For an anchor in range the guarded loop body computes what [recalc]
    computes: no date falls outside the range, nothing is skipped and
    nothing raises. *)
Lemma recalc_in_range (schedule : list (Z * string))
    (performed : gmap (string * string) (option Timestamp)) (p : Participant) :
  Forall (fun entry => 0 <= entry.1) schedule ->
  anchor_in_range schedule (base_dt p) ->
  Checked.recalc schedule performed p = Completed (recalc schedule performed p).
Proof.
  intros Hnn Hsafe. unfold Checked.recalc, recalc.
  destruct (status p) as [st |]; [| reflexivity].
  pose proof (max_month_offset_nonneg schedule Hnn) as Hmax.
  assert (Hend : Checked.participant_end_point_date schedule st (base_dt p)
                   (endpoint1_dt p) (endpoint2_dt p) =
                 Completed (participant_end_point_date schedule st (base_dt p)
                              (endpoint1_dt p) (endpoint2_dt p))).
  { unfold Checked.participant_end_point_date, participant_end_point_date.
    destruct (st =? 1).
    - destruct (scheduled_date_in_range schedule (base_dt p)
                  (max_month_offset schedule) Hsafe ltac:(lia)) as [-> _].
      reflexivity.
    - destruct (_ && _); [reflexivity |]. now destruct (_ && _). }
  rewrite Hend. cbn. cbv zeta.
  destruct (_ && _); [reflexivity |].
  assert (Hbase : forall ep t,
            Checked.check_baseline performed (pid p) st (base_dt p) ep t =
            Completed (check_baseline performed (pid p) st (base_dt p) ep t)).
  { intros ep t. unfold Checked.check_baseline, check_baseline.
    destruct (baseline_is_expected _ _ _); [| reflexivity].
    apply check_performed_in_range.
    destruct (scheduled_date_in_range schedule (base_dt p) 0 Hsafe ltac:(lia))
      as [_ Hwin].
    destruct Hsafe as (Hb & _). now rewrite (add_months_zero _ Hb) in Hwin. }
  rewrite Hbase. cbn.
  rewrite (check_followups_in_range schedule performed (pid p) st (base_dt p) _
             schedule _ Hsafe).
  - reflexivity.
  - apply Forall_forall. intros entry Hentry. split.
    + rewrite Forall_forall in Hnn. now apply Hnn.
    + now apply max_month_offset_ge.
Qed.

(** X3. Under status 1, with a schedule of non-negative offsets and a valid
    baseline date far enough from the ends of the Timestamp range for the
    windows around it and around the last scheduled date to be built, no
    date raises, counts are computed and the baseline and every schedule
    entry are checked: missed and outside-window are counted over the whole
    schedule, and a participant with no performed test at all gets
    missed = 1 + number of schedule entries and outside-window = 0.  When
    the last scheduled date is beyond the range, the loop body raises
    instead. *)
Theorem status_1_full_schedule (schedule : list (Z * string))
    (performed : gmap (string * string) (option Timestamp)) (p : Participant) :
  status p = Some 1 ->
  Forall (fun entry => 0 <= entry.1) schedule ->
  (anchor_in_range schedule (base_dt p) ->
   let all_events :=
     (base_dt p, BASELINE_EVENT_NAME)
     :: ((fun entry => (add_months (base_dt p) entry.1, entry.2)) <$> schedule) in
   exists c,
     Checked.recalc schedule performed p = Completed (Some c) /\
     missed_count c = count_where (event_missed performed (pid p)) all_events /\
     outside_window_count c = count_where (event_outside performed (pid p)) all_events /\
     ((forall ev, dict_get performed (pid p, ev) = None) ->
        missed_count c = 1 + Z.of_nat (length schedule) /\
        outside_window_count c = 0)) /\
  (in_bounds (value (add_months (base_dt p) (max_month_offset schedule))) = false ->
   Checked.recalc schedule performed p = Aborted OutOfBoundsDatetime).
Proof.
  intros Hst Hnn. split.
  - intros Hsafe all_events. pose proof Hsafe as (Hb & _).
    destruct (recalc_is_Some schedule performed p 1 Hst eq_refl) as [c Hc].
    exists c. split; [now rewrite (recalc_in_range _ _ _ Hnn Hsafe), Hc |].
    destruct (recalc_tally schedule performed p c Hc) as (st' & Hst' & Hm & Ho).
    rewrite Hst in Hst'. injection Hst' as <-. cbn zeta in Hm, Ho.
    rewrite (expected_events_status_1 schedule (base_dt p) _ _ Hb Hnn) in Hm, Ho.
    fold all_events in Hm, Ho.
    split; [exact Hm |]. split; [exact Ho |].
    intros Hnone. rewrite Hm, Ho. split.
    + rewrite count_where_all.
      * subst all_events. simpl length. rewrite length_fmap. lia.
      * apply Forall_forall. intros se _. unfold event_missed, isna, notna.
        now rewrite Hnone.
    + apply count_where_zero, Forall_forall. intros se _. unfold event_outside.
      now rewrite Hnone.
  - intros Hout. unfold Checked.recalc. rewrite Hst.
    unfold Checked.participant_end_point_date, Timestamp_add_months. cbn.
    now rewrite Hout.
Qed.

Lemma status_1_full_schedule_witness :
  exists c,
    Checked.recalc EXPECTED_FOLLOWUP_SCHEDULE ∅
      (mkParticipant "P1" (Some 1) None None (date 2022 1 31)) = Completed (Some c) /\
    missed_count c = 10.
Proof.
  assert (Hnn : Forall (fun entry : Z * string => 0 <= entry.1)
                  EXPECTED_FOLLOWUP_SCHEDULE)
    by (repeat constructor; simpl; lia).
  destruct (proj1 (status_1_full_schedule EXPECTED_FOLLOWUP_SCHEDULE ∅
              (mkParticipant "P1" (Some 1) None None (date 2022 1 31)) eq_refl Hnn))
    as (c & Hc & _ & _ & Hnone).
  - split; [repeat split; apply Z.leb_le; reflexivity |]. split; reflexivity.
  - exists c. split; [exact Hc |].
    destruct (Hnone (fun ev => eq_refl)) as [Hm _]. exact Hm.
Defined.

(** X4. Under status 2, 3 or 4 with an end date before a valid baseline
    date, nothing is expected: counts are computed and all three are zero,
    whatever tests were performed. *)
Theorem end_before_baseline_all_zero schedule performed (p : Participant)
    (st : Z) (hd : Timestamp) :
  status p = Some st -> st ∈ [2; 3; 4] ->
  participant_end_point_date schedule st (base_dt p)
    (endpoint1_dt p) (endpoint2_dt p) = Some hd ->
  value hd < value (base_dt p) ->
  valid_date (base_dt p) ->
  Forall (fun entry => 0 <= entry.1) schedule ->
  recalc schedule performed p = Some (mkCounts 0 0 0).
Proof.
  intros Hst Hin Hend Hlt Hb Hnn.
  assert (Hne : st <> 1).
  { intros ->. rewrite !elem_of_cons, elem_of_nil in Hin. lia. }
  destruct (recalc_is_Some schedule performed p st Hst) as [c Hc].
  { rewrite Hend. apply andb_false_r. }
  rewrite Hc. f_equal.
  destruct (recalc_tally schedule performed p c Hc) as (st' & Hst' & Hm & Ho).
  rewrite Hst in Hst'. injection Hst' as <-. cbn zeta in Hm, Ho.
  rewrite Hend, (expected_events_before_baseline schedule st _ hd Hb Hnn Hne Hlt)
    in Hm, Ho.
  unfold recalc in Hc. rewrite Hst in Hc.
  destruct (bool_decide _ && isna _); [discriminate |].
  injection Hc as <-. cbn [missed_count outside_window_count] in Hm, Ho.
  rewrite Hm, Ho. reflexivity.
Qed.

Lemma end_before_baseline_all_zero_witness :
  recalc EXPECTED_FOLLOWUP_SCHEDULE ∅
    (mkParticipant "P2" (Some 2) (Some (date 2021 12 1)) None (date 2022 1 1))
  = Some (mkCounts 0 0 0).
Proof.
  apply (end_before_baseline_all_zero EXPECTED_FOLLOWUP_SCHEDULE ∅
           (mkParticipant "P2" (Some 2) (Some (date 2021 12 1)) None (date 2022 1 1))
           2 (date 2021 12 1) eq_refl).
  - now apply (bool_decide_unpack _).
  - reflexivity.
  - apply Z.ltb_lt. reflexivity.
  - repeat split; apply Z.leb_le; reflexivity.
  - repeat constructor; apply Z.leb_le; reflexivity.
Defined.

(** X5. Scheduled dates follow the schedule order: for a valid baseline
    date, offset 0 gives the baseline date itself, a larger offset never
    gives an earlier date and a strictly larger one a strictly later date;
    hence when a follow-up is expected, every follow-up with a smaller
    offset is expected too. *)
Theorem scheduled_dates_in_order (b : Timestamp) (n1 n2 : Z) :
  valid_date b -> 0 <= n1 -> n1 <= n2 ->
  add_months b 0 = b /\
  value (add_months b n1) <= value (add_months b n2) /\
  (n1 < n2 -> value (add_months b n1) < value (add_months b n2)) /\
  (forall st h, is_expected st (add_months b n2) h = true ->
                is_expected st (add_months b n1) h = true).
Proof.
  intros Hb H1 H12.
  destruct (add_months_monotone b n1 n2 Hb H1 H12) as [Hle Hlt].
  split; [now apply add_months_zero |]. split; [exact Hle |]. split; [exact Hlt |].
  intros st [hd |]; unfold is_expected, Timestamp_le; [| auto].
  rewrite !Z.leb_le. lia.
Qed.

Lemma scheduled_dates_in_order_witness :
  value (add_months (date 2023 1 31) 1) < value (add_months (date 2023 1 31) 2).
Proof.
  refine (proj1 (proj2 (proj2
    (scheduled_dates_in_order (date 2023 1 31) 1 2 _ _ _))) _); try lia.
  repeat split; apply Z.leb_le; reflexivity.
Defined.

(** ** Baseline anchors and participants *)

Lemma elem_of_baseline_event_rows (f : Frame) (x : Row) :
  x ∈ baseline_event_rows f -> x ∈ rows f /\ is_baseline_row x.
Proof.
  unfold baseline_event_rows. intros H.
  apply elem_of_drop_duplicates, elem_of_sort_values, list_elem_of_filter in H.
  tauto.
Qed.

Lemma drop_duplicates_complete {A K} `{EqDecision K} (subset : A -> K)
    (l : list A) (x : A) :
  x ∈ l -> exists y, y ∈ drop_duplicates subset l /\ subset y = subset x.
Proof.
  intros Hx.
  pose proof (group_drop_duplicates subset (subset x) l) as Hg.
  assert (Hin : x ∈ group subset (subset x) l) by (now apply elem_of_group).
  destruct (group subset (subset x) l) as [| y g] eqn:E;
    [now apply elem_of_nil in Hin |].
  simpl in Hg. exists y.
  assert (Hy : y ∈ group subset (subset x) (drop_duplicates subset l))
    by (rewrite Hg; apply list_elem_of_here).
  apply elem_of_group in Hy as [Hk Hy]. auto.
Qed.

Lemma baseline_event_rows_complete (f : Frame) (r : Row) :
  r ∈ rows f -> is_baseline_row r ->
  exists x, x ∈ baseline_event_rows f /\ record_id x = record_id r.
Proof.
  intros Hr Hb. unfold baseline_event_rows.
  apply drop_duplicates_complete, elem_of_sort_values.
  now apply list_elem_of_filter.
Qed.

(** A row kept by [drop_duplicates] is the first row of its group. *)
Lemma drop_duplicates_first {A K} `{EqDecision K} (subset : A -> K)
    (l : list A) (x : A) :
  x ∈ drop_duplicates subset l -> head (group subset (subset x) l) = Some x.
Proof.
  intros Hx.
  assert (Hin : x ∈ group subset (subset x) (drop_duplicates subset l))
    by (now apply elem_of_group).
  rewrite group_drop_duplicates in Hin.
  destruct (head (group subset (subset x) l)) as [y |]; simpl in Hin.
  - apply list_elem_of_singleton in Hin. now subst.
  - now apply elem_of_nil in Hin.
Qed.

Lemma head_filter_split {A} (P : A -> Prop) `{!forall x, Decision (P x)}
    (l : list A) (x : A) :
  head (filter P l) = Some x ->
  exists before after, l = before ++ x :: after /\ P x /\
                       Forall (fun y => ~ P y) before.
Proof.
  intros Hhead. destruct (filter P l) as [| y g] eqn:E; [discriminate |].
  injection Hhead as ->.
  destruct (filter_split P l [] x g E) as (l1 & l2 & -> & H1 & _).
  exists l1, l2. split; [reflexivity |]. split.
  - assert (Hx : x ∈ filter P (l1 ++ x :: l2)) by (rewrite E; apply list_elem_of_here).
    now apply list_elem_of_filter in Hx.
  - apply Forall_forall. intros z Hz Pz.
    assert (Hin : z ∈ filter P l1) by (now apply list_elem_of_filter).
    rewrite H1 in Hin. now apply elem_of_nil in Hin.
Qed.

Lemma elem_of_final_baselines (f : Frame) (baselines : list (string * Timestamp))
    (k : string) (d : Timestamp) :
  final_baselines f = Completed baselines ->
  (k, d) ∈ baselines <->
  exists x, x ∈ baseline_event_rows f /\ record_id x = k /\
            effective_baseline f x = Some d.
Proof.
  unfold final_baselines. destruct (_ || _); [| discriminate]. intros [= <-].
  rewrite list_elem_of_omap. split.
  - intros (x & Hx & Heff).
    destruct (effective_baseline f x) as [d' |] eqn:E; [| discriminate].
    injection Heff as <- <-. exists x. auto.
  - intros (x & Hx & <- & Heff). exists x. split; [exact Hx |]. now rewrite Heff.
Qed.

(** X6. The anchor list holds one entry per participant; an entry is the
    effective baseline of a baseline row of that participant (non-empty
    identifier); a participant none of whose baseline rows has an effective
    baseline has no entry; a participant whose baseline rows all have the
    same effective baseline has that entry. *)
Theorem baseline_anchor_per_participant (f : Frame)
    (baselines : list (string * Timestamp)) :
  final_baselines f = Completed baselines ->
  NoDup (fst <$> baselines) /\
  (forall k d, (k, d) ∈ baselines ->
     k <> "" /\
     exists r, r ∈ rows f /\ is_baseline_row r /\ record_id r = k /\
               effective_baseline f r = Some d) /\
  (forall k,
     (forall r, r ∈ rows f -> is_baseline_row r -> record_id r = k ->
                effective_baseline f r = None) ->
     k ∉ fst <$> baselines) /\
  (forall k d,
     (exists r, r ∈ rows f /\ is_baseline_row r /\ record_id r = k) ->
     (forall r, r ∈ rows f -> is_baseline_row r -> record_id r = k ->
                effective_baseline f r = Some d) ->
     (k, d) ∈ baselines).
Proof.
  intros Hb. split; [now apply NoDup_final_baselines in Hb |].
  split; [| split].
  - intros k d Hkd. apply (elem_of_final_baselines f baselines k d Hb) in Hkd
      as (x & Hx & Hid & Heff).
    apply elem_of_baseline_event_rows in Hx as [Hx Hbase].
    split; [destruct Hbase as [_ Hne]; congruence | eauto].
  - intros k Hnone Hin. apply list_elem_of_fmap in Hin as ([k' d] & Hk & Hin).
    simpl in Hk. subst k'.
    apply (elem_of_final_baselines f baselines k d Hb) in Hin as (x & Hx & Hid & Heff).
    apply elem_of_baseline_event_rows in Hx as [Hx Hbase].
    rewrite (Hnone x Hx Hbase Hid) in Heff. discriminate.
  - intros k d (r & Hr & Hbase & Hid) Hall.
    destruct (baseline_event_rows_complete f r Hr Hbase) as (x & Hx & Hxid).
    apply (elem_of_final_baselines f baselines k d Hb). exists x.
    split; [exact Hx |]. split; [congruence |].
    apply elem_of_baseline_event_rows in Hx as [Hx' Hxb].
    apply Hall; [exact Hx' | exact Hxb | congruence].
Qed.

Lemma baseline_anchor_per_participant_witness :
  NoDup (fst <$> [("P1", date 2022 1 1)]).
Proof.
  exact (proj1 (baseline_anchor_per_participant sample_visits
                  [("P1", date 2022 1 1)] eq_refl)).
Defined.

Lemma prepare_has_column (df : RawFrame) (f : Frame) (col : string) :
  prepare df = Completed f -> col ∈ INPUT_COLUMNS ->
  has_column (columns f) col = has_column (raw_columns df) col.
Proof.
  intros Hp Hcol. rewrite (prepare_columns df f Hp).
  now apply has_column_add_output_columns.
Qed.

(** X7. After type conversion the anchor of a baseline row is its test
    date when it has one and its visit date otherwise, whichever of the two
    date columns the table has (at least one): a missing column reads as
    empty. *)
Theorem anchor_prefers_test_date (df : RawFrame) (f : Frame) (r : Row) :
  prepare df = Completed f ->
  has_column (raw_columns df) TEST_DATE_COL = true \/
  has_column (raw_columns df) VISIT_DATE_COL = true ->
  r ∈ rows f ->
  effective_baseline f r =
    match test_date r with
    | Some t => Some t
    | None => visit_date r
    end.
Proof.
  intros Hp Hcols Hr.
  destruct elem_of_INPUT_COLUMNS as (_ & _ & _ & Ht & Hv & _).
  apply list_elem_of_lookup in Hr as [i Hi].
  destruct (prepare_rows df f Hp) as [_ Hconv].
  destruct (Hconv i r Hi) as (raw & _ & ->).
  unfold effective_baseline.
  rewrite (prepare_has_column df f _ Hp Ht), (prepare_has_column df f _ Hp Hv).
  unfold convert_row, convert_date. cbn [test_date visit_date].
  destruct (has_column (raw_columns df) TEST_DATE_COL) eqn:Et;
    destruct (has_column (raw_columns df) VISIT_DATE_COL) eqn:Ev; simpl.
  - now destruct (to_datetime (raw_test_date raw)).
  - now destruct (to_datetime (raw_test_date raw)).
  - reflexivity.
  - destruct Hcols; discriminate.
Qed.

Lemma anchor_prefers_test_date_witness :
  effective_baseline sample_converted
    (mkRow "P2" "study_baseline" (Some (date 2022 1 1)) None (Some 2)
       (Some (date 2022 2 15)) None None None None)
  = Some (date 2022 1 1).
Proof.
  refine (anchor_prefers_test_date sample_table sample_converted
            (mkRow "P2" "study_baseline" (Some (date 2022 1 1)) None (Some 2)
               (Some (date 2022 2 15)) None None None None) eq_refl _ _).
  - left. reflexivity.
  - do 4 apply list_elem_of_further. apply list_elem_of_here.
Defined.

(** X8. When both date columns exist, the participants with an anchor are
    the baseline rows kept with a test date plus those counted as using
    the visit date as proxy; the proxy count never exceeds the number of
    anchors. *)
Theorem proxy_count_accounts (f : Frame) (baselines : list (string * Timestamp)) :
  final_baselines f = Completed baselines ->
  has_column (columns f) TEST_DATE_COL = true ->
  has_column (columns f) VISIT_DATE_COL = true ->
  length baselines =
    (length (filter (fun r => is_Some (test_date r)) (baseline_event_rows f))
     + used_proxy_count f)%nat /\
  (used_proxy_count f <= length baselines)%nat.
Proof.
  unfold final_baselines, used_proxy_count. intros Hb Ht Hv.
  rewrite Ht, Hv in *. simpl in Hb. injection Hb as <-.
  assert (Heff : forall r, effective_baseline f r = fillna (visit_date r) (test_date r)).
  { intros r. unfold effective_baseline. now rewrite Ht, Hv. }
  assert (Hlen : length (omap (fun r => pair (record_id r) <$> effective_baseline f r)
                           (baseline_event_rows f)) =
                 (length (filter (fun r => is_Some (test_date r)) (baseline_event_rows f))
                  + length (filter (fun r => test_date r = None /\ is_Some (visit_date r))
                              (baseline_event_rows f)))%nat).
  { induction (baseline_event_rows f) as [| r l IH]; [reflexivity |].
    rewrite !filter_cons. cbn [omap list_omap]. rewrite Heff.
    destruct (decide (is_Some (test_date r))) as [[t Ht'] | Hnt];
      destruct (decide (test_date r = None /\ is_Some (visit_date r)))
        as [[Hn [v Hv']] | Hnp].
    - congruence.
    - rewrite Ht'. simpl. now rewrite IH.
    - rewrite Hn, Hv'. simpl. rewrite IH. lia.
    - destruct (test_date r) as [t |] eqn:Et; [exfalso; eauto |].
      destruct (visit_date r) as [v |] eqn:Ev; [exfalso; eauto |].
      simpl. exact IH. }
  rewrite Hlen. split; [reflexivity | apply Nat.le_add_l].
Qed.

Lemma proxy_count_accounts_witness :
  (used_proxy_count sample_visits <= 1)%nat.
Proof.
  exact (proj2 (proxy_count_accounts sample_visits [("P1", date 2022 1 1)]
                  eq_refl eq_refl eq_refl)).
Defined.

Lemma NoDup_fmap_same_key {A K} (key : A -> K) (l : list A) (x y : A) :
  NoDup (key <$> l) -> x ∈ l -> y ∈ l -> key x = key y -> x = y.
Proof.
  induction l as [| z l IH]; intros Hnd Hx Hy Hk; [now apply elem_of_nil in Hx |].
  rewrite fmap_cons in Hnd. apply NoDup_cons in Hnd as [Hz Hnd].
  apply elem_of_cons in Hx as [-> | Hx]; apply elem_of_cons in Hy as [-> | Hy].
  - reflexivity.
  - exfalso. apply Hz. rewrite Hk. now apply list_elem_of_fmap_2.
  - exfalso. apply Hz. rewrite <- Hk. now apply list_elem_of_fmap_2.
  - now apply IH.
Qed.

(** X9. A participant entering the count loop has a non-empty identifier
    and a status from 1 to 4; its status and endpoint dates are those of
    the first baseline row of that identifier in the table, its anchor is
    the entry of the anchor list, and no other participant of the loop has
    the same identifier. *)
Theorem participant_from_first_baseline_row (f : Frame)
    (baselines : list (string * Timestamp)) (p : Participant) :
  final_baselines f = Completed baselines ->
  p ∈ participants_for_recalc f baselines ->
  pid p <> "" /\
  (exists st, status p = Some st /\ 1 <= st <= 4) /\
  (pid p, base_dt p) ∈ baselines /\
  (exists before r after,
     rows f = before ++ r :: after /\
     is_baseline_row r /\ record_id r = pid p /\
     Forall (fun y => ~ (is_baseline_row y /\ record_id y = pid p)) before /\
     status p = participant_status r /\
     endpoint1_dt p = get_endpoint f ENDPOINT_DATE_1_COL (primary_endpoint_date r) /\
     endpoint2_dt p = get_endpoint f ENDPOINT_DATE_2_COL (secondary_endpoint_date r)) /\
  (forall q, q ∈ participants_for_recalc f baselines -> pid q = pid p -> q = p).
Proof.
  intros Hb Hp. unfold participants_for_recalc in *.
  apply list_elem_of_filter in Hp as [Hvalid Hp].
  pose proof (NoDup_participants_for_recalc f baselines Hb) as Hnd.
  pose proof Hp as Hp'.
  apply elem_of_merge_baselines in Hp' as (r & [k d] & Hr & Hkd & Hk & ->).
  simpl in Hk. subst k. cbn [pid status endpoint1_dt endpoint2_dt base_dt] in *.
  pose proof (drop_duplicates_first record_id _ r Hr) as Hhead.
  pose proof Hr as Hr'.
  apply elem_of_drop_duplicates, list_elem_of_filter in Hr' as [Hbase Hrows].
  split; [now destruct Hbase |]. split; [| split; [exact Hkd | split]].
  - destruct (participant_status r) as [st |]; [| now simpl in Hvalid].
    exists st. split; [reflexivity |]. simpl in Hvalid.
    apply bool_decide_unpack in Hvalid.
    unfold valid_statuses_for_calc in Hvalid.
    rewrite !elem_of_cons, elem_of_nil in Hvalid. lia.
  - unfold group in Hhead. rewrite list_filter_filter in Hhead.
    apply head_filter_split in Hhead as (before & after & Hsplit & _ & Hbefore).
    exists before, r, after. split; [exact Hsplit |].
    split; [exact Hbase |]. split; [reflexivity |].
    split; [| auto].
    eapply Forall_impl; [exact Hbefore |]. intros y Hy [Hy1 Hy2]. apply Hy. auto.
  - intros q Hq Hpid. apply list_elem_of_filter in Hq as [_ Hq].
    exact (NoDup_fmap_same_key pid _ q _ Hnd Hq Hp Hpid).
Qed.

Lemma participant_from_first_baseline_row_witness :
  "P1" <> "" /\ exists st, Some 1 = Some st /\ 1 <= st <= 4.
Proof.
  destruct (participant_from_first_baseline_row sample_visits
              [("P1", date 2022 1 1)]
              (mkParticipant "P1" (Some 1) None None (date 2022 1 1)) eq_refl)
    as (Hne & Hst & _).
  - vm_compute. apply list_elem_of_here.
  - exact (conj Hne Hst).
Defined.

(** ** The performed-test dictionary, exactly *)

Lemma earliest_elem_of {A} (le : A -> A -> bool) (l : list A) (m : A) :
  earliest le l = Some m -> m ∈ l.
Proof.
  revert m. induction l as [| x l IH]; intros m; simpl; [discriminate |].
  destruct (earliest le l) as [y |].
  - destruct (le x y); intros [= <-];
      [apply list_elem_of_here | apply list_elem_of_further; now apply IH].
  - intros [= <-]. apply list_elem_of_here.
Qed.

(** X10. The dictionary has an entry for a (participant, event) pair
    exactly when the table has a row with that non-empty identifier, that
    tracked event and a test date; a stored date is the test date of such a
    row, no stored value is missing, and no key occurs in two kept rows. *)
Theorem performed_index_exact (f : Frame) (tests : list Row) (p e : string) :
  performed_tests_df f = Completed tests ->
  (is_Some (dict_get (performed_dict tests) (p, e)) <->
   exists r, r ∈ rows f /\ record_id r = p /\ event_name r = e /\
             is_performed_test r) /\
  (forall d, dict_get (performed_dict tests) (p, e) = Some d ->
     exists r, r ∈ rows f /\ record_id r = p /\ event_name r = e /\
               test_date r = Some d) /\
  (forall cell, performed_dict tests !! (p, e) = Some cell -> is_Some cell) /\
  NoDup (performed_key <$> tests).
Proof.
  intros Htests.
  destruct (performed_lookup f tests (p, e) Htests) as [Hgroup Hget].
  set (G := group performed_key (p, e) (filter is_performed_test (rows f))) in *.
  assert (HG : forall m, m ∈ G ->
            m ∈ rows f /\ record_id m = p /\ event_name m = e /\ is_performed_test m).
  { intros m Hm. apply elem_of_group in Hm as [Hkey Hm].
    apply list_elem_of_filter in Hm as [Hperf Hm]. injection Hkey as Hp He. auto. }
  assert (Hfrom : forall d, dict_get (performed_dict tests) (p, e) = Some d ->
            exists r, r ∈ rows f /\ record_id r = p /\ event_name r = e /\
                      test_date r = Some d).
  { intros d Hd. rewrite Hget in Hd.
    destruct (earliest by_participant_event_date G) as [m |] eqn:Em; [| discriminate].
    simpl in Hd. apply earliest_elem_of in Em.
    destruct (HG m Em) as (H1 & H2 & H3 & _). eauto. }
  assert (Hnd : NoDup (performed_key <$> tests)).
  { unfold performed_tests_df in Htests.
    destruct (has_column _ _); [| discriminate]. injection Htests as <-.
    apply NoDup_drop_duplicates. }
  split; [split | split; [exact Hfrom | split; [| exact Hnd]]].
  - intros [d Hd]. destruct (Hfrom d Hd) as (r & Hr & Hp & He & Hdate).
    exists r. split; [exact Hr |]. split; [exact Hp |]. split; [exact He |].
    rewrite Hget in Hd.
    destruct (earliest by_participant_event_date G) as [m |] eqn:Em; [| discriminate].
    apply earliest_elem_of in Em. destruct (HG m Em) as (_ & Hmp & Hme & Hperf).
    destruct Hperf as (Hev & _ & Hid). unfold is_performed_test.
    rewrite Hp, He, Hdate. rewrite <- Hmp, <- Hme. eauto.
  - intros (r & Hr & Hp & He & Hperf). rewrite Hget.
    assert (HrG : r ∈ G).
    { apply elem_of_group. split; [unfold performed_key; congruence |].
      now apply list_elem_of_filter. }
    destruct (earliest by_participant_event_date G) as [m |] eqn:Em.
    + apply earliest_elem_of in Em. destruct (HG m Em) as (_ & _ & _ & (_ & Hd & _)).
      simpl. exact Hd.
    + apply earliest_None in Em. rewrite Em in HrG. now apply elem_of_nil in HrG.
  - intros cell Hcell. unfold performed_dict in Hcell.
    rewrite (performed_dict_foldl tests (p, e) ∅ Hnd), Hgroup, head_option_list in Hcell.
    destruct (earliest by_participant_event_date G) as [m |] eqn:Em.
    + injection Hcell as <-. apply earliest_elem_of in Em.
      now destruct (HG m Em) as (_ & _ & _ & (_ & Hd & _)).
    + now rewrite lookup_empty in Hcell.
Qed.

Lemma performed_index_exact_witness :
  exists r, r ∈ rows sample_visits /\ record_id r = "P1" /\
            event_name r = "followup_visit_1" /\ test_date r = Some (date 2022 3 2).
Proof.
  refine (proj1 (proj2 (performed_index_exact sample_visits _ "P1"
                          "followup_visit_1" eq_refl)) (date 2022 3 2) _).
  vm_compute. reflexivity.
Defined.

(** ** A participant's record depends on its own rows *)

Lemma group_filter_comm {A K} `{EqDecision K} (subset : A -> K) (k : K)
    (P : A -> Prop) `{!forall x, Decision (P x)} (l : list A) :
  group subset k (filter P l) = filter P (group subset k l).
Proof.
  unfold group. rewrite !list_filter_filter. apply list_filter_iff.
  intros x. tauto.
Qed.

Lemma NoDup_fmap_filter {A K} (key : A -> K) (P : A -> Prop)
    `{!forall x, Decision (P x)} (l : list A) :
  NoDup (key <$> l) -> NoDup (key <$> filter P l).
Proof.
  induction l as [| q l IH]; intros Hnd; [constructor |].
  rewrite fmap_cons in Hnd. apply NoDup_cons in Hnd as [Hq Hnd].
  rewrite filter_cons. destruct (decide _); [| now apply IH].
  rewrite fmap_cons. apply NoDup_cons. split; [| now apply IH].
  intros Hin. apply Hq. apply list_elem_of_fmap in Hin as (q' & -> & Hq').
  apply list_elem_of_filter in Hq' as [_ Hq']. now apply list_elem_of_fmap_2.
Qed.

Lemma recalc_ext (schedule : list (Z * string))
    (performed performed' : gmap (string * string) (option Timestamp))
    (p : Participant) :
  (forall e, dict_get performed (pid p, e) = dict_get performed' (pid p, e)) ->
  recalc schedule performed p = recalc schedule performed' p.
Proof.
  intros H. unfold recalc. destruct (status p) as [st |]; [| reflexivity].
  cbv zeta. destruct (_ && _); [reflexivity |].
  assert (Hb : forall ep t,
            check_baseline performed (pid p) st (base_dt p) ep t =
            check_baseline performed' (pid p) st (base_dt p) ep t)
    by (intros; unfold check_baseline; now rewrite H).
  assert (Hfold : forall ep (l : list (Z * string)) t,
            foldl (check_followup performed (pid p) st (base_dt p) ep) t l =
            foldl (check_followup performed' (pid p) st (base_dt p) ep) t l).
  { intros ep l. induction l as [| e l IH]; intros t; [reflexivity |].
    simpl. rewrite IH. f_equal. unfold check_followup. now rewrite H. }
  now rewrite Hb, Hfold.
Qed.

(** The record stored under an identifier is computed from the one
    participant of the loop with that identifier, if there is one. *)
Lemma calculated_counts_group
    (performed : gmap (string * string) (option Timestamp)) (ps : list Participant) (k : string) :
  NoDup (pid <$> ps) ->
  calculated_counts performed ps !! k =
  head (group pid k ps) ≫= recalc EXPECTED_FOLLOWUP_SCHEDULE performed.
Proof.
  intros Hnd. unfold calculated_counts.
  destruct (group pid k ps) as [| p g] eqn:Eg; simpl.
  - destruct (foldl _ _ _ !! k) as [c |] eqn:E; [| reflexivity].
    apply store_counts_origin in E as [E | (p & Hp & Hk & _)].
    + now rewrite lookup_empty in E.
    + assert (Hin : p ∈ group pid k ps) by now apply elem_of_group.
      rewrite Eg in Hin. now apply elem_of_nil in Hin.
  - assert (Hin : p ∈ group pid k ps) by (rewrite Eg; apply list_elem_of_here).
    apply elem_of_group in Hin as [<- Hin].
    rewrite (store_counts_lookup _ _ _ _ _ Hnd Hin), lookup_empty.
    now destruct (recalc _ _ p).
Qed.

Lemma group_pinfo_raw (f : Frame) (k : string) :
  group record_id k (pinfo_raw f) =
  option_list (head (filter is_baseline_row (group record_id k (rows f)))).
Proof.
  unfold pinfo_raw. now rewrite group_drop_duplicates, group_filter_comm.
Qed.

Lemma group_app {A K} `{EqDecision K} (subset : A -> K) (k : K) (l1 l2 : list A) :
  group subset k (l1 ++ l2) = group subset k l1 ++ group subset k l2.
Proof. unfold group. apply filter_app. Qed.

Lemma merge_baselines_cons (f : Frame) (r : Row) (pinfo : list Row)
    (baselines : list (string * Timestamp)) :
  merge_baselines f (r :: pinfo) baselines =
  (filter (fun b => b.1 = record_id r) baselines ≫= fun b =>
     [ {| pid := record_id r;
          status := participant_status r;
          endpoint1_dt := get_endpoint f ENDPOINT_DATE_1_COL (primary_endpoint_date r);
          endpoint2_dt := get_endpoint f ENDPOINT_DATE_2_COL (secondary_endpoint_date r);
          base_dt := b.2 |} ]) ++
  merge_baselines f pinfo baselines.
Proof. reflexivity. Qed.

Lemma group_merged_row (f : Frame) (r : Row) (bs : list (string * Timestamp))
    (k : string) :
  group pid k
    (bs ≫= fun b =>
       [ {| pid := record_id r;
            status := participant_status r;
            endpoint1_dt := get_endpoint f ENDPOINT_DATE_1_COL (primary_endpoint_date r);
            endpoint2_dt := get_endpoint f ENDPOINT_DATE_2_COL (secondary_endpoint_date r);
            base_dt := b.2 |} ]) =
  if decide (record_id r = k)
  then bs ≫= fun b =>
       [ {| pid := record_id r;
            status := participant_status r;
            endpoint1_dt := get_endpoint f ENDPOINT_DATE_1_COL (primary_endpoint_date r);
            endpoint2_dt := get_endpoint f ENDPOINT_DATE_2_COL (secondary_endpoint_date r);
            base_dt := b.2 |} ]
  else [].
Proof.
  induction bs as [| b bs IH].
  - now destruct (decide (record_id r = k)).
  - rewrite bind_cons, group_app, IH. cbn [app]. rewrite group_cons.
    cbn [pid group filter list_filter].
    destruct (decide (record_id r = k)); reflexivity.
Qed.

Lemma group_merge_baselines (f : Frame) (pinfo : list Row)
    (baselines : list (string * Timestamp)) (k : string) :
  group pid k (merge_baselines f pinfo baselines) =
  merge_baselines f (group record_id k pinfo) (group fst k baselines).
Proof.
  induction pinfo as [| r pinfo IH]; [reflexivity |].
  rewrite merge_baselines_cons, group_app, IH, group_merged_row, group_cons.
  destruct (decide (record_id r = k)) as [Hk | Hk]; [| reflexivity].
  rewrite merge_baselines_cons. f_equal. f_equal.
  unfold group. rewrite list_filter_filter. apply list_filter_iff.
  intros b. rewrite Hk. tauto.
Qed.

Lemma merge_baselines_columns (f g : Frame) (pinfo : list Row)
    (baselines : list (string * Timestamp)) :
  columns f = columns g ->
  merge_baselines f pinfo baselines = merge_baselines g pinfo baselines.
Proof.
  intros Hcols. unfold merge_baselines, get_endpoint. now rewrite Hcols.
Qed.

Lemma group_participants_for_recalc (f : Frame)
    (baselines : list (string * Timestamp)) (k : string) :
  group pid k (participants_for_recalc f baselines) =
  filter (fun p => isin (status p) valid_statuses_for_calc)
    (merge_baselines f (group record_id k (pinfo_raw f)) (group fst k baselines)).
Proof.
  unfold participants_for_recalc.
  now rewrite group_filter_comm, group_merge_baselines.
Qed.

Lemma group_performed_key (k e : string) (l : list Row) :
  group performed_key (k, e) l =
  filter (fun r => event_name r = e) (group record_id k l).
Proof.
  unfold group. rewrite list_filter_filter. apply list_filter_iff.
  intros r. unfold performed_key. split.
  - now intros [= -> ->].
  - now intros [-> ->].
Qed.

Lemma group_by_membership {A K} `{EqDecision K} (key : A -> K) (k : K)
    (l l' : list A) :
  NoDup (key <$> l) -> NoDup (key <$> l') ->
  (forall x, key x = k -> x ∈ l -> x ∈ l') ->
  (forall x, key x = k -> x ∈ l' -> x ∈ l) ->
  group key k l = group key k l'.
Proof.
  intros Hnd Hnd' Hto Hfrom.
  assert (Hone : forall (m m' : list A), NoDup (key <$> m) ->
            (forall x, key x = k -> x ∈ m -> x ∈ m') ->
            forall x, x ∈ group key k m -> x ∈ group key k m').
  { intros m m' _ Hsub x Hx. apply elem_of_group in Hx as [Hk Hx].
    apply elem_of_group. auto. }
  rewrite (group_at_most_one key k l Hnd), (group_at_most_one key k l' Hnd').
  destruct (head (group key k l)) as [x |] eqn:Ex;
    destruct (head (group key k l')) as [y |] eqn:Ey; try reflexivity.
  - assert (Hx : x ∈ group key k l').
    { apply (Hone l l' Hnd Hto). destruct (group key k l); [discriminate |].
      injection Ex as ->. apply list_elem_of_here. }
    rewrite (group_at_most_one key k l' Hnd'), Ey in Hx. simpl in Hx.
    apply list_elem_of_singleton in Hx. now subst.
  - assert (Hx : x ∈ group key k l').
    { apply (Hone l l' Hnd Hto). destruct (group key k l); [discriminate |].
      injection Ex as ->. apply list_elem_of_here. }
    rewrite (group_at_most_one key k l' Hnd'), Ey in Hx. now apply elem_of_nil in Hx.
  - assert (Hy : y ∈ group key k l).
    { apply (Hone l' l Hnd' Hfrom). destruct (group key k l'); [discriminate |].
      injection Ey as ->. apply list_elem_of_here. }
    rewrite (group_at_most_one key k l Hnd), Ex in Hy. now apply elem_of_nil in Hy.
Qed.

(** Whichever baseline row of a participant the sort keeps, the anchor is
    the same in two tables that agree on the participant's rows, as long as
    those baseline rows agree on it. *)
Lemma anchor_from_own_rows (f g : Frame) (k : string)
    (bf bg : list (string * Timestamp)) (b : string * Timestamp) :
  columns f = columns g ->
  group record_id k (rows f) = group record_id k (rows g) ->
  (forall r r', r ∈ filter is_baseline_row (group record_id k (rows f)) ->
                r' ∈ filter is_baseline_row (group record_id k (rows f)) ->
                effective_baseline f r = effective_baseline f r') ->
  final_baselines f = Completed bf ->
  final_baselines g = Completed bg ->
  b.1 = k -> b ∈ bf -> b ∈ bg.
Proof.
  intros Hcols Hrows Hsame Hf Hg Hk Hb. destruct b as [k' d]. simpl in Hk. subst k'.
  apply (elem_of_final_baselines f bf k d Hf) in Hb as (x & Hx & Hxk & Hxd).
  apply elem_of_baseline_event_rows in Hx as [Hx Hxb].
  assert (Hown : forall (h : Frame) (r : Row), r ∈ rows h -> is_baseline_row r ->
            record_id r = k ->
            r ∈ filter is_baseline_row (group record_id k (rows h))).
  { intros h r Hr Hrb Hrk. apply list_elem_of_filter. split; [exact Hrb |].
    now apply elem_of_group. }
  pose proof (Hown f x Hx Hxb Hxk) as Hxf.
  assert (Hxg : x ∈ rows g).
  { rewrite Hrows in Hxf. apply list_elem_of_filter in Hxf as [_ Hxf].
    now apply elem_of_group in Hxf. }
  destruct (baseline_event_rows_complete g x Hxg Hxb) as (y & Hy & Hyk).
  apply (elem_of_final_baselines g bg k d Hg). exists y.
  split; [exact Hy |]. split; [congruence |].
  apply elem_of_baseline_event_rows in Hy as [Hy Hyb].
  pose proof (Hown g y Hy Hyb ltac:(congruence)) as Hyg. rewrite <- Hrows in Hyg.
  assert (Heff : effective_baseline g y = effective_baseline f y)
    by (unfold effective_baseline; now rewrite Hcols).
  rewrite Heff, (Hsame y x Hyg Hxf). exact Hxd.
Qed.

(** X11. The record of a participant is computed from the rows carrying
    its identifier alone: two converted tables with the same columns whose
    rows with identifier [k] are the same, in the same order, and whose
    baseline rows of [k] all have the same effective baseline, give the
    same performed dates for [k] and store the same record (or none) under
    [k], whatever their other rows hold.  The performed dates agree also
    without the condition on the baseline rows. *)
Theorem record_from_own_rows (f g : Frame) (k : string)
    (tests_f tests_g : list Row) (records_f records_g : gmap string Counts) :
  columns f = columns g ->
  group record_id k (rows f) = group record_id k (rows g) ->
  performed_tests_df f = Completed tests_f ->
  performed_tests_df g = Completed tests_g ->
  deviation_records f = Completed records_f ->
  deviation_records g = Completed records_g ->
  (forall e, dict_get (performed_dict tests_f) (k, e) =
             dict_get (performed_dict tests_g) (k, e)) /\
  ((forall r r', r ∈ filter is_baseline_row (group record_id k (rows f)) ->
                 r' ∈ filter is_baseline_row (group record_id k (rows f)) ->
                 effective_baseline f r = effective_baseline f r') ->
   records_f !! k = records_g !! k).
Proof.
  intros Hcols Hrows Htf Htg Hf Hg.
  assert (Hdict : forall e, dict_get (performed_dict tests_f) (k, e) =
                            dict_get (performed_dict tests_g) (k, e)).
  { intros e.
    rewrite (proj2 (performed_lookup f tests_f (k, e) Htf)),
            (proj2 (performed_lookup g tests_g (k, e) Htg)).
    now rewrite !group_performed_key, !group_filter_comm, Hrows. }
  split; [exact Hdict |]. intros Hsame.
  unfold deviation_records in Hf, Hg. rewrite Htf in Hf. rewrite Htg in Hg.
  destruct (final_baselines f) as [bf | ?] eqn:Ebf; [| discriminate].
  destruct (final_baselines g) as [bg | ?] eqn:Ebg; [| discriminate].
  cbn in Hf, Hg. injection Hf as <-. injection Hg as <-.
  assert (Hsame' : forall r r',
            r ∈ filter is_baseline_row (group record_id k (rows g)) ->
            r' ∈ filter is_baseline_row (group record_id k (rows g)) ->
            effective_baseline g r = effective_baseline g r').
  { intros r r' Hr Hr'. rewrite <- Hrows in Hr, Hr'.
    unfold effective_baseline. rewrite <- Hcols. exact (Hsame r r' Hr Hr'). }
  assert (Hbase : group fst k bf = group fst k bg).
  { apply group_by_membership.
    - now apply NoDup_final_baselines in Ebf.
    - now apply NoDup_final_baselines in Ebg.
    - intros b Hk. now apply (anchor_from_own_rows f g k bf bg b).
    - intros b Hk. now apply (anchor_from_own_rows g f k bg bf b). }
  rewrite !calculated_counts_group
    by (apply NoDup_fmap_filter; now apply NoDup_participants_for_recalc).
  rewrite !group_participants_for_recalc, !group_pinfo_raw, Hrows, Hbase.
  rewrite (merge_baselines_columns f g _ _ Hcols).
  set (own := filter _ (merge_baselines g _ _)).
  assert (Hown : forall p, p ∈ own -> pid p = k).
  { intros p Hp. subst own. apply list_elem_of_filter in Hp as [_ Hp].
    apply elem_of_merge_baselines in Hp as (r & b & Hr & _ & _ & ->). simpl.
    destruct (head (filter is_baseline_row (group record_id k (rows g))))
      as [r0 |] eqn:Eh; simpl in Hr; [| now apply elem_of_nil in Hr].
    apply list_elem_of_singleton in Hr. subst r0.
    destruct (filter is_baseline_row (group record_id k (rows g)))
      as [| r0 rest] eqn:El; [discriminate |]. injection Eh as ->.
    assert (Hin : r ∈ filter is_baseline_row (group record_id k (rows g)))
      by (rewrite El; apply list_elem_of_here).
    apply list_elem_of_filter in Hin as [_ Hin].
    now apply elem_of_group in Hin as [Hin _]. }
  destruct own as [| p rest]; [reflexivity |]. simpl.
  apply recalc_ext. intros e.
  rewrite (Hown p) by apply list_elem_of_here. apply Hdict.
Qed.

Lemma record_from_own_rows_witness :
  default ∅ (completed (deviation_records sample_visits)) !! "P1" =
  default ∅ (completed (deviation_records sample_visits_more)) !! "P1".
Proof.
  refine (proj2 (record_from_own_rows sample_visits sample_visits_more "P1"
                   (default [] (completed (performed_tests_df sample_visits)))
                   (default [] (completed (performed_tests_df sample_visits_more)))
                   _ _ eq_refl _ _ _ _ _) _).
  1-5: vm_compute; reflexivity.
  assert (Hown : filter is_baseline_row (group record_id "P1" (rows sample_visits)) =
                 [sample_row "P1" "study_baseline" (Some (date 2022 1 1)) (Some 1)])
    by reflexivity.
  intros r r' Hr Hr'. rewrite Hown in Hr, Hr'.
  apply list_elem_of_singleton in Hr, Hr'. now subst.
Defined.

(** ** The write loop and its counter *)

Lemma write_counts_counted_fst (state : list Row * nat) (item : string * Counts) :
  (write_counts_counted state item).1 = write_counts state.1 item.
Proof.
  unfold write_counts_counted, write_counts.
  now destruct (list_find _ _) as [[idx r] |].
Qed.

Lemma write_counts_counted_snd (state : list Row * nat) (item : string * Counts) :
  (write_counts_counted state item).2 =
  if decide (is_Some (target_index state.1 item.1)) then S state.2 else state.2.
Proof.
  unfold write_counts_counted, target_index.
  destruct (list_find _ _) as [[idx r] |];
    destruct (decide _) as [Hfound | Hfound]; try reflexivity.
  - exfalso. apply Hfound. simpl. eauto.
  - destruct Hfound as [? ?]. discriminate.
Qed.

Lemma write_loop_foldl (items : list (string * Counts)) (rs : list Row) (n : nat) :
  foldl write_counts_counted (rs, n) items =
  (foldl write_counts rs items,
   (n + length (filter (fun item => is_Some (target_index rs item.1)) items))%nat).
Proof.
  revert rs n. induction items as [| item items IH]; intros rs n.
  - simpl. now rewrite Nat.add_0_r.
  - simpl foldl.
    rewrite (surjective_pairing (write_counts_counted (rs, n) item)).
    rewrite write_counts_counted_fst, write_counts_counted_snd, IH.
    cbn [fst snd]. f_equal.
    rewrite (list_filter_iff
               (fun item0 => is_Some (target_index (write_counts rs item) item0.1))
               (fun item0 => is_Some (target_index rs item0.1)))
      by (intros item0;
          now rewrite <- (target_index_same_data rs (write_counts rs item) item0.1
                            (write_counts_same_data rs item))).
    rewrite filter_cons.
    destruct (decide (is_Some (target_index rs item.1))); simpl; lia.
Qed.

Lemma NoDup_fst_items (counts : gmap string Counts) (items : list (string * Counts)) :
  items ≡ₚ map_to_list counts -> NoDup (items.*1).
Proof. intros ->. apply NoDup_fst_map_to_list. Qed.

Lemma filter_Forall_id {A} (P : A -> Prop) `{!forall x, Decision (P x)} (l : list A) :
  Forall P l -> filter P l = l.
Proof.
  induction 1 as [| x l Hx Hl IH]; [reflexivity |].
  rewrite filter_cons, decide_True by exact Hx. now rewrite IH.
Qed.

Lemma write_loop_permuted (rs : list Row) (counts : gmap string Counts)
    (items : list (string * Counts)) :
  items ≡ₚ map_to_list counts ->
  (write_loop rs items).1 = update_rows rs counts /\
  updated_participants_count rs items =
    length (filter (fun item => is_Some (target_index rs item.1))
                   (map_to_list counts)) /\
  (updated_participants_count rs items <= size counts)%nat.
Proof.
  intros Hperm. unfold updated_participants_count, write_loop.
  rewrite write_loop_foldl. cbn [fst snd].
  assert (Hcount : length (filter (fun item : string * Counts =>
                                     is_Some (target_index rs item.1)) items) =
                   length (filter (fun item : string * Counts =>
                                     is_Some (target_index rs item.1))
                                  (map_to_list counts)))
    by now rewrite Hperm.
  split; [| split].
  - apply list_eq. intros i.
    rewrite (update_rows_foldl items rs i (NoDup_fst_items counts items Hperm)).
    rewrite update_rows_lookup.
    rewrite (list_to_map_proper items (map_to_list counts)
               (NoDup_fst_items counts items Hperm) Hperm).
    now rewrite list_to_map_to_list.
  - exact Hcount.
  - rewrite Hcount, <- (length_map_to_list counts). simpl. apply length_filter.
Qed.


(** X12. Whatever the order in which the stored counts are gone through,
    the write loop ends with the same table and the same counter; the
    counter is the number of stored participants that have a row with their
    identifier and the baseline event name, and it never exceeds the number
    of stored participants. *)
Theorem write_loop_order_irrelevant (rs : list Row) (counts : gmap string Counts)
    (items items' : list (string * Counts)) :
  items ≡ₚ map_to_list counts ->
  items' ≡ₚ map_to_list counts ->
  write_loop rs items = write_loop rs items' /\
  (write_loop rs items).1 = update_rows rs counts /\
  updated_participants_count rs items =
    length (filter (fun item => is_Some (target_index rs item.1))
                   (map_to_list counts)) /\
  (updated_participants_count rs items <= size counts)%nat.
Proof.
  intros Hperm Hperm'.
  destruct (write_loop_permuted rs counts items Hperm) as (Hrows & Hcount & Hle).
  destruct (write_loop_permuted rs counts items' Hperm') as (Hrows' & Hcount' & _).
  split; [| auto].
  rewrite (surjective_pairing (write_loop rs items)),
          (surjective_pairing (write_loop rs items')).
  unfold updated_participants_count in Hcount, Hcount'. congruence.
Qed.

Lemma write_loop_order_irrelevant_witness :
  write_loop (rows sample_converted)
    [("P2", mkCounts 1 0 1); ("P1", mkCounts 0 2 2)] =
  write_loop (rows sample_converted)
    [("P1", mkCounts 0 2 2); ("P2", mkCounts 1 0 1)].
Proof.
  refine (proj1 (write_loop_order_irrelevant (rows sample_converted)
                   (<["P1" := mkCounts 0 2 2]> (<["P2" := mkCounts 1 0 1]> ∅))
                   [("P2", mkCounts 1 0 1); ("P1", mkCounts 0 2 2)]
                   [("P1", mkCounts 0 2 2); ("P2", mkCounts 1 0 1)] _ _)).
  - vm_compute. apply perm_swap || reflexivity.
  - vm_compute. apply perm_swap || reflexivity.
Defined.

(** X13. Every record the count loop stored is written: the participant
    has a first row with its identifier and the baseline event name, and
    after the write loop the row at that place holds the record's missed
    count, outside-window count and total in its three output cells, all
    its other cells being as before; the counter of the write loop ends at
    the number of stored records, in whatever order they are gone
    through. *)
Theorem every_record_written (f : Frame) (records : gmap string Counts)
    (items : list (string * Counts)) :
  deviation_records f = Completed records ->
  items ≡ₚ map_to_list records ->
  updated_participants_count (rows f) items = size records /\
  forall k c, records !! k = Some c ->
    exists i r r',
      target_index (rows f) k = Some i /\
      rows f !! i = Some r /\
      (write_loop (rows f) items).1 !! i = Some r' /\
      missed_test_count r' = Some (missed_count c) /\
      outside_window_test_count r' = Some (outside_window_count c) /\
      total_test_deviations r' = Some (total_deviations c) /\
      data_of r' = data_of r.
Proof.
  intros Hrec Hperm.
  assert (Htarget : forall k c, records !! k = Some c ->
            is_Some (target_index (rows f) k)).
  { intros k c Hk.
    destruct (records_origin f records k c Hrec Hk) as [(r & Hr & [Hev _] & Hid) _].
    unfold target_index.
    destruct (list_find_elem_of (is_target_row k) (rows f) r Hr (conj Hid Hev))
      as [[i y] ->]. simpl. eauto. }
  destruct (write_loop_permuted (rows f) records items Hperm)
    as (Hrows & Hcount & _).
  split.
  - rewrite Hcount, filter_Forall_id, length_map_to_list; [reflexivity |].
    apply Forall_forall. intros [k c] Hin. simpl.
    apply elem_of_map_to_list in Hin. eauto.
  - intros k c Hk. destruct (Htarget k c Hk) as [i Hi].
    pose proof Hi as Hi'.
    apply target_index_Some in Hi' as (r & Hr & [Hid _] & _).
    exists i, r, (assign_counts c r).
    split; [exact Hi |]. split; [exact Hr |]. split.
    + rewrite Hrows, update_rows_lookup, Hr. simpl.
      rewrite Hid, decide_True by exact Hi. now rewrite Hk.
    + repeat split.
Qed.

Lemma every_record_written_witness :
  updated_participants_count (rows sample_visits)
    (map_to_list (default ∅ (completed (deviation_records sample_visits)))) =
  size (default ∅ (completed (deviation_records sample_visits))).
Proof.
  refine (proj1 (every_record_written sample_visits _ _ _ _)).
  - vm_compute. reflexivity.
  - reflexivity.
Defined.

(** ** What the preparation leaves in the table *)

Lemma foldl_add_missing (cols : list string) (a b c : string) :
  a <> b -> a <> c -> b <> c ->
  foldl (fun cs col => if has_column cs col then cs else cs ++ [col]) cols [a; b; c] =
  cols ++ filter (fun col => col ∉ cols) [a; b; c].
Proof.
  intros Hab Hac Hbc. cbn [foldl]. unfold has_column.
  rewrite !filter_cons, filter_nil.
  destruct (decide (a ∉ cols)) as [Ha | Ha];
    [rewrite (bool_decide_eq_false_2 (a ∈ cols)) by exact Ha
    | rewrite (bool_decide_eq_true_2 (a ∈ cols)) by (now destruct (decide (a ∈ cols)))];
  (destruct (decide (b ∉ cols)) as [Hb | Hb];
    [rewrite (bool_decide_eq_false_2 (b ∈ _))
       by (rewrite ?elem_of_app, ?list_elem_of_singleton; intuition congruence)
    | rewrite (bool_decide_eq_true_2 (b ∈ _))
       by (rewrite ?elem_of_app; destruct (decide (b ∈ cols)); intuition)]);
  (destruct (decide (c ∉ cols)) as [Hc | Hc];
    [rewrite (bool_decide_eq_false_2 (c ∈ _))
       by (rewrite ?elem_of_app, ?list_elem_of_singleton; intuition congruence)
    | rewrite (bool_decide_eq_true_2 (c ∈ _))
       by (rewrite ?elem_of_app; destruct (decide (c ∈ cols)); intuition)]);
  rewrite <- ?app_assoc, ?app_nil_r; reflexivity.
Qed.

Lemma add_output_columns_app (cols : list string) :
  add_output_columns cols =
  cols ++ filter (fun col => col ∉ cols)
            [MISSED_TEST_COUNT_COL; OUTSIDE_WINDOW_COUNT_COL; TOTAL_DEVIATION_COUNT_COL].
Proof. unfold add_output_columns. now apply foldl_add_missing. Qed.

(** X14. The preparation keeps the loaded columns in place and appends
    those of the three output columns that are missing, in the order
    missed, outside-window, total; distinct column names stay distinct; the
    table has as many rows as were loaded and all three counts of every row
    are blank, whatever the loaded table held in them. *)
Theorem output_columns_prepared (df : RawFrame) (f : Frame) :
  prepare df = Completed f ->
  columns f =
    raw_columns df ++
    filter (fun col => col ∉ raw_columns df)
      [MISSED_TEST_COUNT_COL; OUTSIDE_WINDOW_COUNT_COL; TOTAL_DEVIATION_COUNT_COL] /\
  (MISSED_TEST_COUNT_COL ∈ columns f /\ OUTSIDE_WINDOW_COUNT_COL ∈ columns f /\
   TOTAL_DEVIATION_COUNT_COL ∈ columns f) /\
  (NoDup (raw_columns df) -> NoDup (columns f)) /\
  length (rows f) = length (raw_rows df) /\
  Forall (fun r => counts_of r = no_counts) (rows f).
Proof.
  intros Hp. pose proof (prepare_columns df f Hp) as Hcols.
  split; [now rewrite Hcols, add_output_columns_app |].
  split; [| split; [| split]].
  - rewrite Hcols, !add_output_columns_elem.
    repeat split; right; now apply (bool_decide_unpack _).
  - intros Hnd. rewrite Hcols, add_output_columns_app. apply NoDup_app.
    split; [exact Hnd |]. split.
    + intros col Hcol Hin. apply list_elem_of_filter in Hin as [Hnot _]. now apply Hnot.
    + apply NoDup_filter. now apply (bool_decide_unpack _).
  - apply (prepare_rows df f Hp).
  - apply Forall_forall. intros r Hr. exact (prepare_no_counts df f r Hp Hr).
Qed.

Lemma output_columns_prepared_witness :
  length (rows sample_converted) = length (raw_rows sample_table).
Proof.
  refine (proj1 (proj2 (proj2 (proj2
            (output_columns_prepared sample_table sample_converted _))))).
  vm_compute. reflexivity.
Defined.

(** X15. A completed run changes nothing but the three output columns: the
    final table has the loaded columns followed by the missing output
    columns, as many rows as the loaded table, in the same order, and in
    every row the identifier, event, dates and status are the converted
    loaded cells. *)
Theorem run_changes_counts_only (df : RawFrame) (out : Frame) :
  run df = Completed out ->
  columns out = add_output_columns (raw_columns df) /\
  length (rows out) = length (raw_rows df) /\
  forall i raw, raw_rows df !! i = Some raw ->
    exists r', rows out !! i = Some r' /\
      data_of r' = data_of (convert_row (raw_columns df) raw
                              (to_Int64 (to_numeric (raw_participant_status raw)))).
Proof.
  intros Hrun. destruct (run_unfold df out Hrun) as (f & Hp & Hf).
  destruct (final_rows_from_loaded df f out Hp Hf) as [Hlen Hrows].
  split; [| split; [exact Hlen |]].
  - destruct (run_frame_rows f out Hf) as (records & _ & Hcols & _).
    now rewrite Hcols, (prepare_columns df f Hp).
  - intros i raw Hraw.
    destruct (rows out !! i) as [r' |] eqn:Hr'.
    + destruct (Hrows i r' Hr') as (raw' & Hraw' & Hdata).
      rewrite Hraw in Hraw'. injection Hraw' as <-. eauto.
    + apply lookup_ge_None in Hr'. apply lookup_lt_Some in Hraw. lia.
Qed.

Lemma run_changes_counts_only_witness :
  length (rows sample_output) = length (raw_rows sample_table).
Proof.
  refine (proj1 (proj2 (run_changes_counts_only sample_table sample_output _))).
  vm_compute. reflexivity.
Defined.

(** ** A later end date *)

Lemma count_where_filter_mono {A} (test : A -> bool) (P Q : A -> Prop)
    `{!forall x, Decision (P x)} `{!forall x, Decision (Q x)} (l : list A) :
  (forall x, P x -> Q x) ->
  count_where test (filter P l) <= count_where test (filter Q l).
Proof.
  intros Himp. induction l as [| x l IH]; [reflexivity |].
  rewrite !filter_cons.
  destruct (decide (P x)) as [Hx | Hx].
  - rewrite decide_True by now apply Himp. rewrite !count_where_cons. lia.
  - destruct (decide (Q x)); [| exact IH].
    rewrite count_where_cons. destruct (test x); lia.
Qed.

Lemma expected_events_later_end (schedule : list (Z * string)) (st : Z)
    (base e e' : Timestamp) (test : Timestamp * string -> bool) :
  value e <= value e' ->
  count_where test (expected_events schedule st base (Some e)) <=
  count_where test (expected_events schedule st base (Some e')).
Proof.
  intros Hle. unfold expected_events. rewrite !count_where_app.
  assert (Hbase : count_where test
                    (if baseline_is_expected st base (Some e)
                     then [(base, BASELINE_EVENT_NAME)] else []) <=
                  count_where test
                    (if baseline_is_expected st base (Some e')
                     then [(base, BASELINE_EVENT_NAME)] else [])).
  { unfold baseline_is_expected, Timestamp_le.
    destruct (st =? 1); [reflexivity |].
    destruct (value base <=? value e) eqn:E1.
    - apply Z.leb_le in E1. rewrite (proj2 (Z.leb_le _ _)) by lia. reflexivity.
    - destruct (value base <=? value e'); [apply count_where_nonneg | reflexivity]. }
  assert (Hfollow := count_where_filter_mono test
            (fun se : Timestamp * string => is_expected st se.1 (Some e) = true)
            (fun se : Timestamp * string => is_expected st se.1 (Some e') = true)
            ((fun entry : Z * string => (add_months base entry.1, entry.2)) <$> schedule)).
  assert (Himp : forall se : Timestamp * string,
            is_expected st se.1 (Some e) = true -> is_expected st se.1 (Some e') = true).
  { intros se. unfold is_expected, Timestamp_le. rewrite !Z.leb_le. lia. }
  specialize (Hfollow Himp). lia.
Qed.

(** X16. A later end date never lowers a count: of two participants with
    the same identifier, status and anchor, the one whose end date for
    expected tests is later has at least as many missed tests and at least
    as many tests outside the window, hence at least as many deviations. *)
Theorem later_end_date_counts_no_less (schedule : list (Z * string))
    (performed : gmap (string * string) (option Timestamp))
    (p p' : Participant) (st : Z) (e e' : Timestamp) (c c' : Counts) :
  pid p' = pid p -> base_dt p' = base_dt p ->
  status p = Some st -> status p' = Some st ->
  participant_end_point_date schedule st (base_dt p)
    (endpoint1_dt p) (endpoint2_dt p) = Some e ->
  participant_end_point_date schedule st (base_dt p')
    (endpoint1_dt p') (endpoint2_dt p') = Some e' ->
  value e <= value e' ->
  recalc schedule performed p = Some c ->
  recalc schedule performed p' = Some c' ->
  missed_count c <= missed_count c' /\
  outside_window_count c <= outside_window_count c' /\
  total_deviations c <= total_deviations c'.
Proof.
  intros Hpid Hbase Hst Hst' He He' Hle Hc Hc'.
  pose proof (recalc_total _ _ _ _ Hc) as Ht.
  pose proof (recalc_total _ _ _ _ Hc') as Ht'.
  destruct (recalc_tally _ _ _ _ Hc) as (s & Hs & Hm & Ho).
  destruct (recalc_tally _ _ _ _ Hc') as (s' & Hs' & Hm' & Ho').
  rewrite Hst in Hs. injection Hs as <-. rewrite Hst' in Hs'. injection Hs' as <-.
  rewrite He in Hm, Ho. rewrite He', Hpid, Hbase in Hm', Ho'.
  pose proof (expected_events_later_end schedule st (base_dt p) e e'
                (event_missed performed (pid p)) Hle).
  pose proof (expected_events_later_end schedule st (base_dt p) e e'
                (event_outside performed (pid p)) Hle).
  lia.
Qed.

Lemma later_end_date_counts_no_less_witness :
  missed_count (mkCounts 2 0 2) <= missed_count (mkCounts 4 0 4).
Proof.
  refine (proj1 (later_end_date_counts_no_less EXPECTED_FOLLOWUP_SCHEDULE ∅
                   (mkParticipant "P1" (Some 2) (Some (date 2022 4 1)) None (date 2022 1 1))
                   (mkParticipant "P1" (Some 2) (Some (date 2022 7 1)) None (date 2022 1 1))
                   2 (date 2022 4 1) (date 2022 7 1) (mkCounts 2 0 2) (mkCounts 4 0 4)
                   eq_refl eq_refl eq_refl eq_refl eq_refl eq_refl _ _ _)).
  - vm_compute. discriminate.
  - vm_compute. reflexivity.
  - vm_compute. reflexivity.
Defined.

(** ** The whole run within the Timestamp range *)

Lemma calculated_counts_in_range
    (performed : gmap (string * string) (option Timestamp))
    (ps : list Participant) :
  Forall (fun p => anchor_in_range EXPECTED_FOLLOWUP_SCHEDULE (base_dt p)) ps ->
  Checked.calculated_counts performed ps = Completed (calculated_counts performed ps).
Proof.
  unfold Checked.calculated_counts, calculated_counts.
  generalize (∅ : gmap string Counts).
  intros acc Hall. revert acc.
  induction Hall as [| p ps Hp _ IH]; intros acc; [reflexivity |].
  assert (Hstep : Checked.store_counts EXPECTED_FOLLOWUP_SCHEDULE performed acc p =
                  Completed (store_counts EXPECTED_FOLLOWUP_SCHEDULE performed acc p)).
  { unfold Checked.store_counts, store_counts.
    rewrite (recalc_in_range EXPECTED_FOLLOWUP_SCHEDULE performed p);
      [reflexivity | repeat constructor; simpl; lia | exact Hp]. }
  cbn [foldl_outcome foldl]. rewrite Hstep. cbn. apply IH.
Qed.

(** The anchor of a participant is a test date or a visit date of a loaded
    row. *)
Lemma anchor_from_loaded (df : RawFrame) (f : Frame)
    (baselines : list (string * Timestamp)) (p : Participant) :
  prepare df = Completed f ->
  final_baselines f = Completed baselines ->
  p ∈ participants_for_recalc f baselines ->
  exists raw, raw ∈ raw_rows df /\
    (raw_test_date raw = DateCell (base_dt p) \/
     raw_visit_date raw = DateCell (base_dt p)).
Proof.
  intros Hprep Hbase Hp. unfold participants_for_recalc in Hp.
  apply list_elem_of_filter in Hp as [_ Hp].
  apply elem_of_merge_baselines in Hp as (r & [k d] & _ & Hb & _ & ->).
  cbn [base_dt snd].
  apply (elem_of_final_baselines f baselines k d Hbase) in Hb as (x & Hx & _ & Hd).
  apply elem_of_baseline_event_rows in Hx as [Hx _].
  apply list_elem_of_lookup in Hx as [i Hi].
  destruct (prepare_rows df f Hprep) as [_ Hconv].
  destruct (Hconv i x Hi) as (raw & Hraw & ->).
  exists raw. split; [eapply list_elem_of_lookup_2; exact Hraw |].
  assert (Hcell : forall col cell,
            convert_date (raw_columns df) col cell = Some d -> cell = DateCell d).
  { intros col cell. unfold convert_date. destruct (has_column _ col); [| discriminate].
    destruct cell; simpl; try discriminate. now intros [= ->]. }
  unfold effective_baseline, fillna in Hd.
  cbn [test_date visit_date convert_row] in Hd.
  destruct (has_column (columns f) TEST_DATE_COL);
    destruct (has_column (columns f) VISIT_DATE_COL); cbn in Hd; try discriminate.
  - destruct (convert_date (raw_columns df) TEST_DATE_COL (raw_test_date raw))
      as [t |] eqn:Et.
    + injection Hd as ->. left. eapply Hcell. exact Et.
    + right. eapply Hcell. exact Hd.
  - left. eapply Hcell. exact Hd.
  - right. eapply Hcell. exact Hd.
Qed.

(** On a table whose dates are in range the guarded run is the run. *)
Lemma run_in_range (df : RawFrame) :
  dates_in_range df ->
  Checked.run df = run df /\ Checked.run_records df = run_records df.
Proof.
  intros Hdates.
  assert (Hrec : forall f, prepare df = Completed f ->
            Checked.deviation_records f = deviation_records f).
  { intros f Hprep. unfold Checked.deviation_records, deviation_records.
    destruct (final_baselines f) as [baselines | why] eqn:Hbase; [| reflexivity].
    cbn. destruct (performed_tests_df f) as [tests | why]; [| reflexivity].
    cbn. apply calculated_counts_in_range. apply Forall_forall. intros p Hp.
    destruct (anchor_from_loaded df f baselines p Hprep Hbase Hp) as (raw & Hraw & Hor).
    exact (Hdates raw (base_dt p) Hraw Hor). }
  unfold Checked.run, run, Checked.run_records, run_records, Checked.run_frame, run_frame.
  destruct (prepare df) as [f | why] eqn:Hprep; [| split; reflexivity].
  cbn. now rewrite (Hrec f eq_refl).
Qed.

(** C7, amended.  A missing identifier column stops the run with a message
    naming it, and so does a missing status column; once the status column
    has been converted, a missing event-name column stops the run with a
    message naming it, and a table with neither the test-date nor the
    visit-date column stops it with the message that no baseline date
    column was found; all this before any count is computed.  A missing
    visit-date or endpoint-date column stops nothing.  When the identifier,
    status, event-name and test-date columns exist, every status cell is
    blank, not a number, or a whole number that fits 64 bits, and every test
    or visit date is far enough from the ends of the Timestamp range, the
    run completes whatever else is missing or malformed: every input row is
    still there, a blank identifier has become the empty string, a date that
    does not parse or is blank has become a missing date, and a status that
    is not a number or is blank has become a missing status. *)
Theorem missing_column_aborts_malformed_cell_stays (df : RawFrame) :
  let has := has_column (raw_columns df) in
  (has PARTICIPANT_ID_COL = false ->
     Checked.run df = Aborted (ColumnNotFound PARTICIPANT_ID_COL) /\
     Checked.run_records df = Aborted (ColumnNotFound PARTICIPANT_ID_COL)) /\
  (has PARTICIPANT_ID_COL = true -> has STATUS_COL = false ->
     Checked.run df = Aborted (ColumnNotFound STATUS_COL) /\
     Checked.run_records df = Aborted (ColumnNotFound STATUS_COL)) /\
  (has PARTICIPANT_ID_COL = true -> has STATUS_COL = true ->
   statuses_castable df = true -> has EVENT_NAME_COL = false ->
     Checked.run df = Aborted (ColumnNotFound EVENT_NAME_COL) /\
     Checked.run_records df = Aborted (ColumnNotFound EVENT_NAME_COL)) /\
  (has PARTICIPANT_ID_COL = true -> has STATUS_COL = true ->
   statuses_castable df = true -> has EVENT_NAME_COL = true ->
   has TEST_DATE_COL = false -> has VISIT_DATE_COL = false ->
     Checked.run df = Aborted BaselineDateColumnsNotFound /\
     Checked.run_records df = Aborted BaselineDateColumnsNotFound) /\
  (has PARTICIPANT_ID_COL = true -> has STATUS_COL = true ->
   statuses_castable df = true -> has EVENT_NAME_COL = true ->
   has TEST_DATE_COL = true -> dates_in_range df ->
     exists out,
       Checked.run df = Completed out /\
       length (rows out) = length (raw_rows df) /\
       forall i raw, raw_rows df !! i = Some raw ->
         exists r, rows out !! i = Some r /\
           (raw_record_id raw = None -> record_id r = "") /\
           (~ (exists t, raw_test_date raw = DateCell t) -> test_date r = None) /\
           (~ (exists t, raw_visit_date raw = DateCell t) -> visit_date r = None) /\
           (~ (exists t, raw_primary_endpoint_date raw = DateCell t) ->
              primary_endpoint_date r = None) /\
           (~ (exists t, raw_secondary_endpoint_date raw = DateCell t) ->
              secondary_endpoint_date r = None) /\
           (~ (exists z, raw_participant_status raw = StatusInteger z) ->
              participant_status r = None)).
Proof.
  intros has. subst has. cbv beta.
  split; [| split; [| split; [| split]]].
  - intros Hid. unfold Checked.run, Checked.run_records, prepare. now rewrite Hid.
  - intros Hid Hst. unfold Checked.run, Checked.run_records, prepare.
    now rewrite Hid, Hst.
  - intros Hid Hst Hcast Hev.
    unfold Checked.run, Checked.run_records, prepare, astype_Int64.
    unfold statuses_castable in Hcast. rewrite Hid, Hst, Hcast. cbn.
    now rewrite Hev.
  - intros Hid Hst Hcast Hev Ht Hv.
    destruct (prepare_completes df Hid Hst Hev Hcast) as [f Hf].
    pose proof (prepare_columns df f Hf) as Hcols.
    destruct elem_of_INPUT_COLUMNS as (_ & _ & _ & Ht_in & Hv_in & _).
    assert (Hrec : Checked.deviation_records f = Aborted BaselineDateColumnsNotFound).
    { unfold Checked.deviation_records, final_baselines.
      now rewrite Hcols, !has_column_add_output_columns, Ht, Hv by assumption. }
    unfold Checked.run, Checked.run_records, Checked.run_frame. rewrite Hf. cbn.
    now rewrite Hrec.
  - intros Hid Hst Hcast Hev Ht Hdates.
    destruct (prepare_completes df Hid Hst Hev Hcast) as [f Hf].
    pose proof (prepare_columns df f Hf) as Hcols.
    destruct elem_of_INPUT_COLUMNS as (_ & _ & _ & Ht_in & _).
    destruct (deviation_records_completes f) as [records Hrec].
    { now rewrite Hcols, has_column_add_output_columns. }
    set (out := {| columns := columns f;
                   rows := blank_excluded (update_rows (rows f) records) |}).
    assert (Hframe : run_frame f = Completed out)
      by (unfold run_frame; rewrite Hrec; reflexivity).
    assert (Hrun : run df = Completed out) by (unfold run; rewrite Hf; exact Hframe).
    exists out. split; [now rewrite (proj1 (run_in_range df Hdates)) |].
    destruct (final_rows_from_loaded df f out Hf Hframe) as [Hlen Hrows].
    split; [exact Hlen |].
    intros i raw Hraw.
    destruct (lookup_lt_is_Some_2 (rows out) i) as [r Hr].
    { rewrite Hlen. eapply lookup_lt_Some. exact Hraw. }
    exists r. split; [exact Hr |].
    destruct (Hrows i r Hr) as (raw' & Hraw' & Hdata).
    rewrite Hraw in Hraw'. injection Hraw' as <-.
    injection Hdata as Hrid _ Htd Hvd Hps Hp1 Hp2.
    rewrite Hrid, Htd, Hvd, Hps, Hp1, Hp2.
    assert (Hdate : forall col cell,
              ~ (exists t, cell = DateCell t) ->
              convert_date (raw_columns df) col cell = None).
    { intros col cell Hn. unfold convert_date. destruct (has_column _ col); [| reflexivity].
      destruct cell; [exfalso; eauto | reflexivity | reflexivity]. }
    repeat split; try (now apply Hdate).
    + intros ->. reflexivity.
    + intros Hn. destruct (raw_participant_status raw); try reflexivity.
      exfalso. eauto.
Qed.

Lemma sample_table_dates_in_range : dates_in_range sample_table.
Proof.
  intros raw t Hraw Hcell. unfold sample_table in Hraw. cbn [raw_rows] in Hraw.
  repeat (apply elem_of_cons in Hraw as [-> | Hraw];
          [destruct Hcell as [Hcell | Hcell]; try discriminate Hcell;
           injection Hcell as <-;
           (split; [repeat split; apply Z.leb_le; reflexivity | split; reflexivity]) |]).
  now apply elem_of_nil in Hraw.
Qed.

Lemma missing_column_aborts_malformed_cell_stays_witness :
  exists out, Checked.run sample_table = Completed out /\ length (rows out) = 8%nat.
Proof.
  destruct (proj2 (proj2 (proj2 (proj2
    (missing_column_aborts_malformed_cell_stays sample_table))))
    eq_refl eq_refl eq_refl eq_refl eq_refl sample_table_dates_in_range)
    as (out & Hrun & Hlen & _).
  exists out. split; [exact Hrun | exact Hlen].
Defined.

(** C7 as stated fails for the date columns: without the visit-date column
    the run completes and stores counts. *)
Lemma missing_date_column_counterexample :
  ~ (forall (df : RawFrame) (col : string),
       col ∈ INPUT_COLUMNS ->
       has_column (raw_columns df) col = false ->
       exists why, Checked.run df = Aborted why /\
                   Checked.run_records df = Aborted why).
Proof.
  intros H.
  destruct (H sample_table_no_visit_date VISIT_DATE_COL) as (why & Hrun & _).
  - now apply (bool_decide_unpack _).
  - reflexivity.
  - vm_compute in Hrun. discriminate.
Qed.

(** A whole-number status that does not fit 64 bits is refused by the
    integer cast like a fractional one, and a status-1 anchor whose last
    scheduled date is past the Timestamp range stops the count loop. *)
Example status_beyond_int64_aborts :
  Checked.run (mkRawFrame ALL_COLUMNS
         [ raw_sample_row "P1" "study_baseline" (DateCell (date 2022 1 1))
             (StatusInteger (2 ^ 63)) DateBlank ])
  = Aborted CastError.
Proof. reflexivity. Qed.

Example anchor_beyond_range_aborts :
  Checked.run (mkRawFrame ALL_COLUMNS
         [ raw_sample_row "P1" "study_baseline" (DateCell (date 2261 6 1))
             (StatusInteger 1) DateBlank ])
  = Aborted OutOfBoundsDatetime.
Proof. vm_compute. reflexivity. Qed.

(** Under status 2 the same anchor is no obstacle: the follow-up dates that
    cannot be built are skipped. *)
Example anchor_beyond_range_status_2 :
  Checked.recalc EXPECTED_FOLLOWUP_SCHEDULE ∅
    (mkParticipant "P1" (Some 2) (Some (date 2262 1 1)) None (date 2261 6 1))
  = Completed (Some (mkCounts 4 0 4)).
Proof. vm_compute. reflexivity. Qed.
